(** * UV workspace support of release-please: a shallow embedding

    The development follows the TypeScript sources:
    - [src/updaters/python/uv-workspace-toml.ts] (the [UvWorkspaceToml] and
      [UvLock] updaters),
    - [src/plugins/uv-workspace.ts] (the [UvWorkspace] workspace plugin),
    - [src/strategies/uv-workspace.ts] (the [UvWorkspace] strategy).

    JavaScript strings are modelled by [string]; every [ascii] stands for one
    code unit below 256.  Maps keyed by package name are [gmap string _]. *)

From Stdlib Require Import Ascii String.
From stdpp Require Import gmap strings list fin_maps pretty.


Set Warnings "-register-all".

(** ** JavaScript string primitives used by the sources *)

Module Js.

(** [String.prototype.startsWith]. *)
Fixpoint startsWith (needle hay : string) : bool :=
  match needle, hay with
  | EmptyString, _ => true
  | String a n, String b h => if decide (a = b) then startsWith n h else false
  | String _ _, EmptyString => false
  end.

(** [String.prototype.includes]. *)
Fixpoint includes (needle hay : string) : bool :=
  startsWith needle hay ||
  match hay with
  | EmptyString => false
  | String _ h => includes needle h
  end.

(** The longest prefix whose code units satisfy [p], and what follows it. *)
Fixpoint span (p : ascii → bool) (s : string) : string * string :=
  match s with
  | EmptyString => (EmptyString, EmptyString)
  | String a t =>
      if p a then let '(x, y) := span p t in (String a x, y)
      else (EmptyString, s)
  end.

(** Every code unit of the string satisfies [p]. *)
Fixpoint every (p : ascii → bool) (s : string) : bool :=
  match s with
  | EmptyString => true
  | String a t => p a && every p t
  end.

(** Line terminators: the code units that the regular-expression dot does
    not match (line feed and carriage return, in the range modelled). *)
Definition isLineTerminator (a : ascii) : bool :=
  let n := nat_of_ascii a in (n =? 10)%nat || (n =? 13)%nat.

(** White space and line terminators removed by [String.prototype.trim]
    (tab, line feed, vertical tab, form feed, carriage return, space and
    no-break space, in the range modelled). *)
Definition isTrimmed (a : ascii) : bool :=
  let n := nat_of_ascii a in
  ((9 <=? n)%nat && (n <=? 13)%nat) || (n =? 32)%nat || (n =? 160)%nat.

Fixpoint trimStart (s : string) : string :=
  match s with
  | EmptyString => EmptyString
  | String a t => if isTrimmed a then trimStart t else s
  end.

Definition trim (s : string) : string :=
  String.rev (trimStart (String.rev (trimStart s))).

End Js.

(** ** Versions *)

(** Modelled from the spec: the [Version] value of the version-parsing
    collaborator ([src/version.ts] is not among the sources verified here).  A
    semantic version has three numeric components and optional pre-release
    and build texts; [toString] prints it in the usual form. *)
Record Version : Type := mkVersion {
  major : N;
  minor : N;
  patch : N;
  preRelease : option string;
  build : option string
}.

Definition toString (v : Version) : string :=
  pretty (major v) +:+ "." +:+ pretty (minor v) +:+ "." +:+ pretty (patch v)
  +:+ match preRelease v with Some p => "-" +:+ p | None => "" end
  +:+ match build v with Some b => "+" +:+ b | None => "" end.

Definition release (a b c : N) : Version := mkVersion a b c None None.

(** Modelled from the spec: the default bump policy ([PatchVersionUpdate] of
    [src/versioning-strategy.ts], not among the sources verified here), the
    smallest forward-compatible increment: the patch component goes up by
    one. *)
Definition patchBump (v : Version) : Version :=
  mkVersion (major v) (minor v) (patch v + 1) (preRelease v) (build v).

(** [VersionsMap = Map<string, Version>]. *)
Abbreviation VersionsMap := (gmap string Version).

(** ** Exceptions and results *)

Inductive Exn : Type :=
| TomlParseError (raw : string)
| PathError (path : list string)
| TypeError (what : string)
| Error (message : string)
| ConfigurationError (message : string)
| TransportError (detail : string).

Inductive Result (A : Type) : Type :=
| Ok (a : A)
| Throw (e : Exn).
Arguments Ok {A} a.
Arguments Throw {A} e.

#[global] Instance Result_bind : MBind Result := λ A B k r,
  match r with
  | Ok a => k a
  | Throw e => Throw e
  end.

(** ** TOML documents *)

(** The values of a parsed TOML document.  A table is the JavaScript object
    the parser builds for it: a finite map from keys to values.  Floats and
    date-times are kept as [TOther] with the truthiness of their JavaScript
    value and the text it prints as. *)
Inductive Toml : Type :=
| TString (s : string)
| TInteger (z : Z)
| TBoolean (b : bool)
| TOther (truthy : bool) (text : string)
| TArray (items : list Toml)
| TTable (fields : gmap string Toml).

(** The content of a file is modelled by what its text denotes: either text
    that is not TOML, or the table of the document. *)
Inductive Content : Type :=
| Malformed (raw : string)
| Document (fields : gmap string Toml).

Module TOML.

(** JavaScript truthiness of a parsed value. *)
Definition truthy (t : Toml) : bool :=
  match t with
  | TString s => negb (bool_decide (s = ""))
  | TInteger z => negb (bool_decide (z = 0%Z))
  | TBoolean b => b
  | TOther b _ => b
  | TArray _ | TTable _ => true
  end.

(** A value that is present and truthy, as tested by [if (value)] and kept
    by [value || other]. *)
Definition whenTruthy (t : option Toml) : option Toml :=
  match t with
  | Some v => if truthy v then Some v else None
  | None => None
  end.

(** Property access [t.key] (or [t?.key] on a missing value) for the fixed,
    non-numeric keys read by the sources: only tables carry them. *)
Definition prop (key : string) (t : option Toml) : option Toml :=
  match t with
  | Some (TTable fields) => fields !! key
  | _ => None
  end.

(** [index.toString()] for an array index. *)
Definition indexKey (index : nat) : string := pretty index.

(** The array index denoted by a path component, if it is one. *)
Definition arrayIndex (key : string) (len : nat) : option nat :=
  List.find (λ i, bool_decide (indexKey i = key)) (seq 0 len).

Fixpoint charEntries (index : nat) (s : string) : list (string * Toml) :=
  match s with
  | EmptyString => []
  | String a rest => (indexKey index, TString (String a "")) :: charEntries (S index) rest
  end.

(** [Object.entries] of a parsed value.  The entries of a table come in
    the order of [map_to_list]; the sources use the order only for the order
    of their log entries. *)
Definition entries (t : Toml) : list (string * Toml) :=
  match t with
  | TTable fields => map_to_list fields
  | TArray items => imap (λ i v, (indexKey i, v)) items
  | TString s => charEntries 0 s
  | _ => []
  end.

(** The text of a value inside a template literal: a string as it is, a
    number or a boolean printed, an array as the texts of its items joined by
    commas, a table as [[object Object]].  A table with a key [toString] of
    its own has no text: what the key holds is not a function, and neither
    [toString] nor [valueOf] gives a primitive, so the conversion throws a
    [TypeError]. *)
Fixpoint text (t : Toml) : option string :=
  match t with
  | TString s => Some s
  | TInteger z => Some (pretty z)
  | TBoolean b => Some (if b then "true" else "false")
  | TOther _ printed => Some printed
  | TArray items =>
      (fix join (items : list Toml) : option string :=
         match items with
         | [] => Some ""
         | [item] => text item
         | item :: rest =>
             first ← text item;
             others ← join rest;
             Some (first +:+ "," +:+ others)
         end) items
  | TTable fields =>
      match fields !! "toString" with
      | Some _ => None
      | None => Some "[object Object]"
      end
  end.

(** [`${value}`] for a property that may be missing. *)
Definition template (t : option Toml) : option string :=
  match t with
  | Some v => text v
  | None => Some "undefined"
  end.

(** Modelled from the spec: [parse(text) -> ManifestModel] of the
    manifest-format collaborator, which the sources call as [TOML.parse] (of
    the TOML library) and as [parseWith] (of [src/util/toml-edit.ts], not
    among the sources verified here).  Both throw on text that is not TOML
    and give the table of the document otherwise. *)
Definition parse (content : Content) : Result Toml :=
  match content with
  | Malformed raw => Throw (TomlParseError raw)
  | Document fields => Ok (TTable fields)
  end.

(** Modelled from the spec: [applyMutation(text, fieldSelector, value)] of
    the manifest-format collaborator ([src/util/toml-edit.ts] is not among the
    sources verified here).  The selector descends through tables by key and
    through arrays by index; the string found at its end is replaced by the
    new value, everything else is kept.  The specification names no failure
    of the collaborator; the callers put the call in a [try], so there is
    one, and it is taken here to be that of a selector that leads nowhere or
    not to a string (the new value is always a string). *)
Fixpoint replaceAt (path : list string) (newValue : string) (t : Toml) : option Toml :=
  match path with
  | [] => match t with TString _ => Some (TString newValue) | _ => None end
  | key :: rest =>
      match t with
      | TTable fields =>
          v ← fields !! key;
          v' ← replaceAt rest newValue v;
          Some (TTable (<[key := v']> fields))
      | TArray items =>
          i ← arrayIndex key (length items);
          item ← items !! i;
          item' ← replaceAt rest newValue item;
          Some (TArray (<[i := item']> items))
      | _ => None
      end
  end.

Definition replaceTomlValue (content : Content) (path : list string)
    (newValue : string) : Result Content :=
  match content with
  | Malformed raw => Throw (TomlParseError raw)
  | Document fields =>
      match replaceAt path newValue (TTable fields) with
      | Some (TTable fields') => Ok (Document fields')
      | _ => Throw (PathError path)
      end
  end.

End TOML.

(** ** Logging *)

Inductive LogEntry : Type :=
| WarnInvalidLock
| WarnNoPackages
| InfoUpdating (name : string) (oldVersion : string) (newVersion : string)
| WarnFailedVersion (name : string)
| WarnNoWorkspacePackages
| WarnFailedDependency (dep : string)
| WarnFailedGroupDependency (dep group : string).

Definition isWarning (e : LogEntry) : bool :=
  match e with
  | InfoUpdating _ _ _ => false
  | _ => true
  end.

(** ** [UvWorkspaceToml.updateDependencyString] *)

Module UvWorkspaceToml.

(** The character class [[a-zA-Z0-9_-]]. *)
Definition isNameChar (a : ascii) : bool :=
  let n := nat_of_ascii a in
  ((97 <=? n)%nat && (n <=? 122)%nat) || ((65 <=? n)%nat && (n <=? 90)%nat)
  || ((48 <=? n)%nat && (n <=? 57)%nat) || (n =? 95)%nat || (n =? 45)%nat.

(** The regular expression matched against a dependency: anchored at the
    start, a first group that is the longest non-empty run of name
    characters, and a second group (a greedy run of the dot) that extends
    to the first line terminator. *)
Definition matchDependency (dependency : string) : option (string * string) :=
  let '(packageName, rest) := Js.span isNameChar dependency in
  match packageName with
  | EmptyString => None
  | _ => Some (packageName, fst (Js.span (λ a, negb (Js.isLineTerminator a)) rest))
  end.

Definition updateDependencyString
    (versionsMap : option VersionsMap) (dependency : string) : string :=
  match versionsMap with
  | None => dependency
  | Some versionsMap =>
    match matchDependency dependency with
    | None => dependency
    | Some (packageName, versionSpec) =>
      match versionsMap !! packageName with
      | None => dependency
      | Some newVersion =>
        if Js.includes "==" versionSpec then
          packageName +:+ "==" +:+ toString newVersion
        else if Js.includes ">=" versionSpec then
          packageName +:+ ">=" +:+ toString newVersion
        else if Js.includes "^" versionSpec then
          packageName +:+ "^" +:+ toString newVersion
        else if Js.includes "~" versionSpec then
          packageName +:+ "~" +:+ toString newVersion
        else if decide (Js.trim versionSpec = "") then
          packageName +:+ "==" +:+ toString newVersion
        else
          packageName +:+ "==" +:+ toString newVersion
      end
    end
  end.

(** One iteration of the [forEach] callback shared by [updateDependencies]
    and [updateDependencyGroups]; a dependency that is not a string has no
    [match] method. *)
Definition updateOne (versionsMap : VersionsMap) (path : list string)
    (onFailure : string → LogEntry) (dep : Toml)
    (state : Content * list LogEntry) : Result (Content * list LogEntry) :=
  match dep with
  | TString dep =>
      let updatedDep := updateDependencyString (Some versionsMap) dep in
      if decide (updatedDep = dep) then Ok state
      else
        match TOML.replaceTomlValue state.1 path updatedDep with
        | Ok processedContent => Ok (processedContent, state.2)
        | Throw _ => Ok (state.1, state.2 ++ [onFailure dep])
        end
  | _ => Throw (TypeError "dep.match is not a function")
  end.

Fixpoint forEachDep (versionsMap : VersionsMap) (prefix : list string)
    (onFailure : string → LogEntry) (index : nat) (dependencies : list Toml)
    (state : Content * list LogEntry) : Result (Content * list LogEntry) :=
  match dependencies with
  | [] => Ok state
  | dep :: rest =>
      state' ← updateOne versionsMap (prefix ++ [TOML.indexKey index]) onFailure dep state;
      forEachDep versionsMap prefix onFailure (S index) rest state'
  end.

(** [dependencies.forEach(...)]: only arrays have the method. *)
Definition forEach (versionsMap : VersionsMap) (prefix : list string)
    (onFailure : string → LogEntry) (dependencies : Toml)
    (state : Content * list LogEntry) : Result (Content * list LogEntry) :=
  match dependencies with
  | TArray items => forEachDep versionsMap prefix onFailure 0 items state
  | _ => Throw (TypeError "dependencies.forEach is not a function")
  end.

Definition updateDependencies (versionsMap : VersionsMap) (dependencies : Toml)
    (state : Content * list LogEntry) : Result (Content * list LogEntry) :=
  forEach versionsMap ["project"; "dependencies"] WarnFailedDependency dependencies state.

Fixpoint updateGroups (versionsMap : VersionsMap) (groups : list (string * Toml))
    (state : Content * list LogEntry) : Result (Content * list LogEntry) :=
  match groups with
  | [] => Ok state
  | (groupName, dependencies) :: rest =>
      state' ← forEach versionsMap ["dependency-groups"; groupName]
                 (λ dep, WarnFailedGroupDependency dep groupName) dependencies state;
      updateGroups versionsMap rest state'
  end.

Definition updateDependencyGroups (versionsMap : VersionsMap) (dependencyGroups : Toml)
    (state : Content * list LogEntry) : Result (Content * list LogEntry) :=
  updateGroups versionsMap (TOML.entries dependencyGroups) state.

(** [updateContent] of an updater constructed with [{version, versionsMap}];
    the result carries the entries logged on the way. *)
Definition updateContent (version : Version) (versionsMap : option VersionsMap)
    (content : Content) : Result (Content * list LogEntry) :=
  parsed ← TOML.parse content;
  processedContent ←
    match TOML.whenTruthy (TOML.prop "version" (TOML.prop "project" (Some parsed))) with
    | Some _ => TOML.replaceTomlValue content ["project"; "version"] (toString version)
    | None => Ok content
    end;
  state ←
    match versionsMap, TOML.whenTruthy (TOML.prop "dependency-groups" (Some parsed)) with
    | Some vm, Some groups => updateDependencyGroups vm groups (processedContent, [])
    | _, _ => Ok (processedContent, [])
    end;
  match versionsMap, TOML.whenTruthy (TOML.prop "dependencies" (TOML.prop "project" (Some parsed))) with
  | Some vm, Some dependencies => updateDependencies vm dependencies state
  | _, _ => Ok state
  end.

End UvWorkspaceToml.

(** The effect expected of [UvWorkspaceToml.updateContent] on a manifest, in
    the words of the specification: the version field is set, and every
    dependency specifier of [project.dependencies] and of the dependency
    groups is rewritten in place. *)
Module ManifestSpec.

(** A dependency list as the updater's interface declares it: an array of
    strings. *)
Definition typedDeps (t : Toml) : Prop :=
  ∃ deps : list string, t = TArray (TString <$> deps).

(** A manifest as the interface [UvWorkspaceTomlContent] declares it. *)
Definition wellTyped (fields : gmap string Toml) : Prop :=
  (∀ v, fields !! "project" = Some v → ∃ project, v = TTable project)
  ∧ (∀ v, TOML.prop "version" (fields !! "project") = Some v → ∃ s, v = TString s)
  ∧ (∀ v, TOML.prop "dependencies" (fields !! "project") = Some v → typedDeps v)
  ∧ (∀ v, fields !! "dependency-groups" = Some v →
       ∃ groups, v = TTable groups ∧ ∀ g t, groups !! g = Some t → typedDeps t).

(** The values of [dependency-groups] on which the loop over
    [Object.entries] runs to its end: a table or an array of dependency
    lists, or a number, boolean or other scalar, which has no entries; the
    entries of a string are its characters, which have no [forEach]. *)
Definition okGroups (t : Toml) : Prop :=
  match t with
  | TTable groups => ∀ g deps, groups !! g = Some deps → typedDeps deps
  | TArray items => Forall typedDeps items
  | TString _ => False
  | _ => True
  end.

(** The manifests on which [updateContent] runs to its end: what it edits
    or iterates over, the truthy values it reads, has the type it needs. *)
Definition okShape (fields : gmap string Toml) : Prop :=
  (∀ v, TOML.whenTruthy (TOML.prop "version" (fields !! "project")) = Some v →
        ∃ s, v = TString s)
  ∧ (∀ v, TOML.whenTruthy (fields !! "dependency-groups") = Some v → okGroups v)
  ∧ (∀ v, TOML.whenTruthy (TOML.prop "dependencies" (fields !! "project")) = Some v →
          typedDeps v).

(** The dependency lists of a manifest: [project.dependencies] and the
    members of [dependency-groups]. *)
Definition isDependencyList (fields : gmap string Toml) (t : Toml) : Prop :=
  TOML.prop "dependencies" (fields !! "project") = Some t
  ∨ (∃ groups g, fields !! "dependency-groups" = Some (TTable groups) ∧ groups !! g = Some t)
  ∨ (∃ items i, fields !! "dependency-groups" = Some (TArray items) ∧ items !! i = Some t).

Definition rewriteItem (versionsMap : VersionsMap) (item : Toml) : Toml :=
  match item with
  | TString dep =>
      TString (UvWorkspaceToml.updateDependencyString (Some versionsMap) dep)
  | _ => item
  end.

Definition rewriteDeps (versionsMap : VersionsMap) (t : Toml) : Toml :=
  match t with
  | TArray items => TArray (rewriteItem versionsMap <$> items)
  | _ => t
  end.

Definition rewriteVersion (version : Version) (t : Toml) : Toml :=
  match t with
  | TString s => if decide (s = "") then t else TString (toString version)
  | _ => t
  end.

Definition setVersionField (version : Version) (t : Toml) : Toml :=
  match t with
  | TTable project => TTable (alter (rewriteVersion version) "version" project)
  | _ => t
  end.

Definition setDependencies (versionsMap : VersionsMap) (t : Toml) : Toml :=
  match t with
  | TTable project => TTable (alter (rewriteDeps versionsMap) "dependencies" project)
  | _ => t
  end.

Definition onProject (version : Version) (versionsMap : VersionsMap) (t : Toml) : Toml :=
  setDependencies versionsMap (setVersionField version t).

Definition rewriteGroups (versionsMap : VersionsMap) (t : Toml) : Toml :=
  match t with
  | TTable groups => TTable (rewriteDeps versionsMap <$> groups)
  | TArray items => TArray (rewriteDeps versionsMap <$> items)
  | _ => t
  end.

Definition rewrite (version : Version) (versionsMap : VersionsMap)
    (fields : gmap string Toml) : gmap string Toml :=
  alter (setDependencies versionsMap) "project"
    (alter (rewriteGroups versionsMap) "dependency-groups"
       (alter (setVersionField version) "project" fields)).

(** A version text without the characters that the rewriting of specifiers
    looks for, as the text of every semantic version is. *)
Definition plainChar (a : ascii) : bool :=
  negb (bool_decide (a = "="%char)) && negb (bool_decide (a = "^"%char))
  && negb (Js.isLineTerminator a).

Definition plain (v : Version) : Prop := Js.every plainChar (toString v).

(** No specifier of the list names a key of the versions map. *)
Definition namesNoKey (versionsMap : VersionsMap) (t : Toml) : Prop :=
  ∀ deps dep name versionSpec,
    t = TArray (TString <$> deps) →
    dep ∈ deps →
    UvWorkspaceToml.matchDependency dep = Some (name, versionSpec) →
    versionsMap !! name = None.

End ManifestSpec.

(** ** [UvLock] *)

Module UvLock.

(** [this.versionsMap.get(pkg.name)]: only a string can be a key. *)
Definition lookupVersion (versionsMap : VersionsMap) (pkg : Toml) : option Version :=
  match TOML.prop "name" (Some pkg) with
  | Some (TString name) => versionsMap !! name
  | _ => None
  end.

Definition pkgName (pkg : Toml) : string :=
  match TOML.prop "name" (Some pkg) with
  | Some (TString name) => name
  | _ => ""
  end.

Record LoopState : Type := mkLoopState {
  processedContent : Content;
  modified : bool;
  logged : list LogEntry
}.

Definition notPrimitive : Exn := TypeError "Cannot convert object to primitive value".

(** The callback of [data.package.forEach].  The info line is built from
    [pkg.version] before the [try]: a version that has no text makes the
    callback throw. *)
Definition visit (versionsMap : VersionsMap) (index : nat) (pkg : Toml)
    (st : LoopState) : Result LoopState :=
  match lookupVersion versionsMap pkg with
  | Some newVersion =>
      match TOML.template (TOML.prop "version" (Some pkg)) with
      | None => Throw notPrimitive
      | Some oldVersion =>
          let log :=
            logged st ++ [InfoUpdating (pkgName pkg) oldVersion (toString newVersion)] in
          let path := ["package"; TOML.indexKey index; "version"] in
          match TOML.replaceTomlValue (processedContent st) path (toString newVersion) with
          | Ok content' => Ok (mkLoopState content' true log)
          | Throw _ => Ok (mkLoopState (processedContent st) (modified st)
                             (log ++ [WarnFailedVersion (pkgName pkg)]))
          end
      end
  | None => Ok st
  end.

Fixpoint forEachPackage (versionsMap : VersionsMap) (index : nat)
    (packages : list Toml) (st : LoopState) : Result LoopState :=
  match packages with
  | [] => Ok st
  | pkg :: rest =>
      st' ← visit versionsMap index pkg st;
      forEachPackage versionsMap (S index) rest st'
  end.

(** The [try] of [updateContent] covers the parse only; what the loop
    throws outside the [try] of its callback leaves [updateContent]. *)
Definition updateContent (versionsMap : VersionsMap) (content : Content)
    : Result (Content * list LogEntry) :=
  match TOML.parse content with
  | Throw _ => Ok (content, [WarnInvalidLock])
  | Ok data =>
      match TOML.prop "package" (Some data) with
      | Some (TArray packages) =>
          st ← forEachPackage versionsMap 0 packages (mkLoopState content false []);
          Ok (processedContent st,
              if modified st then logged st else logged st ++ [WarnNoWorkspacePackages])
      | _ => Ok (content, [WarnNoPackages])
      end
  end.

End UvLock.

(** The effect expected of [UvLock.updateContent] on one entry of the
    [package] array, in the words of the specification: the version field of
    an entry whose name is a key of the versions map is set, and only that
    field. *)
Module LockSpec.

Definition setVersion (newVersion : string) (pkg : Toml) : option Toml :=
  TOML.replaceAt ["version"] newVersion pkg.

Definition updateEntry (versionsMap : VersionsMap) (pkg : Toml) : Toml :=
  match UvLock.lookupVersion versionsMap pkg with
  | Some newVersion => default pkg (setVersion (toString newVersion) pkg)
  | None => pkg
  end.

Definition entryChanged (versionsMap : VersionsMap) (pkg : Toml) : bool :=
  match UvLock.lookupVersion versionsMap pkg with
  | Some newVersion => bool_decide (is_Some (setVersion (toString newVersion) pkg))
  | None => false
  end.

(** The text of [pkg.version] in the info line. *)
Definition oldVersion (pkg : Toml) : option string :=
  TOML.template (TOML.prop "version" (Some pkg)).

(** The info line of the entry can be written: the version of an entry
    whose name is a key of the versions map has a text. *)
Definition printable (versionsMap : VersionsMap) (pkg : Toml) : Prop :=
  is_Some (UvLock.lookupVersion versionsMap pkg) → is_Some (oldVersion pkg).

Definition entryLog (versionsMap : VersionsMap) (pkg : Toml) : list LogEntry :=
  match UvLock.lookupVersion versionsMap pkg with
  | Some newVersion =>
      InfoUpdating (UvLock.pkgName pkg) (default "" (oldVersion pkg)) (toString newVersion) ::
      if entryChanged versionsMap pkg then [] else [WarnFailedVersion (UvLock.pkgName pkg)]
  | None => []
  end.

#[global] Instance printable_dec versionsMap pkg : Decision (printable versionsMap pkg).
Proof. unfold printable. apply _. Defined.

(** Two log lines that differ at most in the old version that an info line
    names. *)
Definition sameLine (e1 e2 : LogEntry) : Prop :=
  match e1, e2 with
  | InfoUpdating name1 _ new1, InfoUpdating name2 _ new2 => name1 = name2 ∧ new1 = new2
  | _, _ => e1 = e2
  end.

(** An entry of a lock document: a table with a name and a version. *)
Definition isEntry (pkg : Toml) : Prop :=
  ∃ entry name version,
    pkg = TTable entry
    ∧ entry !! "name" = Some (TString name)
    ∧ entry !! "version" = Some (TString version).

End LockSpec.

(** ** The workspace plugin ([src/plugins/uv-workspace.ts]) *)

Module Plugin.

(** A member manifest as [parsePyProject] types it; the version keeps its
    parsed value, since the plugin itself tests whether it is a string. *)
Record Manifest : Type := mkManifest {
  projectName : option string;
  poetryName : option string;
  projectVersion : option Toml;
  poetryVersion : option Toml;
  dependencies : option (list string);
  optionalDependencies : option (list (string * list string));
  dependencyGroups : option (list (string * list string))
}.

Record Update : Type := mkUpdate {
  updatePath : string;
  cachedFileContents : option Content
}.

Record Candidate : Type := mkCandidate {
  candidatePath : string;
  updates : list Update
}.

Record UvPackageInfo : Type := mkPackage {
  path : string;
  name : string;
  version : string;
  manifestPath : string;
  manifestContent : Content;
  manifest : Manifest
}.

(** What the plugin reads from its surroundings: the repository on the
    target branch, and the helpers of modules that are not among the
    sources verified here ([parsePyProject], [addPath], [ROOT_PROJECT_PATH]). *)
Record Env : Type := mkEnv {
  getFileContentsOnBranch : string → Result Content;
  findFilesByGlobAndRef : string → Result (list string);
  parsePyProject : Content → Result Manifest;
  parseVersion : string → Result Version;
  addPath : string → string → string;
  ROOT_PROJECT_PATH : string
}.

Inductive Note : Type :=
| WarnNotWorkspace
| InfoLooking (path : string)
| WarnMissingName (manifestPath : string).

(** A string that is present and truthy: not the empty string. *)
Definition truthyString (a : option string) : option string :=
  match a with
  | Some s => if decide (s = "") then None else a
  | None => None
  end.

(** [manifest.project?.name || manifest.tool?.poetry?.name], when truthy
    (the test [if (!packageName)] that follows). *)
Definition declaredName (manifest : Manifest) : option string :=
  match truthyString (projectName manifest) with
  | Some name => Some name
  | None => truthyString (poetryName manifest)
  end.

(** [manifest.project?.version || manifest.tool?.poetry?.version], when
    truthy (the test [if (!version)] that follows). *)
Definition declaredVersion (manifest : Manifest) : option Toml :=
  match TOML.whenTruthy (projectVersion manifest) with
  | Some version => Some version
  | None => TOML.whenTruthy (poetryVersion manifest)
  end.

Definition cachedManifest (candidate : option Candidate) (manifestPath : string)
    : option Content :=
  c ← candidate;
  u ← List.find (λ u, bool_decide (updatePath u = manifestPath)) (updates c);
  cachedFileContents u.

Record Packages : Type := mkPackages {
  allPackages : list UvPackageInfo;
  candidatesByPackage : list (string * Candidate);
  notes : list Note
}.

(** [candidatesByPackage[packageName] = candidate] on a record kept as an
    association list. *)
Fixpoint assign (key : string) (c : Candidate) (r : list (string * Candidate))
    : list (string * Candidate) :=
  match r with
  | [] => [(key, c)]
  | (k, c') :: rest => if decide (k = key) then (k, c) :: rest else (k, c') :: assign key c rest
  end.

(** The original content of a package, taken from the candidate's updates
    when it is cached there and fetched otherwise, and its parse. *)
Definition loadManifest (env : Env) (candidates : list Candidate) (path : string)
    : Result (Content * Manifest) :=
  let manifestPath := addPath env path "pyproject.toml" in
  let candidate := List.find (λ c, bool_decide (candidatePath c = path)) candidates in
  manifestContent ←
    match cachedManifest candidate manifestPath with
    | Some content => Ok content
    | None => getFileContentsOnBranch env manifestPath
    end;
  manifest ← parsePyProject env manifestContent;
  Ok (manifestContent, manifest).

Definition missingVersion (manifestPath : string) : Exn :=
  ConfigurationError ("package manifest at " +:+ manifestPath +:+ " is missing version").

Definition invalidVersion (manifestPath : string) : Exn :=
  ConfigurationError ("package manifest at " +:+ manifestPath +:+ " has an invalid version").

(** The body of the loop over member paths. *)
Fixpoint visitMembers (env : Env) (candidates : list Candidate)
    (members : list string) (acc : Packages) : Result Packages :=
  match members with
  | [] => Ok acc
  | path :: rest =>
      let manifestPath := addPath env path "pyproject.toml" in
      let candidate := List.find (λ c, bool_decide (candidatePath c = path)) candidates in
      '(manifestContent, manifest) ← loadManifest env candidates path;
      let notes' := notes acc ++ [InfoLooking path] in
      match declaredName manifest with
      | None =>
          visitMembers env candidates rest
            (mkPackages (allPackages acc) (candidatesByPackage acc)
               (notes' ++ [WarnMissingName manifestPath]))
      | Some packageName =>
          let byPackage :=
            match candidate with
            | Some c => assign packageName c (candidatesByPackage acc)
            | None => candidatesByPackage acc
            end in
          match declaredVersion manifest with
          | None => Throw (missingVersion manifestPath)
          | Some (TString version) =>
              visitMembers env candidates rest
                (mkPackages
                   (allPackages acc ++
                      [mkPackage path packageName version manifestPath manifestContent manifest])
                   byPackage notes')
          | Some _ => Throw (invalidVersion manifestPath)
          end
      end
  end.

Fixpoint stringItems (items : list Toml) : Result (list string) :=
  match items with
  | [] => Ok []
  | TString s :: rest => l ← stringItems rest; Ok (s :: l)
  | _ :: _ => Throw (TypeError "workspace member is not a string")
  end.

(** [members.map(...)] needs an array (of patterns). *)
Definition memberPatterns (members : Toml) : Result (list string) :=
  match members with
  | TArray items => stringItems items
  | _ => Throw (TypeError "members.map is not a function")
  end.

Fixpoint expandAll (env : Env) (patterns : list string) : Result (list string) :=
  match patterns with
  | [] => Ok []
  | member :: rest =>
      files ← findFilesByGlobAndRef env member;
      others ← expandAll env rest;
      Ok (files ++ others)
  end.

Definition buildAllPackages (env : Env) (candidates : list Candidate) : Result Packages :=
  pyprojectContent ← getFileContentsOnBranch env "pyproject.toml";
  pyprojectManifest ← TOML.parse pyprojectContent;
  let workspace :=
    TOML.prop "workspace" (TOML.prop "uv" (TOML.prop "tool" (Some pyprojectManifest))) in
  match TOML.whenTruthy (TOML.prop "members" workspace) with
  | None => Ok (mkPackages [] [] [WarnNotWorkspace])
  | Some members =>
      patterns ← memberPatterns members;
      found ← expandAll env patterns;
      visitMembers env candidates (found ++ [ROOT_PROJECT_PATH env]) (mkPackages [] [] [])
  end.

(** The first group of the regular expression of [extractPackageName] (a
    non-empty run of name characters at the start), or else the whole
    specifier. *)
Definition extractPackageName (dependency : string) : string :=
  match Js.span UvWorkspaceToml.isNameChar dependency with
  | (EmptyString, _) => dependency
  | (packageName, _) => packageName
  end.

Record DependencyNode : Type := mkNode {
  deps : list string;
  value : UvPackageInfo
}.

(** [Object.values] of a record of dependency lists, flattened. *)
Definition sectionDeps (section : option (list (string * list string))) : list string :=
  match section with
  | Some groups => concat (snd <$> groups)
  | None => []
  end.

Definition allDeps (m : Manifest) : list string :=
  default [] (dependencies m)
  ++ sectionDeps (optionalDependencies m)
  ++ sectionDeps (dependencyGroups m).

Definition workspaceDeps (workspacePackageNames : gset string) (m : Manifest) : list string :=
  List.filter (λ dep, bool_decide (dep ∈ workspacePackageNames))
    (extractPackageName <$> allDeps m).

Definition buildGraph (allPackages : list UvPackageInfo) : gmap string DependencyNode :=
  let workspacePackageNames : gset string := list_to_set (name <$> allPackages) in
  foldl (λ graph packageInfo,
           <[name packageInfo :=
               mkNode (workspaceDeps workspacePackageNames (manifest packageInfo)) packageInfo]>
             graph)
        ∅ allPackages.

(** [bumpVersion]: the package's version, parsed, then patch-bumped. *)
Definition bumpVersion (env : Env) (pkg : UvPackageInfo) : Result Version :=
  version ← parseVersion env (version pkg);
  Ok (patchBump version).

End Plugin.

(** What is expected of [buildAllPackages] for one member path, in the
    words of the specification: a manifest with a name owes a
    [ConfigurationError] when it has no version, or a version that is not a
    string; a manifest with a name and a version is a package. *)
Module PluginSpec.

Definition manifestAt (env : Plugin.Env) (candidates : list Plugin.Candidate)
    (path : string) : option Plugin.Manifest :=
  match Plugin.loadManifest env candidates path with
  | Ok (_, manifest) => Some manifest
  | Throw _ => None
  end.

Definition errorOf (manifestPath : string) (manifest : Plugin.Manifest) : option Exn :=
  match Plugin.declaredName manifest, Plugin.declaredVersion manifest with
  | None, _ => None
  | Some _, None => Some (Plugin.missingVersion manifestPath)
  | Some _, Some (TString _) => None
  | Some _, Some _ => Some (Plugin.invalidVersion manifestPath)
  end.

Definition errorFor (env : Plugin.Env) (candidates : list Plugin.Candidate)
    (path : string) : option Exn :=
  manifest ← manifestAt env candidates path;
  errorOf (Plugin.addPath env path "pyproject.toml") manifest.

Definition nameFor (env : Plugin.Env) (candidates : list Plugin.Candidate)
    (path : string) : option string :=
  manifest ← manifestAt env candidates path;
  Plugin.declaredName manifest.



End PluginSpec.

(** ** The strategy ([src/strategies/uv-workspace.ts]) *)

Module Strategy.

(** The repository as the strategy reads it: a fetch gives contents, nothing
    (the file is missing), or fails. *)
Record Env : Type := mkEnv {
  getFileContentsOnBranch : string → Result (option Content);
  findFilesByGlobAndRef : string → Result (list string);
  addPath : string → string;
  skipChangelog : bool;
  changelogPath : string
}.

(** [getContent]: any failure of the fetch is turned into [null]. *)
Definition getContent (env : Env) (path : string) : option Content :=
  match getFileContentsOnBranch env (addPath env path) with
  | Ok contents => contents
  | Throw _ => None
  end.

(** [s.replace(needle, '')] for a literal needle: the first occurrence is
    removed. *)
Fixpoint removeFirst (needle s : string) : string :=
  if Js.startsWith needle s then String.substring (String.length needle) (String.length s) s
  else match s with
       | EmptyString => EmptyString
       | String a rest => String a (removeFirst needle rest)
       end.

Definition describe (e : Exn) : string :=
  match e with
  | TomlParseError raw => "TomlError: " +:+ raw
  | PathError _ => "Error: path not found"
  | TypeError what => "TypeError: " +:+ what
  | Error message => "Error: " +:+ message
  | ConfigurationError message => "ConfigurationError: " +:+ message
  | TransportError detail => "Error: " +:+ detail
  end.

Definition expandWorkspaceMember (env : Env) (pattern : string) : Result (list string) :=
  if negb (Js.includes "*" pattern) then Ok [pattern]
  else
    match findFilesByGlobAndRef env (pattern +:+ "/pyproject.toml") with
    | Ok files => Ok (removeFirst "/pyproject.toml" <$> files)
    | Throw e =>
        Throw (Error ("Failed to expand workspace member pattern '" +:+ pattern
                      +:+ "': " +:+ describe e))
    end.

(** [Map.prototype.set] on a map kept in insertion order. *)
Fixpoint mapSet (key : string) (v : Toml) (m : list (string * Toml)) : list (string * Toml) :=
  match m with
  | [] => [(key, v)]
  | (k, v') :: rest => if decide (k = key) then (k, v) :: rest else (k, v') :: mapSet key v rest
  end.

Definition notFound (memberPath manifestPath : string) : Exn :=
  Error ("Workspace member '" +:+ memberPath
         +:+ "' declared but pyproject.toml not found at " +:+ manifestPath).

Fixpoint parsePaths (env : Env) (memberPaths : list string)
    (memberManifests : list (string * Toml)) : Result (list (string * Toml)) :=
  match memberPaths with
  | [] => Ok memberManifests
  | memberPath :: rest =>
      let manifestPath := memberPath +:+ "/pyproject.toml" in
      match getContent env manifestPath with
      | None => Throw (notFound memberPath manifestPath)
      | Some manifestContent =>
          manifest ← TOML.parse manifestContent;
          parsePaths env rest (mapSet memberPath manifest memberManifests)
      end
  end.

Fixpoint parseMemberManifests (env : Env) (members : list string)
    (memberManifests : list (string * Toml)) : Result (list (string * Toml)) :=
  match members with
  | [] => Ok memberManifests
  | member :: rest =>
      memberPaths ← expandWorkspaceMember env member;
      memberManifests' ← parsePaths env memberPaths memberManifests;
      parseMemberManifests env rest memberManifests'
  end.

(** [getManifest]. *)
Definition getManifest (env : Env) (path : string) : Result (option Toml) :=
  match getContent env path with
  | Some content => manifest ← TOML.parse content; Ok (Some manifest)
  | None => Ok None
  end.

(** The updaters that [buildUpdates] constructs, with their arguments. *)
Inductive Updater : Type :=
| Changelog (version : Version)
| UvWorkspaceToml (version : Version) (versionsMap : VersionsMap)
| PyProjectToml (version : Version)
| UvLock (versionsMap : VersionsMap).

Record Update : Type := mkUpdate {
  path : string;
  createIfMissing : bool;
  updater : Updater
}.

(** [manifest.project?.name], when it is a name: a non-empty string. *)
Definition projectName (manifest : Toml) : option string :=
  match TOML.prop "name" (TOML.prop "project" (Some manifest)) with
  | Some (TString name) => if decide (name = "") then None else Some name
  | _ => None
  end.

Fixpoint charStrings (s : string) : list string :=
  match s with
  | EmptyString => []
  | String a rest => String a "" :: charStrings rest
  end.

Fixpoint memberStrings (items : list Toml) : Result (list string) :=
  match items with
  | [] => Ok []
  | TString s :: rest => l ← memberStrings rest; Ok (s :: l)
  | _ :: _ => Throw (TypeError "pattern.includes is not a function")
  end.

(** [for (const member of members)]: the patterns of an array, or the
    characters of a string; nothing else can be iterated.  The interface
    declares [members] as an array of strings; an array with an entry of
    another type is outside what is modelled and is refused here as a whole,
    before the first member is read. *)
Definition iterate (members : Toml) : Result (list string) :=
  match members with
  | TArray items => memberStrings items
  | TString s => Ok (charStrings s)
  | _ => Throw (TypeError "members is not iterable")
  end.

(** The loop that collects all package names into the versions map. *)
Definition collectVersions (version : Version) (memberManifests : list (string * Toml))
    (versionsMap : VersionsMap) : VersionsMap :=
  foldl (λ versionsMap member,
           match projectName member.2 with
           | Some name => <[name := version]> versionsMap
           | None => versionsMap
           end)
        versionsMap memberManifests.

Definition memberUpdate (env : Env) (version : Version) (versionsMap : VersionsMap)
    (member : string * Toml) : Update :=
  mkUpdate (addPath env (member.1 +:+ "/pyproject.toml")) false
    (match TOML.whenTruthy (TOML.prop "dependency-groups" (Some member.2)) with
     | Some _ => UvWorkspaceToml version versionsMap
     | None => PyProjectToml version
     end).

Definition buildUpdates (env : Env) (newVersion : Version) : Result (list Update) :=
  let version := newVersion in
  let updates :=
    if skipChangelog env then []
    else [mkUpdate (addPath env (changelogPath env)) true (Changelog version)] in
  workspaceManifest ← getManifest env "pyproject.toml";
  let workspace :=
    TOML.prop "workspace" (TOML.prop "uv" (TOML.prop "tool" workspaceManifest)) in
  match TOML.whenTruthy (TOML.prop "members" workspace), workspaceManifest with
  | Some members, Some root =>
      let versionsMap : VersionsMap :=
        match projectName root with
        | Some name => {[ name := version ]}
        | None => ∅
        end in
      patterns ← iterate members;
      memberManifests ← parseMemberManifests env patterns [];
      let versionsMap := collectVersions version memberManifests versionsMap in
      Ok (updates
          ++ [mkUpdate (addPath env "pyproject.toml") false
                (UvWorkspaceToml version versionsMap)]
          ++ (memberUpdate env version versionsMap <$> memberManifests)
          ++ [mkUpdate (addPath env "uv.lock") false (UvLock versionsMap)])
  | _, _ =>
      Throw (Error "No UV workspace configuration found in pyproject.toml. Expected [tool.uv.workspace] with members array.")
  end.

End Strategy.

(** ** The earlier version of the strategy

    The sources hold a second, earlier text of the strategy; it differs in
    how missing manifests and failed expansions are treated. *)

Module LegacyStrategy.

Record Env : Type := mkEnv {
  getFileContentsOnBranch : string → Result (option Content);
  findFilesByFilenameAndRef : string → Result (list string);
  addPath : string → string
}.

Inductive Note : Type :=
| WarnNoManifest (memberPath : string)
| WarnExpansionFailed (pattern : string).

Definition getContent (env : Env) (path : string) : option Content :=
  match getFileContentsOnBranch env (addPath env path) with
  | Ok contents => contents
  | Throw _ => None
  end.

(** [pattern.split('*')[0]]. *)
Definition basePath (pattern : string) : string :=
  (Js.span (λ a, negb (bool_decide (a = "*"%char))) pattern).1.

Definition expandWorkspaceMember (env : Env) (pattern : string) : list string * list Note :=
  if negb (Js.includes "*" pattern) then ([pattern], [])
  else
    match findFilesByFilenameAndRef env (basePath pattern) with
    | Ok files =>
        (List.filter (Js.startsWith (basePath pattern))
           (Strategy.removeFirst "/pyproject.toml" <$> files), [])
    | Throw _ => ([], [WarnExpansionFailed pattern])
    end.

Fixpoint parsePaths (env : Env) (memberPaths : list string)
    (state : list (string * Toml) * list Note) : Result (list (string * Toml) * list Note) :=
  match memberPaths with
  | [] => Ok state
  | memberPath :: rest =>
      match getContent env (memberPath +:+ "/pyproject.toml") with
      | None => parsePaths env rest (state.1, state.2 ++ [WarnNoManifest memberPath])
      | Some manifestContent =>
          manifest ← TOML.parse manifestContent;
          parsePaths env rest (Strategy.mapSet memberPath manifest state.1, state.2)
      end
  end.

Fixpoint parseMemberManifests (env : Env) (members : list string)
    (state : list (string * Toml) * list Note) : Result (list (string * Toml) * list Note) :=
  match members with
  | [] => Ok state
  | member :: rest =>
      let '(memberPaths, notes) := expandWorkspaceMember env member in
      state' ← parsePaths env memberPaths (state.1, state.2 ++ notes);
      parseMemberManifests env rest state'
  end.

End LegacyStrategy.

(** ** The dependency notes of the workspace plugin
    ([getChangelogDepsNotes] and [compareDepLists]) *)

Module DepsNotes.

(** The line break of the template strings. *)
Definition newline : string := String "010"%char "".

(** The note pushed for an updated dependency: a line break, four spaces,
    and [* name bumped to version]. *)
Definition note (packageName : string) (newVersion : Version) : string :=
  newline +:+ "    * " +:+ packageName +:+ " bumped to " +:+ toString newVersion.

(** [originalDeps.find(dep => extractPackageName(dep) === packageName)]. *)
Definition findOriginal (originalDeps : list string) (packageName : string) : option string :=
  List.find (λ dep, bool_decide (Plugin.extractPackageName dep = packageName)) originalDeps.

(** The body of the loop over the updated dependencies. *)
Definition compare (originalDeps : list string) (updatedVersions : VersionsMap)
    (depUpdates : list string) (updatedDep : string) : list string :=
  let packageName := Plugin.extractPackageName updatedDep in
  match updatedVersions !! packageName with
  | Some newVersion =>
      match findOriginal originalDeps packageName with
      | Some originalDep =>
          if negb (bool_decide (originalDep = ""))
             && negb (bool_decide (originalDep = updatedDep))
          then depUpdates ++ [note packageName newVersion]
          else depUpdates
      | None => depUpdates
      end
  | None => depUpdates
  end.

(** [compareDepLists]: the notes pushed, in the order of the updated
    dependencies. *)
Definition compareDepLists (originalDeps updatedDeps : list string)
    (updatedVersions : VersionsMap) : list string :=
  foldl (compare originalDeps updatedVersions) [] updatedDeps.

(** [Set.prototype.add] on a set kept in insertion order. *)
Definition setAdd (x : string) (s : list string) : list string :=
  if decide (x ∈ s) then s else s ++ [x].

(** [Map.prototype.get] and [set] on a map kept in insertion order. *)
Definition mapGet (key : string) (m : list (string * list string)) : option (list string) :=
  snd <$> List.find (λ kv, bool_decide (kv.1 = key)) m.

Fixpoint mapSet (key : string) (v : list string) (m : list (string * list string))
    : list (string * list string) :=
  match m with
  | [] => [(key, v)]
  | (k, v') :: rest => if decide (k = key) then (k, v) :: rest else (k, v') :: mapSet key v rest
  end.

(** The block that follows each comparison: when there are updates, they
    are added to the set kept for the section. *)
Definition record (key : string) (depUpdates : list string)
    (updates : list (string * list string)) : list (string * list string) :=
  match depUpdates with
  | [] => updates
  | _ :: _ =>
      let currentUpdates := default [] (mapGet key updates) in
      mapSet key (foldl (λ s update, setAdd update s) currentUpdates depUpdates) updates
  end.

(** [original[group] || []]. *)
Definition groupDeps (group : string) (section : list (string * list string)) : list string :=
  default [] (mapGet group section).

(** The loop over the groups of a section of the updated manifest (an
    object has each key once, and [updated[group]] is the value listed with
    it). *)
Definition compareGroups (prefix : string) (original updated : list (string * list string))
    (updatedVersions : VersionsMap) (updates : list (string * list string))
    : list (string * list string) :=
  foldl (λ updates entry,
           record (prefix +:+ entry.1)
             (compareDepLists (groupDeps entry.1 original) entry.2 updatedVersions) updates)
        updates updated.

(** The final loop: a line per section, followed by its notes. *)
Definition render (updates : list (string * list string)) : string :=
  foldl (λ depUpdateNotes entry,
           foldl (λ s note, s +:+ note) (depUpdateNotes +:+ newline +:+ "  * " +:+ entry.1)
             entry.2)
        "" updates.

(** The three comparisons of [getChangelogDepsNotes], each made when both
    manifests have the section: the map from section to notes that they
    fill. *)
Definition collect (originalManifest updatedManifest : Plugin.Manifest)
    (updatedVersions : VersionsMap) : list (string * list string) :=
  let updates :=
    match Plugin.dependencies originalManifest, Plugin.dependencies updatedManifest with
    | Some original, Some updated =>
        record "dependencies" (compareDepLists original updated updatedVersions) []
    | _, _ => []
    end in
  let updates :=
    match Plugin.optionalDependencies originalManifest,
          Plugin.optionalDependencies updatedManifest with
    | Some original, Some updated =>
        compareGroups "optional-dependencies." original updated updatedVersions updates
    | _, _ => updates
    end in
  match Plugin.dependencyGroups originalManifest, Plugin.dependencyGroups updatedManifest with
  | Some original, Some updated =>
      compareGroups "dependency-groups." original updated updatedVersions updates
  | _, _ => updates
  end.

Definition heading : string := "* The following workspace dependencies were updated".

(** [getChangelogDepsNotes]: the heading and the rendered notes, or the
    empty string when there are none. *)
Definition getChangelogDepsNotes (originalManifest updatedManifest : Plugin.Manifest)
    (updatedVersions : VersionsMap) : string :=
  let depUpdateNotes := render (collect originalManifest updatedManifest updatedVersions) in
  if decide (depUpdateNotes = "") then "" else heading +:+ depUpdateNotes.

End DepsNotes.

(** The manifests on which the notes are compared. *)
Module NotesSpec.

(** Within a list, no two specifiers name the same package. *)
Definition distinctNames (deps : list string) : Prop :=
  NoDup (Plugin.extractPackageName <$> deps).

Definition distinctGroups (section : list (string * list string)) : Prop :=
  NoDup section.*1 ∧ Forall (λ entry, distinctNames entry.2) section.

(** Every dependency list of the manifest names each package once, and each
    group is listed once. *)
Definition distinct (m : Plugin.Manifest) : Prop :=
  (∀ deps, Plugin.dependencies m = Some deps → distinctNames deps)
  ∧ (∀ section, Plugin.optionalDependencies m = Some section → distinctGroups section)
  ∧ (∀ section, Plugin.dependencyGroups m = Some section → distinctGroups section).

End NotesSpec.

(** ** Candidate pull requests of the workspace plugin
    ([updateCandidate] and [postProcessCandidates]) *)

Module Candidates.

(** The updaters that the plugin tells apart, and any other one. *)
Inductive Updater : Type :=
| RawContent (content : Content)
| Changelog (version : Version) (changelogEntry : string)
| UvLock (versionsMap : VersionsMap)
| OtherUpdater (className : string).

Record Update : Type := mkUpdate {
  path : string;
  createIfMissing : bool;
  updater : Updater
}.

Record ReleaseData : Type := mkReleaseData {
  component : option string;
  version : option Version;
  notes : string
}.

(** A candidate release pull request: its path, the release type of its
    configuration, and of its pull request the updates, the release data of
    the body and the version. *)
Record Candidate : Type := mkCandidate {
  candidatePath : string;
  releaseType : string;
  updates : list Update;
  releaseData : list ReleaseData;
  pullRequestVersion : option Version
}.

(** What [updateCandidate] takes from modules that are not among the sources
    verified here: the [PyProjectToml] updater and
    [appendDependenciesSectionToChangelog]. *)
Record Env : Type := mkEnv {
  plugin : Plugin.Env;
  pyProjectToml : Version → Content → Result Content;
  appendDependenciesSectionToChangelog : string → string → string
}.

Inductive Note : Type :=
| WarnNoRootCandidate
| WarnNoPythonCandidate.

Definition isRoot (env : Env) (c : Candidate) : bool :=
  bool_decide (candidatePath c = Plugin.ROOT_PROJECT_PATH (plugin env)).

Definition isPython (c : Candidate) : bool :=
  bool_decide (releaseType c = "python").

(** [candidates.find(...)] returns the element itself, so that what is
    pushed onto it is seen in the array: the first match is changed in
    place. *)
Fixpoint mutateFirst (p : Candidate → bool) (f : Candidate → Candidate)
    (candidates : list Candidate) : list Candidate :=
  match candidates with
  | [] => []
  | c :: rest => if p c then f c :: rest else c :: mutateFirst p f rest
  end.

(** [rootCandidate.pullRequest.updates.push(...)]: the update of the root
    [uv.lock]. *)
Definition pushLock (updatedVersions : VersionsMap) (c : Candidate) : Candidate :=
  mkCandidate (candidatePath c) (releaseType c)
    (updates c ++ [mkUpdate "uv.lock" false (UvLock updatedVersions)])
    (releaseData c) (pullRequestVersion c).

Definition postProcessCandidates (env : Env) (candidates : list Candidate)
    (updatedVersions : VersionsMap) : list Candidate * list Note :=
  match List.find (isRoot env) candidates with
  | Some _ => (mutateFirst (isRoot env) (pushLock updatedVersions) candidates, [])
  | None =>
      match List.find isPython candidates with
      | Some _ =>
          (mutateFirst isPython (pushLock updatedVersions) candidates, [WarnNoRootCandidate])
      | None => (candidates, [WarnNoRootCandidate; WarnNoPythonCandidate])
      end
  end.

Definition noVersion (packageName : string) : Exn :=
  Error ("Didn't find updated version for " +:+ packageName).

(** The callback of [updates.map] in [updateCandidate]. *)
Definition replaceUpdater (env : Env) (existingCandidate : Candidate)
    (updatedContent : Content) (dependencyNotes : string) (updatedVersions : VersionsMap)
    (update : Update) : Update :=
  let lockOrSame :=
    if decide (path update
               = Plugin.addPath (plugin env) (candidatePath existingCandidate) "uv.lock")
    then mkUpdate (path update) (createIfMissing update) (UvLock updatedVersions)
    else update in
  if decide (path update
             = Plugin.addPath (plugin env) (candidatePath existingCandidate) "pyproject.toml")
  then mkUpdate (path update) (createIfMissing update) (RawContent updatedContent)
  else
    match updater update with
    | Changelog v changelogEntry =>
        if decide (dependencyNotes = "") then lockOrSame
        else mkUpdate (path update) (createIfMissing update)
               (Changelog v
                  (appendDependenciesSectionToChangelog env changelogEntry dependencyNotes))
    | _ => lockOrSame
    end.

(** The notes appended to the release data of the body. *)
Definition appendNotes (env : Env) (existingCandidate : Candidate)
    (pkg : Plugin.UvPackageInfo) (dependencyNotes : string) : list ReleaseData :=
  if decide (dependencyNotes = "") then releaseData existingCandidate
  else
    match releaseData existingCandidate with
    | first :: rest =>
        mkReleaseData (component first) (version first)
          (appendDependenciesSectionToChangelog env (notes first) dependencyNotes) :: rest
    | [] =>
        [mkReleaseData (Some (Plugin.name pkg)) (pullRequestVersion existingCandidate)
           (appendDependenciesSectionToChangelog env "" dependencyNotes)]
    end.

(** [updateCandidate]: the candidate as it is after its updates and its
    release data have been changed in place. *)
Definition updateCandidate (env : Env) (existingCandidate : Candidate)
    (pkg : Plugin.UvPackageInfo) (updatedVersions : VersionsMap) : Result Candidate :=
  match updatedVersions !! Plugin.name pkg with
  | None => Throw (noVersion (Plugin.name pkg))
  | Some version =>
      updatedContent ← pyProjectToml env version (Plugin.manifestContent pkg);
      originalManifest ← Plugin.parsePyProject (plugin env) (Plugin.manifestContent pkg);
      updatedManifest ← Plugin.parsePyProject (plugin env) updatedContent;
      let dependencyNotes :=
        DepsNotes.getChangelogDepsNotes originalManifest updatedManifest updatedVersions in
      Ok (mkCandidate (candidatePath existingCandidate) (releaseType existingCandidate)
            (replaceUpdater env existingCandidate updatedContent dependencyNotes
               updatedVersions <$> updates existingCandidate)
            (appendNotes env existingCandidate pkg dependencyNotes)
            (pullRequestVersion existingCandidate))
  end.

End Candidates.

(** ** What the loops of the plugin and of the strategy keep *)

(** What [buildAllPackages] promises of its result. *)
Module PackageSpec.

(** A package as [buildAllPackages] lists it: name and version are the
    non-empty strings its manifest declares, and the manifest is the one
    read at the package's path. *)
Definition listed (env : Plugin.Env) (candidates : list Plugin.Candidate)
    (p : Plugin.UvPackageInfo) : Prop :=
  Plugin.name p ≠ "" ∧ Plugin.version p ≠ ""
  ∧ Plugin.manifestPath p = Plugin.addPath env (Plugin.path p) "pyproject.toml"
  ∧ Plugin.loadManifest env candidates (Plugin.path p)
    = Ok (Plugin.manifestContent p, Plugin.manifest p)
  ∧ Plugin.declaredName (Plugin.manifest p) = Some (Plugin.name p)
  ∧ Plugin.declaredVersion (Plugin.manifest p) = Some (TString (Plugin.version p)).

(** The candidates recorded by package name: each is one of the candidates
    given, recorded under the name of a listed package at its path. *)
Definition recorded (candidates : list Plugin.Candidate) (r : Plugin.Packages) : Prop :=
  NoDup (Plugin.candidatesByPackage r).*1
  ∧ ∀ n c, (n, c) ∈ Plugin.candidatesByPackage r →
      c ∈ candidates
      ∧ ∃ p, p ∈ Plugin.allPackages r ∧ Plugin.name p = n
             ∧ Plugin.path p = Plugin.candidatePath c.

End PackageSpec.

(** What [parseMemberManifests] promises of the map it fills. *)
Module MemberSpec.

(** What the strategy keeps of its member manifests: one entry per path,
    holding the parse of the content fetched at that path. *)
Definition read (env : Strategy.Env) (manifests : list (string * Toml)) : Prop :=
  NoDup manifests.*1
  ∧ ∀ path manifest, (path, manifest) ∈ manifests →
      ∃ content,
        Strategy.getContent env (path +:+ "/pyproject.toml") = Some content
        ∧ TOML.parse content = Ok manifest.

End MemberSpec.

(** What [buildUpdates] promises of the updaters it constructs. *)
Module UpdateSpec.

(** The version an updater writes, and the versions map it carries. *)
Definition releases (version : Version) (u : Strategy.Update) : Prop :=
  match Strategy.updater u with
  | Strategy.Changelog v | Strategy.PyProjectToml v => v = version
  | Strategy.UvWorkspaceToml v versionsMap =>
      v = version ∧ ∀ name x, versionsMap !! name = Some x → x = version
  | Strategy.UvLock versionsMap => ∀ name x, versionsMap !! name = Some x → x = version
  end.

End UpdateSpec.

(** ** Sample workspaces *)

Module Sample.

Definition entryFields (name version : string) : gmap string Toml :=
  {[ "name" := TString name; "version" := TString version ]}.

Definition lockEntry (name version : string) : Toml :=
  TTable (entryFields name version).

(** A lock document listing [core], [cli] and [util] at 1.0.0. *)
Definition lockPackages : list Toml :=
  [lockEntry "core" "1.0.0"; lockEntry "cli" "1.0.0"; lockEntry "util" "1.0.0"].

Definition lockFields : gmap string Toml :=
  {[ "version" := TInteger 1; "package" := TArray lockPackages ]}.

Definition coreBumped : VersionsMap := {[ "core" := release 1 1 0 ]}.

(** A lock document outside the declared interface: the version of [core]
    is a table with a key [toString]. *)
Definition lockUnprintable : gmap string Toml :=
  {[ "package" :=
       TArray [TTable {[ "name" := TString "core";
                         "version" := TTable {[ "toString" := TInteger 1 ]} ]}] ]}.

Definition asString (t : option Toml) : option string :=
  match t with
  | Some (TString s) => Some s
  | _ => None
  end.

Definition asStrings (t : option Toml) : option (list string) :=
  match t with
  | Some (TArray items) => Some (omap (λ item, asString (Some item)) items)
  | _ => None
  end.

(** A reading of member manifests for the samples: the fields of
    [project] and [tool.poetry] that the plugin looks at. *)
Definition readManifest (content : Content) : Result Plugin.Manifest :=
  match content with
  | Malformed raw => Throw (TomlParseError raw)
  | Document fields =>
      let project := TOML.prop "project" (Some (TTable fields)) in
      let poetry := TOML.prop "poetry" (TOML.prop "tool" (Some (TTable fields))) in
      Ok (Plugin.mkManifest
            (asString (TOML.prop "name" project)) (asString (TOML.prop "name" poetry))
            (TOML.prop "version" project) (TOML.prop "version" poetry)
            (asStrings (TOML.prop "dependencies" project)) None None)
  end.

Definition project (name : string) (version : Toml) (dependencies : list string) : Content :=
  Document {[ "project" := TTable {[ "name" := TString name; "version" := version;
                                      "dependencies" := TArray (TString <$> dependencies) ]} ]}.

Definition workspaceRoot (members : list string) : Content :=
  Document {[ "project" := TTable {[ "name" := TString "root"; "version" := TString "1.0.0" ]};
              "tool" := TTable {[ "uv" := TTable {[ "workspace" :=
                          TTable {[ "members" := TArray (TString <$> members) ]} ]} ]} ]}.

Definition pluginEnv (files : gmap string Content) : Plugin.Env :=
  Plugin.mkEnv
    (λ path, match files !! path with
             | Some content => Ok content
             | None => Throw (TransportError path)
             end)
    (λ pattern, Ok (if decide (pattern = "packages/*") then ["packages/a"; "packages/b"]
                    else []))
    readManifest
    (λ text, Throw (Error text))
    (λ path file, if decide (path = ".") then file else path +:+ "/" +:+ file)
    ".".

Definition package (name : string) (manifest : Plugin.Manifest) : Plugin.UvPackageInfo :=
  Plugin.mkPackage ("packages/" +:+ name) name "1.0.0"
    ("packages/" +:+ name +:+ "/pyproject.toml") (Malformed "") manifest.

(** Package [a] names itself (with an extra) and names [b] twice, in two
    sections; [requests] and [pytest] are not workspace packages. *)
Definition packageA : Plugin.UvPackageInfo :=
  package "a"
    (Plugin.mkManifest (Some "a") None (Some (TString "1.0.0")) None
       (Some ["a[extra]"; "b>=1.0"; "requests"]) None
       (Some [("dev", ["b==1.0"; "pytest"])])).

Definition packageB : Plugin.UvPackageInfo :=
  package "b" (Plugin.mkManifest (Some "b") None (Some (TString "1.0.0")) None None None None).



(** Two members that declare the same name. *)
Definition sameName : Plugin.Env :=
  pluginEnv {[ "pyproject.toml" := workspaceRoot ["packages/*"];
               "packages/a/pyproject.toml" := project "shared" (TString "1.0.0") [];
               "packages/b/pyproject.toml" := project "shared" (TString "2.0.0") [] ]}.

(** A member whose version is a number. *)
Definition numericVersion : Plugin.Env :=
  pluginEnv {[ "pyproject.toml" := workspaceRoot ["packages/*"];
               "packages/a/pyproject.toml" := project "a" (TString "1.0.0") [];
               "packages/b/pyproject.toml" := project "b" (TInteger 2) [] ]}.

(** The manifest of [cli], which depends on [core] in its dependencies and
    in a dependency group. *)
Definition cliFields : gmap string Toml :=
  {[ "project" := TTable {[ "name" := TString "cli"; "version" := TString "1.0.0";
                             "dependencies" :=
                               TArray (TString <$> ["core>=1.0.0"; "requests"]) ]};
     "dependency-groups" :=
       TTable {[ "dev" := TArray (TString <$> ["core[x]~=1.0"; "pytest"]) ]} ]}.

(** That manifest after the release of [core] 1.1.0 and [cli] 1.0.1. *)
Definition cliUpdated : gmap string Toml :=
  {[ "project" := TTable {[ "name" := TString "cli"; "version" := TString "1.0.1";
                             "dependencies" :=
                               TArray (TString <$> ["core>=1.1.0"; "requests"]) ]};
     "dependency-groups" :=
       TTable {[ "dev" := TArray (TString <$> ["core~1.1.0"; "pytest"]) ]} ]}.

(** A manifest outside the declared interface: the dependency groups are an
    array of lists. *)
Definition groupsArray : gmap string Toml :=
  {[ "project" := TTable {[ "name" := TString "cli"; "version" := TInteger 0 ]};
     "dependency-groups" := TArray [TArray (TString <$> ["core"; "pytest"])] ]}.

Definition strategyEnv (fetch : string → Result (option Content)) : Strategy.Env :=
  Strategy.mkEnv fetch (λ _, Ok []) (λ path, path) false "CHANGELOG.md".

(** A workspace of two members, neither of which depends on the other. *)
Definition independentMembers : Strategy.Env :=
  strategyEnv (λ path,
    Ok (({[ "pyproject.toml" := workspaceRoot ["packages/core"; "packages/util"];
            "packages/core/pyproject.toml" := project "core" (TString "1.0.0") [];
            "packages/util/pyproject.toml" := project "util" (TString "1.0.0") [] ]}
         : gmap string Content) !! path)).


Definition legacyMissing : LegacyStrategy.Env :=
  LegacyStrategy.mkEnv (λ _, Ok None) (λ _, Ok []) (λ path, path).

(** The manifest of the member is reported missing. *)
Definition reportedMissing : Strategy.Env :=
  strategyEnv (λ _, Ok None).

(** The fetch of the manifest fails. *)
Definition transportFailure : Strategy.Env :=
  strategyEnv (λ _, Throw (TransportError "connection reset")).

(** A candidate for the member at [packages/a], with no cached content. *)
Definition candidateA : Plugin.Candidate := Plugin.mkCandidate "packages/a" [].

(** A repository in which the pattern [packages/*] matches the manifests of
    two members. *)
Definition globMembers : Strategy.Env :=
  Strategy.mkEnv (λ _, Ok None)
    (λ pattern, Ok (if decide (pattern = "packages/*/pyproject.toml")
                    then ["packages/a/pyproject.toml"; "packages/b/pyproject.toml"]
                    else []))
    (λ path, path) false "CHANGELOG.md".

(** The manifest of [cli] as the plugin reads it, with its dependencies and
    the dependencies of its group [dev]. *)
Definition cliManifest (dependencies dev : list string) : Plugin.Manifest :=
  Plugin.mkManifest (Some "cli") None (Some (TString "1.0.0")) None (Some dependencies) None
    (Some [("dev", dev)]).

(** Collaborators for the samples: a manifest updater that changes nothing
    the samples look at, and notes appended as they are. *)
Definition candidatesEnv : Candidates.Env :=
  Candidates.mkEnv (pluginEnv ∅) (λ _ content, Ok content)
    (λ changelog notes, changelog +:+ notes).

(** The package [cli] and a candidate for it, with an update of its
    manifest and one of its changelog. *)
Definition cliPackage : Plugin.UvPackageInfo :=
  Plugin.mkPackage "packages/cli" "cli" "1.0.0" "packages/cli/pyproject.toml"
    (project "cli" (TString "1.0.0") ["core>=1.0.0"])
    (Plugin.mkManifest (Some "cli") None (Some (TString "1.0.0")) None
       (Some ["core>=1.0.0"]) None None).

Definition cliCandidate : Candidates.Candidate :=
  Candidates.mkCandidate "packages/cli" "python"
    [Candidates.mkUpdate "packages/cli/pyproject.toml" false
       (Candidates.OtherUpdater "PyProjectToml");
     Candidates.mkUpdate "packages/cli/CHANGELOG.md" true
       (Candidates.Changelog (release 1 0 1) "### Bug Fixes")]
    [] (Some (release 1 0 1)).

End Sample.

(** * Properties *)

(** ** Rewriting one dependency specifier *)

Example updateDependencyString_lower_bound :
  UvWorkspaceToml.updateDependencyString (Some {[ "core" := release 1 1 0 ]}) "core>=1.0.0"
  = "core>=1.1.0".
Proof. vm_compute. reflexivity. Qed.

Example updateDependencyString_compatible_release :
  UvWorkspaceToml.updateDependencyString (Some {[ "core" := release 1 1 0 ]}) "core[cli] ~= 1.0"
  = "core~1.1.0".
Proof. vm_compute. reflexivity. Qed.

Example updateDependencyString_bare :
  UvWorkspaceToml.updateDependencyString (Some {[ "core" := release 1 1 0 ]}) "core"
  = "core==1.1.0".
Proof. vm_compute. reflexivity. Qed.

Example updateDependencyString_upper_bound :
  UvWorkspaceToml.updateDependencyString (Some {[ "core" := release 1 1 0 ]}) "core<2"
  = "core==1.1.0".
Proof. vm_compute. reflexivity. Qed.

Example updateDependencyString_external :
  UvWorkspaceToml.updateDependencyString (Some {[ "core" := release 1 1 0 ]}) "requests>=2.0"
  = "requests>=2.0".
Proof. vm_compute. reflexivity. Qed.






Lemma includes_every p a needle s :
  Js.every p s → p a = false → Js.includes (String a needle) s = false.
Proof.
  intros Hs Ha. induction s as [|b s IH]; simpl in *; [done|].
  apply andb_prop_elim in Hs as [Hb Hs].
  rewrite (IH Hs). case_decide; [subst; rewrite Ha in Hb; done | done].
Qed.





(** ** Paths into arrays *)

Lemma find_index (i a len : nat) :
  a ≤ i < a + len →
  List.find (λ j, bool_decide (TOML.indexKey j = TOML.indexKey i)) (seq a len) = Some i.
Proof.
  revert a. induction len as [|len IH]; intros a Hi; [lia|].
  simpl. case_bool_decide as Heq.
  - apply (inj pretty) in Heq. by subst.
  - apply IH. destruct (decide (a = i)); [by subst | lia].
Qed.

Lemma arrayIndex_indexKey (i len : nat) :
  i < len → TOML.arrayIndex (TOML.indexKey i) len = Some i.
Proof. intros Hi. unfold TOML.arrayIndex. apply find_index. lia. Qed.

Lemma replaceAt_table key rest newValue fields :
  TOML.replaceAt (key :: rest) newValue (TTable fields)
  = (v ← fields !! key;
     v' ← TOML.replaceAt rest newValue v;
     Some (TTable (<[key := v']> fields))).
Proof. reflexivity. Qed.

Lemma replaceAt_array key rest newValue items :
  TOML.replaceAt (key :: rest) newValue (TArray items)
  = (i ← TOML.arrayIndex key (length items);
     item ← items !! i;
     item' ← TOML.replaceAt rest newValue item;
     Some (TArray (<[i := item']> items))).
Proof. reflexivity. Qed.

Lemma replaceAt_array_index i rest newValue items item :
  items !! i = Some item →
  TOML.replaceAt (TOML.indexKey i :: rest) newValue (TArray items)
  = (item' ← TOML.replaceAt rest newValue item;
     Some (TArray (<[i := item']> items))).
Proof.
  intros Hi. rewrite replaceAt_array.
  rewrite arrayIndex_indexKey by (by eapply lookup_lt_Some).
  cbn [mbind option_bind]. by rewrite Hi.
Qed.

Lemma insert_middle {A} (l1 l2 : list A) (x y : A) :
  <[length l1 := x]> (l1 ++ y :: l2) = l1 ++ x :: l2.
Proof. rewrite <-(Nat.add_0_r (length l1)). by rewrite insert_app_r. Qed.

(** ** The lock file updater *)

Lemma replace_package_version fields items i pkg newVersion :
  fields !! "package" = Some (TArray items) →
  items !! i = Some pkg →
  TOML.replaceTomlValue (Document fields) ["package"; TOML.indexKey i; "version"] newVersion
  = match LockSpec.setVersion newVersion pkg with
    | Some pkg' => Ok (Document (<["package" := TArray (<[i := pkg']> items)]> fields))
    | None => Throw (PathError ["package"; TOML.indexKey i; "version"])
    end.
Proof.
  intros Hpackage Hi. unfold TOML.replaceTomlValue, LockSpec.setVersion.
  rewrite replaceAt_table, Hpackage. cbn [mbind option_bind].
  rewrite (replaceAt_array_index _ _ _ _ _ Hi).
  by destruct (TOML.replaceAt ["version"] newVersion pkg).
Qed.

Lemma visit_throws versionsMap index pkg st e :
  UvLock.visit versionsMap index pkg st = Throw e → e = UvLock.notPrimitive.
Proof.
  unfold UvLock.visit.
  destruct (UvLock.lookupVersion versionsMap pkg) as [newVersion|]; [|done].
  destruct (TOML.template _) as [old|]; [|by intros [= <-]].
  by destruct (TOML.replaceTomlValue _ _ _).
Qed.

Lemma visit_unprintable versionsMap index pkg st :
  ¬ LockSpec.printable versionsMap pkg →
  UvLock.visit versionsMap index pkg st = Throw UvLock.notPrimitive.
Proof.
  unfold LockSpec.printable, LockSpec.oldVersion, UvLock.visit. intros Hpkg.
  destruct (UvLock.lookupVersion versionsMap pkg) as [newVersion|].
  - destruct (TOML.template _) as [old|]; [|done]. destruct Hpkg. eauto.
  - destruct Hpkg. by intros [? ?].
Qed.

Lemma forEachPackage_unprintable versionsMap rest :
  Exists (λ pkg, ¬ LockSpec.printable versionsMap pkg) rest →
  ∀ index st, UvLock.forEachPackage versionsMap index rest st = Throw UvLock.notPrimitive.
Proof.
  induction 1 as [pkg rest Hpkg|pkg rest _ IH]; intros index st;
    cbn [UvLock.forEachPackage].
  - by rewrite (visit_unprintable _ _ _ _ Hpkg).
  - destruct (UvLock.visit versionsMap index pkg st) as [st'|e] eqn:Hvisit.
    + apply IH.
    + by apply visit_throws in Hvisit as ->.
Qed.

Lemma forEachPackage_spec versionsMap fields rest :
  Forall (LockSpec.printable versionsMap) rest →
  ∀ done changed log,
    UvLock.forEachPackage versionsMap (length done) rest
      (UvLock.mkLoopState
         (Document (<["package" := TArray (done ++ rest)]> fields)) changed log)
    = Ok (UvLock.mkLoopState
            (Document (<["package" :=
                         TArray (done ++ (LockSpec.updateEntry versionsMap <$> rest))]> fields))
            (changed || existsb (LockSpec.entryChanged versionsMap) rest)
            (log ++ concat (LockSpec.entryLog versionsMap <$> rest))).
Proof.
  induction 1 as [|pkg rest Hpkg _ IH]; intros done changed log.
  - simpl. by rewrite orb_false_r, !app_nil_r.
  - rewrite !fmap_cons. cbn [UvLock.forEachPackage existsb concat].
    assert (Hsplit : ∀ x, done ++ x :: rest = (done ++ [x]) ++ rest)
      by (intros x; by rewrite <-app_assoc).
    assert (Hlen : ∀ x, S (length done) = length (done ++ [x]))
      by (intros x; rewrite length_app; simpl; lia).
    unfold UvLock.visit. cbn [UvLock.processedContent UvLock.logged UvLock.modified].
    destruct (UvLock.lookupVersion versionsMap pkg) as [newVersion|] eqn:Hlookup.
    + assert (is_Some (LockSpec.oldVersion pkg)) as [old Hold]
        by (apply Hpkg; rewrite Hlookup; eauto).
      pose proof Hold as Hold'. unfold LockSpec.oldVersion in Hold'. rewrite Hold'.
      rewrite (replace_package_version _ (done ++ pkg :: rest) (length done) pkg);
        [| by rewrite lookup_insert_eq | by rewrite list_lookup_middle].
      destruct (LockSpec.setVersion (toString newVersion) pkg) as [pkg'|] eqn:Hset;
        cbn [mbind Result_bind].
      * assert (LockSpec.updateEntry versionsMap pkg = pkg') as ->
          by (unfold LockSpec.updateEntry; by rewrite Hlookup, Hset).
        assert (LockSpec.entryChanged versionsMap pkg = true) as Hchanged
          by (unfold LockSpec.entryChanged; rewrite Hlookup, Hset;
              by apply bool_decide_eq_true_2).
        assert (LockSpec.entryLog versionsMap pkg
                = [InfoUpdating (UvLock.pkgName pkg) old (toString newVersion)]) as ->
          by (unfold LockSpec.entryLog; by rewrite Hlookup, Hchanged, Hold).
        rewrite Hchanged, insert_insert_eq.
        rewrite insert_middle, (Hsplit pkg'), (Hlen pkg'), IH.
        rewrite orb_true_r, <-!app_assoc. done.
      * assert (LockSpec.updateEntry versionsMap pkg = pkg) as ->
          by (unfold LockSpec.updateEntry; by rewrite Hlookup, Hset).
        assert (LockSpec.entryChanged versionsMap pkg = false) as Hchanged
          by (unfold LockSpec.entryChanged; rewrite Hlookup, Hset;
              apply bool_decide_eq_false_2; by intros [? ?]).
        assert (LockSpec.entryLog versionsMap pkg
                = [InfoUpdating (UvLock.pkgName pkg) old (toString newVersion);
                   WarnFailedVersion (UvLock.pkgName pkg)]) as ->
          by (unfold LockSpec.entryLog; by rewrite Hlookup, Hchanged, Hold).
        rewrite Hchanged, (Hsplit pkg), (Hlen pkg), IH.
        rewrite orb_false_l, <-!app_assoc. done.
    + cbn [mbind Result_bind].
      assert (LockSpec.updateEntry versionsMap pkg = pkg) as ->
        by (unfold LockSpec.updateEntry; by rewrite Hlookup).
      assert (LockSpec.entryChanged versionsMap pkg = false) as ->
        by (unfold LockSpec.entryChanged; by rewrite Hlookup).
      assert (LockSpec.entryLog versionsMap pkg = []) as ->
        by (unfold LockSpec.entryLog; by rewrite Hlookup).
      rewrite (Hsplit pkg), (Hlen pkg), IH.
      rewrite orb_false_l, <-!app_assoc. done.
Qed.

Lemma updateContent_document versionsMap fields packages :
  fields !! "package" = Some (TArray packages) →
  Forall (LockSpec.printable versionsMap) packages →
  UvLock.updateContent versionsMap (Document fields)
  = Ok (Document (<["package" := TArray (LockSpec.updateEntry versionsMap <$> packages)]> fields),
        concat (LockSpec.entryLog versionsMap <$> packages)
        ++ if existsb (LockSpec.entryChanged versionsMap) packages then []
           else [WarnNoWorkspacePackages]).
Proof.
  intros Hpackage Hprintable. unfold UvLock.updateContent. cbn [TOML.parse TOML.prop].
  rewrite Hpackage.
  pose proof (forEachPackage_spec versionsMap fields packages Hprintable [] false []) as Hloop.
  cbn [length app] in Hloop. rewrite (insert_id _ _ _ Hpackage) in Hloop.
  rewrite Hloop.
  cbn [mbind Result_bind UvLock.processedContent UvLock.modified UvLock.logged orb app].
  destruct (existsb _ packages); by rewrite ?app_nil_r.
Qed.

Lemma updateContent_unprintable versionsMap fields packages :
  fields !! "package" = Some (TArray packages) →
  ¬ Forall (LockSpec.printable versionsMap) packages →
  UvLock.updateContent versionsMap (Document fields) = Throw UvLock.notPrimitive.
Proof.
  intros Hpackage Hbad. unfold UvLock.updateContent. cbn [TOML.parse TOML.prop].
  rewrite Hpackage. apply not_Forall_Exists in Hbad; [|apply _].
  by rewrite (forEachPackage_unprintable _ _ Hbad).
Qed.

(** The four ways a run of the lock updater can go. *)
Lemma updateContent_cases versionsMap content :
  (∃ raw, content = Malformed raw
          ∧ UvLock.updateContent versionsMap content = Ok (content, [WarnInvalidLock]))
  ∨ (∃ fields,
       content = Document fields
       ∧ (∀ packages, fields !! "package" ≠ Some (TArray packages))
       ∧ UvLock.updateContent versionsMap content = Ok (content, [WarnNoPackages]))
  ∨ (∃ fields packages,
       content = Document fields
       ∧ fields !! "package" = Some (TArray packages)
       ∧ Forall (LockSpec.printable versionsMap) packages
       ∧ UvLock.updateContent versionsMap content
         = Ok (Document (<["package" :=
                            TArray (LockSpec.updateEntry versionsMap <$> packages)]> fields),
               concat (LockSpec.entryLog versionsMap <$> packages)
               ++ if existsb (LockSpec.entryChanged versionsMap) packages then []
                  else [WarnNoWorkspacePackages]))
  ∨ (∃ fields packages,
       content = Document fields
       ∧ fields !! "package" = Some (TArray packages)
       ∧ ¬ Forall (LockSpec.printable versionsMap) packages
       ∧ UvLock.updateContent versionsMap content = Throw UvLock.notPrimitive).
Proof.
  destruct content as [raw|fields]; [left; eauto|]. right.
  destruct (fields !! "package") as [package|] eqn:Hpackage.
  - assert ((∃ packages, package = TArray packages)
            ∨ (∀ packages, package ≠ TArray packages)) as [[packages ->]|Hnot]
      by (destruct package; eauto; by right).
    + right. destruct (decide (Forall (LockSpec.printable versionsMap) packages)).
      * left. exists fields, packages. split; [done|]. split; [done|]. split; [done|].
        by apply updateContent_document.
      * right. exists fields, packages. split; [done|]. split; [done|]. split; [done|].
        by apply (updateContent_unprintable _ _ packages).
    + left. exists fields. split; [done|]. split.
      { intros packages Hp. rewrite Hpackage in Hp. injection Hp as ->.
        by destruct (Hnot packages). }
      unfold UvLock.updateContent. cbn [TOML.parse TOML.prop]. rewrite Hpackage.
      destruct package; try done. by destruct (Hnot items).
  - left. exists fields. split; [done|]. split; [intros packages; by rewrite Hpackage|].
    unfold UvLock.updateContent. cbn [TOML.parse TOML.prop]. by rewrite Hpackage.
Qed.

Lemma setVersion_entry newVersion entry version :
  entry !! "version" = Some (TString version) →
  LockSpec.setVersion newVersion (TTable entry)
  = Some (TTable (<["version" := TString newVersion]> entry)).
Proof.
  intros Hversion. unfold LockSpec.setVersion.
  rewrite replaceAt_table, Hversion. reflexivity.
Qed.

Lemma lookupVersion_entry versionsMap entry name :
  entry !! "name" = Some (TString name) →
  UvLock.lookupVersion versionsMap (TTable entry) = versionsMap !! name.
Proof. intros Hname. unfold UvLock.lookupVersion. cbn [TOML.prop]. by rewrite Hname. Qed.

Lemma entries_without_match versionsMap packages :
  Forall (λ pkg, UvLock.lookupVersion versionsMap pkg = None) packages →
  LockSpec.updateEntry versionsMap <$> packages = packages
  ∧ concat (LockSpec.entryLog versionsMap <$> packages) = []
  ∧ existsb (LockSpec.entryChanged versionsMap) packages = false.
Proof.
  induction 1 as [|pkg packages Hpkg _ (IHu & IHl & IHc)]; [done|].
  rewrite !fmap_cons. cbn [concat existsb].
  assert (LockSpec.updateEntry versionsMap pkg = pkg) as ->
    by (unfold LockSpec.updateEntry; by rewrite Hpkg).
  assert (LockSpec.entryChanged versionsMap pkg = false) as ->
    by (unfold LockSpec.entryChanged; by rewrite Hpkg).
  assert (LockSpec.entryLog versionsMap pkg = []) as ->
    by (unfold LockSpec.entryLog; by rewrite Hpkg).
  by rewrite IHu, IHl, IHc.
Qed.

Lemma entry_facts versionsMap pkg :
  LockSpec.isEntry pkg →
  LockSpec.entryChanged versionsMap pkg
  = bool_decide (is_Some (UvLock.lookupVersion versionsMap pkg))
  ∧ Forall (λ e, isWarning e = false) (LockSpec.entryLog versionsMap pkg).
Proof.
  intros (entry & name & version & -> & Hname & Hversion).
  unfold LockSpec.entryChanged, LockSpec.entryLog, LockSpec.entryChanged.
  destruct (UvLock.lookupVersion versionsMap (TTable entry)) as [newVersion|].
  - rewrite (setVersion_entry _ _ _ Hversion).
    rewrite !bool_decide_eq_true_2 by eauto. split; [done|]. by repeat constructor.
  - rewrite bool_decide_eq_false_2 by (by intros [? ?]). split; [done|]. constructor.
Qed.

(** The version of an entry of a lock document is a string, which is its
    own text. *)
Lemma entries_printable versionsMap packages :
  Forall LockSpec.isEntry packages → Forall (LockSpec.printable versionsMap) packages.
Proof.
  intros Hentries. eapply Forall_impl; [exact Hentries|].
  intros pkg (entry & name & version & -> & _ & Hversion) _.
  exists version. unfold LockSpec.oldVersion. cbn [TOML.prop]. by rewrite Hversion.
Qed.

Lemma entries_log_quiet versionsMap packages :
  Forall LockSpec.isEntry packages →
  Forall (λ e, isWarning e = false) (concat (LockSpec.entryLog versionsMap <$> packages)).
Proof.
  induction 1 as [|pkg packages Hpkg _ IH]; [constructor|].
  rewrite fmap_cons. cbn [concat]. apply Forall_app. split; [|done].
  by apply entry_facts.
Qed.

Lemma entries_with_match versionsMap packages i pkg :
  Forall LockSpec.isEntry packages →
  packages !! i = Some pkg →
  is_Some (UvLock.lookupVersion versionsMap pkg) →
  existsb (LockSpec.entryChanged versionsMap) packages = true.
Proof.
  intros Hentries Hi Hsome. apply existsb_exists. exists pkg. split.
  - apply list_elem_of_In. by eapply list_elem_of_lookup_2.
  - rewrite Forall_lookup in Hentries.
    destruct (entry_facts versionsMap pkg (Hentries _ _ Hi)) as [-> _].
    by apply bool_decide_eq_true_2.
Qed.

(** C3.  On a lock document whose [package] array lists entries with a name
    and a version, the update sets the version field of every entry whose
    name is a key of the versions map, and nothing else: the other entries
    and the other fields of the document are as before.  When no entry
    matches, the content comes back unchanged with the one warning that
    nothing was found; there is no error in either case. *)
Theorem UvLock_updateContent_entries
    (versionsMap : VersionsMap) (fields : gmap string Toml) (packages : list Toml) :
  fields !! "package" = Some (TArray packages) →
  Forall LockSpec.isEntry packages →
  ∃ packages' log,
    UvLock.updateContent versionsMap (Document fields)
    = Ok (Document (<["package" := TArray packages']> fields), log)
    ∧ length packages' = length packages
    ∧ (∀ i entry name,
         packages !! i = Some (TTable entry) →
         entry !! "name" = Some (TString name) →
         packages' !! i
         = Some (TTable match versionsMap !! name with
                        | Some newVersion =>
                            <["version" := TString (toString newVersion)]> entry
                        | None => entry
                        end))
    ∧ ((∀ i entry name,
          packages !! i = Some (TTable entry) →
          entry !! "name" = Some (TString name) →
          versionsMap !! name = None) →
       Document (<["package" := TArray packages']> fields) = Document fields
       ∧ log = [WarnNoWorkspacePackages])
    ∧ ((∃ i entry name,
          packages !! i = Some (TTable entry)
          ∧ entry !! "name" = Some (TString name)
          ∧ is_Some (versionsMap !! name)) →
       Forall (λ e, isWarning e = false) log).
Proof.
  intros Hpackage Hentries.
  eexists _, _. split; [by apply updateContent_document, entries_printable|].
  split; [by rewrite length_fmap|]. split; [|split].
  - intros i entry name Hi Hname. rewrite list_lookup_fmap, Hi. cbn. f_equal.
    unfold LockSpec.updateEntry. rewrite (lookupVersion_entry _ _ _ Hname).
    destruct (versionsMap !! name) as [newVersion|]; [|done].
    rewrite Forall_lookup in Hentries.
    destruct (Hentries _ _ Hi) as (entry' & _ & version & [= <-] & _ & Hversion).
    by rewrite (setVersion_entry _ _ _ Hversion).
  - intros Hnone.
    destruct (entries_without_match versionsMap packages) as (-> & -> & ->).
    + rewrite Forall_lookup. intros i pkg Hi.
      rewrite Forall_lookup in Hentries.
      destruct (Hentries _ _ Hi) as (entry & name & version & -> & Hname & _).
      rewrite (lookupVersion_entry _ _ _ Hname). by eapply Hnone.
    + by rewrite (insert_id _ _ _ Hpackage).
  - intros (i & entry & name & Hi & Hname & Hsome).
    rewrite (entries_with_match versionsMap packages i (TTable entry)); [| done..|].
    + rewrite app_nil_r. by apply entries_log_quiet.
    + by rewrite (lookupVersion_entry _ _ _ Hname).
Qed.

Lemma UvLock_updateContent_entries_witness :
  ∃ packages' log,
    UvLock.updateContent Sample.coreBumped (Document Sample.lockFields)
    = Ok (Document (<["package" := TArray packages']> Sample.lockFields), log)
    ∧ packages' !! 0 = Some (Sample.lockEntry "core" "1.1.0")
    ∧ packages' !! 1 = Some (Sample.lockEntry "cli" "1.0.0")
    ∧ Forall (λ e, isWarning e = false) log.
Proof.
  destruct (UvLock_updateContent_entries Sample.coreBumped Sample.lockFields
              Sample.lockPackages) as (packages' & log & Hrun & _ & Hentry & _ & Hquiet).
  - reflexivity.
  - repeat (constructor;
            [eexists _, _, _; split; [reflexivity | split; reflexivity] |]).
    constructor.
  - exists packages', log. split; [exact Hrun|]. split; [|split].
    + rewrite (Hentry 0 (Sample.entryFields "core" "1.0.0") "core" eq_refl eq_refl).
      vm_compute. reflexivity.
    + rewrite (Hentry 1 (Sample.entryFields "cli" "1.0.0") "cli" eq_refl eq_refl).
      vm_compute. reflexivity.
    + apply Hquiet. exists 0, (Sample.entryFields "core" "1.0.0"), "core".
      split; [reflexivity|].
      split; [reflexivity|]. vm_compute. eauto.
Defined.

(** The scenario of the specification, evaluated: only the entry of [core]
    changes, and nothing is logged but the update itself. *)
Example UvLock_updateContent_scenario :
  UvLock.updateContent Sample.coreBumped (Document Sample.lockFields)
  = Ok (Document {[ "version" := TInteger 1;
                    "package" := TArray [Sample.lockEntry "core" "1.1.0";
                                         Sample.lockEntry "cli" "1.0.0";
                                         Sample.lockEntry "util" "1.0.0"] ]},
        [InfoUpdating "core" "1.0.0" "1.1.0"]).
Proof. vm_compute. reflexivity. Qed.

(** An entry named in the versions map whose version is a table with a key
    [toString]: the info line cannot be written, and the [TypeError] raised
    for it, outside the [try] of the callback, leaves [updateContent]. *)
Lemma UvLock_updateContent_throws :
  UvLock.updateContent Sample.coreBumped (Document Sample.lockUnprintable)
  = Throw (TypeError "Cannot convert object to primitive value").
Proof. vm_compute. reflexivity. Qed.

(** C10 (amended).  [UvLock.updateContent] returns exactly when every
    entry of the [package] array whose name is a key of the versions map has
    a version with a text; the only exception it throws is the [TypeError]
    of an info line that cannot be written.  When it returns, text that is
    not TOML comes back as it is, with the warning that it cannot be parsed;
    a document without a [package] array comes back as it is, with the
    warning that no packages were found; and where the edit of one entry
    fails, that entry (and every field other than [package]) is in the
    result as it was in the input, with a warning for the entry. *)
Theorem UvLock_updateContent_returns (versionsMap : VersionsMap) (content : Content) :
  ((∀ fields packages,
      content = Document fields →
      fields !! "package" = Some (TArray packages) →
      Forall (LockSpec.printable versionsMap) packages)
   ↔ ∃ out log, UvLock.updateContent versionsMap content = Ok (out, log))
  ∧ (∀ e, UvLock.updateContent versionsMap content = Throw e → e = UvLock.notPrimitive)
  ∧ ∀ out log,
      UvLock.updateContent versionsMap content = Ok (out, log) →
      (∀ e, TOML.parse content = Throw e → out = content ∧ log = [WarnInvalidLock])
      ∧ (∀ data,
           TOML.parse content = Ok data →
           (∀ packages, TOML.prop "package" (Some data) ≠ Some (TArray packages)) →
           out = content ∧ log = [WarnNoPackages])
      ∧ (∀ fields packages,
           content = Document fields →
           fields !! "package" = Some (TArray packages) →
           ∃ packages',
             out = Document (<["package" := TArray packages']> fields)
             ∧ length packages' = length packages
             ∧ ∀ i pkg newVersion e,
                 packages !! i = Some pkg →
                 UvLock.lookupVersion versionsMap pkg = Some newVersion →
                 TOML.replaceTomlValue content ["package"; TOML.indexKey i; "version"]
                   (toString newVersion) = Throw e →
                 packages' !! i = Some pkg
                 ∧ WarnFailedVersion (UvLock.pkgName pkg) ∈ log).
Proof.
  destruct (updateContent_cases versionsMap content)
    as [(raw & -> & Hrun)
       |[(fields & -> & Hnone & Hrun)
        |[(fields & packages & -> & Hpackage & Hprintable & Hrun)
         |(fields & packages & -> & Hpackage & Hbad & Hrun)]]];
    rewrite Hrun.
  - split; [split; [eauto|done]|]. split; [done|].
    intros out log [= <- <-]. split; [done|]. split; [|done]. intros data [=].
  - split; [split; [eauto|]|].
    { intros _ fields' packages [= <-] Hpackage. by destruct (Hnone packages). }
    split; [done|]. intros out log [= <- <-]. split; [intros e [=]|]. split; [done|].
    intros fields' packages [= <-] Hpackage. by destruct (Hnone packages).
  - split; [split; [eauto|]|].
    { intros _ fields' packages' [= <-] Hpackage'. rewrite Hpackage in Hpackage'.
      by injection Hpackage' as <-. }
    split; [done|]. intros out log [= <- <-]. split; [intros e [=]|]. split.
    { intros data [= <-] Hnone. cbn in Hnone. by destruct (Hnone packages). }
    intros fields' packages' [= <-] Hpackage'.
    rewrite Hpackage in Hpackage'. injection Hpackage' as <-.
    eexists. split; [reflexivity|]. split; [by rewrite length_fmap|].
    intros i pkg newVersion e Hi Hlookup Hfail.
    rewrite (replace_package_version _ _ _ _ _ Hpackage Hi) in Hfail.
    destruct (LockSpec.setVersion (toString newVersion) pkg) eqn:Hset; [done|].
    split.
    + rewrite list_lookup_fmap, Hi. cbn. f_equal.
      unfold LockSpec.updateEntry. by rewrite Hlookup, Hset.
    + apply elem_of_app. left. apply list_elem_of_In, in_concat.
      exists (LockSpec.entryLog versionsMap pkg). split.
      * apply list_elem_of_In, list_elem_of_fmap. exists pkg. split; [done|].
        by eapply list_elem_of_lookup_2.
      * apply list_elem_of_In.
        unfold LockSpec.entryLog, LockSpec.entryChanged.
        rewrite Hlookup, Hset.
        rewrite bool_decide_eq_false_2 by (by intros [? ?]). set_solver.
  - split; [split|].
    + intros Hall. destruct Hbad. by eapply Hall.
    + by intros (out & log & [=]).
    + split; [by intros e [= <-]|]. by intros out log [=].
Qed.

Lemma UvLock_updateContent_returns_witness :
  ∃ out log,
    UvLock.updateContent Sample.coreBumped (Document Sample.lockFields) = Ok (out, log).
Proof.
  apply (UvLock_updateContent_returns Sample.coreBumped (Document Sample.lockFields)).
  intros fields packages [= <-] [= <-].
  repeat (constructor; [intros _; vm_compute; eauto|]). constructor.
Defined.

(** ** Building the package set of the workspace plugin *)

Lemma loadManifest_manifestAt env candidates path manifest :
  PluginSpec.manifestAt env candidates path = Some manifest →
  ∃ content, Plugin.loadManifest env candidates path = Ok (content, manifest).
Proof.
  unfold PluginSpec.manifestAt.
  destruct (Plugin.loadManifest env candidates path) as [[content m]|e]; [|done].
  intros [= ->]. by exists content.
Qed.

Lemma visitMembers_spec env candidates members :
  Forall (λ path, is_Some (PluginSpec.manifestAt env candidates path)) members →
  ∀ acc,
    match omap (PluginSpec.errorFor env candidates) members with
    | e :: _ => Plugin.visitMembers env candidates members acc = Throw e
    | [] =>
        ∃ r, Plugin.visitMembers env candidates members acc = Ok r
             ∧ Plugin.name <$> Plugin.allPackages r
               = (Plugin.name <$> Plugin.allPackages acc)
                 ++ omap (PluginSpec.nameFor env candidates) members
    end.
Proof.
  induction 1 as [|path members [manifest Hmanifest] _ IH]; intros acc.
  - cbn. exists acc. by rewrite app_nil_r.
  - destruct (loadManifest_manifestAt _ _ _ _ Hmanifest) as [content Hload].
    cbn [omap list_omap Plugin.visitMembers].
    unfold PluginSpec.errorFor at 1, PluginSpec.nameFor at 1.
    rewrite Hmanifest, Hload. cbn [mbind option_bind Result_bind].
    unfold PluginSpec.errorOf.
    destruct (Plugin.declaredName manifest) as [packageName|] eqn:Hname.
    + destruct (Plugin.declaredVersion manifest) as [[version| | | | |]|] eqn:Hversion;
        try reflexivity.
      match goal with |- context [Plugin.visitMembers _ _ _ ?a] => specialize (IH a) end.
      destruct (omap (PluginSpec.errorFor env candidates) members); [|exact IH].
      destruct IH as (r & Hr & Hnames). exists r. split; [exact Hr|].
      rewrite Hnames. cbn [Plugin.allPackages]. rewrite fmap_app. cbn.
      by rewrite <-app_assoc.
    + match goal with |- context [Plugin.visitMembers _ _ _ ?a] => specialize (IH a) end.
      destruct (omap (PluginSpec.errorFor env candidates) members); exact IH.
Qed.

Lemma stringItems_strings patterns :
  Plugin.stringItems (TString <$> patterns) = Ok patterns.
Proof. induction patterns as [|p patterns IH]; [done|]. cbn. by rewrite IH. Qed.

Lemma errorFor_configuration env candidates path e :
  PluginSpec.errorFor env candidates path = Some e →
  e = Plugin.missingVersion (Plugin.addPath env path "pyproject.toml")
  ∨ e = Plugin.invalidVersion (Plugin.addPath env path "pyproject.toml").
Proof.
  unfold PluginSpec.errorFor, PluginSpec.errorOf.
  destruct (PluginSpec.manifestAt env candidates path) as [manifest|]; [|done]. cbn.
  destruct (Plugin.declaredName manifest); [|done].
  destruct (Plugin.declaredVersion manifest) as [[]|]; intros [= <-]; auto.
Qed.

(** Two members with the same name are both listed; nothing fails. *)
Lemma buildAllPackages_same_name_accepted :
  ∃ r p q,
    Plugin.buildAllPackages Sample.sameName [] = Ok r
    ∧ Plugin.allPackages r !! 0 = Some p
    ∧ Plugin.allPackages r !! 1 = Some q
    ∧ Plugin.path p ≠ Plugin.path q
    ∧ Plugin.name p = Plugin.name q.
Proof.
  eexists _, _, _. split; [vm_compute; reflexivity|].
  split; [reflexivity|]. split; [reflexivity|]. split; [|reflexivity].
  cbn. discriminate.
Qed.

(** C4 (amended).  Once the root manifest names its members and every
    member manifest can be fetched and parsed, building the package set
    fails with a [ConfigurationError] exactly when some manifest with a name
    has no version, or a version that is not a string; the error is the one
    of the first such member and its message carries the path of that
    manifest.  Otherwise every manifest with a name becomes a package, in
    the order of discovery; packages that declare the same name are all
    kept. *)
Theorem buildAllPackages_configuration_error
    (env : Plugin.Env) (candidates : list Plugin.Candidate)
    (root : gmap string Toml) (patterns found : list string) :
  Plugin.getFileContentsOnBranch env "pyproject.toml" = Ok (Document root) →
  TOML.prop "members"
    (TOML.prop "workspace" (TOML.prop "uv" (TOML.prop "tool" (Some (TTable root)))))
  = Some (TArray (TString <$> patterns)) →
  Plugin.expandAll env patterns = Ok found →
  Forall (λ path, is_Some (PluginSpec.manifestAt env candidates path))
         (found ++ [Plugin.ROOT_PROJECT_PATH env]) →
  (∀ e rest,
     omap (PluginSpec.errorFor env candidates) (found ++ [Plugin.ROOT_PROJECT_PATH env])
     = e :: rest →
     Plugin.buildAllPackages env candidates = Throw e)
  ∧ (omap (PluginSpec.errorFor env candidates) (found ++ [Plugin.ROOT_PROJECT_PATH env])
     = [] →
     ∃ r, Plugin.buildAllPackages env candidates = Ok r
          ∧ Plugin.name <$> Plugin.allPackages r
            = omap (PluginSpec.nameFor env candidates)
                (found ++ [Plugin.ROOT_PROJECT_PATH env]))
  ∧ ((∃ message, Plugin.buildAllPackages env candidates = Throw (ConfigurationError message))
     ↔ ∃ path, path ∈ found ++ [Plugin.ROOT_PROJECT_PATH env]
               ∧ is_Some (PluginSpec.errorFor env candidates path))
  ∧ (∀ path e,
       PluginSpec.errorFor env candidates path = Some e →
       e = Plugin.missingVersion (Plugin.addPath env path "pyproject.toml")
       ∨ e = Plugin.invalidVersion (Plugin.addPath env path "pyproject.toml")).
Proof.
  intros Hroot Hmembers Hexpand Hloads.
  set (members := found ++ [Plugin.ROOT_PROJECT_PATH env]) in *.
  assert (Hbuild : Plugin.buildAllPackages env candidates
                   = Plugin.visitMembers env candidates members (Plugin.mkPackages [] [] [])).
  { unfold Plugin.buildAllPackages. rewrite Hroot. cbn [mbind Result_bind TOML.parse].
    rewrite Hmembers. cbn [TOML.whenTruthy TOML.truthy Plugin.memberPatterns].
    rewrite stringItems_strings. cbn [mbind Result_bind]. by rewrite Hexpand. }
  pose proof (visitMembers_spec env candidates members Hloads (Plugin.mkPackages [] [] []))
    as Hspec.
  rewrite Hbuild. split; [|split; [|split]].
  - intros e rest Herrors. by rewrite Herrors in Hspec.
  - intros Herrors. by rewrite Herrors in Hspec.
  - split.
    + intros [message Hthrow].
      destruct (omap (PluginSpec.errorFor env candidates) members) as [|e rest] eqn:Herrors.
      { destruct Hspec as (r & Hr & _). congruence. }
      assert (He : e ∈ omap (PluginSpec.errorFor env candidates) members)
        by (rewrite Herrors; left).
      apply list_elem_of_omap in He as (path & Hpath & He). eauto.
    + intros (path & Hpath & [e He]).
      assert (Hin : e ∈ omap (PluginSpec.errorFor env candidates) members)
        by (apply list_elem_of_omap; eauto).
      destruct (omap (PluginSpec.errorFor env candidates) members) as [|e' rest] eqn:Herrors;
        [by apply elem_of_nil in Hin|].
      assert (He' : e' ∈ omap (PluginSpec.errorFor env candidates) members)
        by (rewrite Herrors; left).
      apply list_elem_of_omap in He' as (path' & _ & He').
      rewrite Hspec.
      destruct (errorFor_configuration _ _ _ _ He') as [-> | ->]; eexists; reflexivity.
  - intros path e. apply errorFor_configuration.
Qed.

Lemma buildAllPackages_configuration_error_witness :
  Plugin.buildAllPackages Sample.numericVersion []
  = Throw (Plugin.invalidVersion "packages/b/pyproject.toml").
Proof.
  eapply (buildAllPackages_configuration_error Sample.numericVersion [] _
            ["packages/*"] ["packages/a"; "packages/b"]).
  - reflexivity.
  - reflexivity.
  - reflexivity.
  - repeat (constructor; [vm_compute; eauto|]). constructor.
  - vm_compute. reflexivity.
Defined.

(** ** The dependency graph of the workspace plugin *)

Lemma buildGraph_step_lookup (names : gset string) pkgs :
  ∀ (graph : gmap string Plugin.DependencyNode) n node,
    foldl (λ graph packageInfo,
             <[Plugin.name packageInfo :=
                 Plugin.mkNode (Plugin.workspaceDeps names (Plugin.manifest packageInfo))
                   packageInfo]> graph)
          graph pkgs !! n = Some node →
    graph !! n = Some node
    ∨ ∃ p, p ∈ pkgs ∧ Plugin.name p = n
           ∧ node = Plugin.mkNode (Plugin.workspaceDeps names (Plugin.manifest p)) p.
Proof.
  induction pkgs as [|p pkgs IH]; intros graph n node Hnode; [by left|].
  cbn [foldl] in Hnode. apply IH in Hnode as [Hnode|(q & Hq & Hname & ->)].
  - destruct (decide (Plugin.name p = n)) as [<-|Hne].
    + rewrite lookup_insert_eq in Hnode. injection Hnode as <-.
      right. exists p. split; [left|done].
    + rewrite lookup_insert_ne in Hnode by done. by left.
  - right. exists q. split; [by right|done].
Qed.

Lemma buildGraph_step_dom (names : gset string) pkgs :
  ∀ (graph : gmap string Plugin.DependencyNode) p,
    p ∈ pkgs →
    is_Some (foldl (λ graph packageInfo,
                      <[Plugin.name packageInfo :=
                          Plugin.mkNode (Plugin.workspaceDeps names (Plugin.manifest packageInfo))
                            packageInfo]> graph)
                   graph pkgs !! Plugin.name p).
Proof.
  assert (Hkeep : ∀ pkgs (graph : gmap string Plugin.DependencyNode) n,
             is_Some (graph !! n) →
             is_Some (foldl (λ graph packageInfo,
                      <[Plugin.name packageInfo :=
                          Plugin.mkNode (Plugin.workspaceDeps names (Plugin.manifest packageInfo))
                            packageInfo]> graph)
                   graph pkgs !! n)).
  { clear pkgs. induction pkgs as [|q pkgs IH]; intros graph n Hn; [done|].
    cbn [foldl]. apply IH. rewrite lookup_insert. case_decide; eauto. }
  induction pkgs as [|q pkgs IH]; intros graph p Hp; [by apply elem_of_nil in Hp|].
  cbn [foldl]. apply elem_of_cons in Hp as [->|Hp]; [|by apply IH].
  apply Hkeep. rewrite lookup_insert_eq. eauto.
Qed.

(** A self-edge and a doubled edge are both retained. *)
Lemma buildGraph_keeps_self_and_duplicate_edges :
  ∃ node,
    Plugin.buildGraph [Sample.packageA; Sample.packageB] !! "a" = Some node
    ∧ Plugin.deps node = ["a"; "b"; "b"]
    ∧ "a" ∈ Plugin.deps node
    ∧ ¬ NoDup (Plugin.deps node).
Proof.
  eexists. split; [vm_compute; reflexivity|]. cbn [Plugin.deps].
  split; [reflexivity|]. split; [set_solver|].
  intros Hnodup. apply NoDup_cons in Hnodup as [_ Hnodup].
  apply NoDup_cons in Hnodup as [Hb _]. set_solver.
Qed.

(** C8 (amended).  Every node of the graph is one of the discovered
    packages under its name, and every discovered package has a node.  The
    edges of a node are the names extracted from the specifiers of all
    three dependency sections of its manifest, one edge per specifier, kept
    when they name a package of the discovery set: so every edge points to
    a discovered package and specifiers of other packages leave no edge
    (building the graph cannot fail). *)
Theorem buildGraph_edges
    (allPackages : list Plugin.UvPackageInfo) (packageName : string)
    (node : Plugin.DependencyNode) :
  Plugin.buildGraph allPackages !! packageName = Some node →
  Plugin.value node ∈ allPackages
  ∧ Plugin.name (Plugin.value node) = packageName
  ∧ Plugin.deps node
    = List.filter (λ dep, bool_decide (dep ∈ Plugin.name <$> allPackages))
        (Plugin.extractPackageName <$> Plugin.allDeps (Plugin.manifest (Plugin.value node)))
  ∧ Forall (λ dep, dep ∈ Plugin.name <$> allPackages
                   ∧ is_Some (Plugin.buildGraph allPackages !! dep))
           (Plugin.deps node)
  ∧ (∀ specifier,
       specifier ∈ Plugin.allDeps (Plugin.manifest (Plugin.value node)) →
       Plugin.extractPackageName specifier ∉ Plugin.name <$> allPackages →
       Plugin.extractPackageName specifier ∉ Plugin.deps node).
Proof.
  intros Hnode. unfold Plugin.buildGraph in Hnode.
  apply buildGraph_step_lookup in Hnode as [Hnode|(p & Hp & Hname & ->)];
    [by rewrite lookup_empty in Hnode|].
  cbn [Plugin.value Plugin.deps].
  assert (Hdeps : Plugin.workspaceDeps (list_to_set (Plugin.name <$> allPackages))
                    (Plugin.manifest p)
                  = List.filter (λ dep, bool_decide (dep ∈ Plugin.name <$> allPackages))
                      (Plugin.extractPackageName <$> Plugin.allDeps (Plugin.manifest p))).
  { unfold Plugin.workspaceDeps.
    induction (Plugin.extractPackageName <$> Plugin.allDeps (Plugin.manifest p))
      as [|dep deps IH]; [done|].
    cbn [List.filter]. rewrite IH.
    destruct (decide (dep ∈ Plugin.name <$> allPackages)) as [Hin|Hout].
    - rewrite !bool_decide_eq_true_2; [done| done |by apply elem_of_list_to_set].
    - rewrite !bool_decide_eq_false_2; [done| done |by rewrite elem_of_list_to_set]. }
  assert (Hmember : ∀ dep,
            dep ∈ List.filter (λ dep, bool_decide (dep ∈ Plugin.name <$> allPackages))
                    (Plugin.extractPackageName <$> Plugin.allDeps (Plugin.manifest p)) →
            dep ∈ Plugin.name <$> allPackages).
  { intros dep Hdep. apply list_elem_of_In, filter_In in Hdep as [_ Hdep].
    by apply bool_decide_eq_true_1 in Hdep. }
  split; [done|]. split; [done|]. split; [done|]. rewrite Hdeps. split.
  - apply Forall_forall. intros dep Hdep. apply Hmember in Hdep. split; [done|].
    apply list_elem_of_fmap in Hdep as (q & -> & Hq).
    by apply buildGraph_step_dom.
  - intros specifier _ Hout Hin. by apply Hmember in Hin.
Qed.

Lemma buildGraph_edges_witness :
  ∃ node,
    Plugin.buildGraph [Sample.packageA; Sample.packageB] !! "a" = Some node
    ∧ Plugin.value node ∈ [Sample.packageA; Sample.packageB]
    ∧ Forall (λ dep, dep ∈ Plugin.name <$> [Sample.packageA; Sample.packageB]
                     ∧ is_Some (Plugin.buildGraph [Sample.packageA; Sample.packageB] !! dep))
             (Plugin.deps node).
Proof.
  assert (Hnode : Plugin.buildGraph [Sample.packageA; Sample.packageB] !! "a"
                  = Some (Plugin.mkNode ["a"; "b"; "b"] Sample.packageA))
    by (vm_compute; reflexivity).
  destruct (buildGraph_edges _ _ _ Hnode) as (Hvalue & _ & _ & Hedges & _).
  eexists. split; [exact Hnode|]. split; [exact Hvalue | exact Hedges].
Defined.

(** ** Member manifests of the strategy *)

Lemma append_cons a s t : String a s +:+ t = String a (s +:+ t).
Proof. reflexivity. Qed.

Lemma startsWith_append needle rest : Js.startsWith needle (needle +:+ rest) = true.
Proof.
  induction needle as [|a needle IH]; [done|].
  rewrite append_cons. cbn [Js.startsWith]. by rewrite decide_True.
Qed.

Lemma includes_startsWith needle s : Js.startsWith needle s = true → Js.includes needle s = true.
Proof. intros H. destruct s; cbn [Js.includes]; by rewrite H. Qed.

Lemma includes_append before needle after :
  Js.includes needle (before +:+ needle +:+ after) = true.
Proof.
  induction before as [|a before IH].
  - change ("" +:+ needle +:+ after) with (needle +:+ after).
    apply includes_startsWith, startsWith_append.
  - rewrite append_cons. cbn [Js.includes]. rewrite IH. apply orb_true_r.
Qed.

Lemma includes_skip needle before s :
  Js.includes needle s = true → Js.includes needle (before +:+ s) = true.
Proof.
  intros Hs. induction before as [|a before IH]; [done|].
  rewrite append_cons. cbn [Js.includes]. rewrite IH. apply orb_true_r.
Qed.

Lemma includes_refl needle : Js.includes needle needle = true.
Proof.
  apply includes_startsWith.
  induction needle as [|a needle IH]; [done|].
  cbn [Js.startsWith]. by rewrite decide_True.
Qed.

Lemma parseMemberManifests_app env before after :
  ∀ manifests,
    Strategy.parseMemberManifests env (before ++ after) manifests
    = (manifests' ← Strategy.parseMemberManifests env before manifests;
       Strategy.parseMemberManifests env after manifests').
Proof.
  induction before as [|member before IH]; intros manifests; [done|].
  cbn [app Strategy.parseMemberManifests].
  destruct (Strategy.expandWorkspaceMember env member) as [paths|e]; [|done].
  cbn [mbind Result_bind].
  destruct (Strategy.parsePaths env paths manifests) as [manifests'|e]; [|done].
  cbn [mbind Result_bind]. apply IH.
Qed.

Lemma parsePaths_app env before after :
  ∀ manifests,
    Strategy.parsePaths env (before ++ after) manifests
    = (manifests' ← Strategy.parsePaths env before manifests;
       Strategy.parsePaths env after manifests').
Proof.
  induction before as [|path before IH]; intros manifests; [done|].
  cbn [app Strategy.parsePaths].
  destruct (Strategy.getContent env (path +:+ "/pyproject.toml")) as [content|]; [|done].
  destruct (TOML.parse content) as [manifest|e]; [|done].
  cbn [mbind Result_bind]. apply IH.
Qed.

(** A manifest reported as missing gives a plain [Error], and a failure of
    the fetch is not passed on: it gives the very same [Error]. *)
Lemma parseMemberManifests_transport_failure_replaced :
  Strategy.parseMemberManifests Sample.reportedMissing ["packages/a"] []
  = Throw (Error "Workspace member 'packages/a' declared but pyproject.toml not found at packages/a/pyproject.toml")
  ∧ Strategy.parseMemberManifests Sample.transportFailure ["packages/a"] []
    = Throw (Error "Workspace member 'packages/a' declared but pyproject.toml not found at packages/a/pyproject.toml")
  ∧ Strategy.getFileContentsOnBranch Sample.transportFailure "packages/a/pyproject.toml"
    = Throw (TransportError "connection reset").
Proof. repeat split; vm_compute; reflexivity. Qed.

(** C5 (amended).  When the members before it have been read, a declared
    member whose manifest cannot be had, because the fetch reports it
    missing or because the fetch fails, makes the run fail with an [Error]
    whose message names the member and the expected manifest path.  A
    failure of the fetch is caught and reported in the same way. *)
Theorem parseMemberManifests_missing
    (env : Strategy.Env) (before after : list string) (member : string)
    (manifests manifests' manifests'' : list (string * Toml))
    (pre post : list string) (memberPath : string) :
  Strategy.parseMemberManifests env before manifests = Ok manifests' →
  Strategy.expandWorkspaceMember env member = Ok (pre ++ memberPath :: post) →
  Strategy.parsePaths env pre manifests' = Ok manifests'' →
  (Strategy.getFileContentsOnBranch env
     (Strategy.addPath env (memberPath +:+ "/pyproject.toml")) = Ok None
   ∨ ∃ e, Strategy.getFileContentsOnBranch env
            (Strategy.addPath env (memberPath +:+ "/pyproject.toml")) = Throw e) →
  ∃ message,
    Strategy.parseMemberManifests env (before ++ member :: after) manifests
    = Throw (Error message)
    ∧ message = "Workspace member '" +:+ memberPath
                +:+ "' declared but pyproject.toml not found at "
                +:+ memberPath +:+ "/pyproject.toml"
    ∧ Js.includes (memberPath +:+ "/pyproject.toml") message = true.
Proof.
  intros Hbefore Hexpand Hpre Hfetch. eexists. split; [|split; [reflexivity|]].
  - rewrite parseMemberManifests_app, Hbefore. cbn [mbind Result_bind].
    cbn [Strategy.parseMemberManifests]. rewrite Hexpand. cbn [mbind Result_bind].
    rewrite parsePaths_app, Hpre. cbn [mbind Result_bind Strategy.parsePaths].
    assert (Strategy.getContent env (memberPath +:+ "/pyproject.toml") = None) as ->.
    { unfold Strategy.getContent. by destruct Hfetch as [-> | [e ->]]. }
    reflexivity.
  - do 3 apply includes_skip. apply includes_refl.
Qed.

Lemma parseMemberManifests_missing_witness :
  ∃ message,
    Strategy.parseMemberManifests Sample.transportFailure ["packages/a"; "packages/b"] []
    = Throw (Error message)
    ∧ Js.includes "packages/a/pyproject.toml" message = true.
Proof.
  destruct (parseMemberManifests_missing Sample.transportFailure [] ["packages/b"]
              "packages/a" [] [] [] [] [] "packages/a")
    as (message & Hrun & _ & Hnames).
  - reflexivity.
  - reflexivity.
  - reflexivity.
  - right. eexists. reflexivity.
  - exists message. split; [exact Hrun | exact Hnames].
Defined.

(** ** The manifest updater: the loops as structural rewrites *)

Lemma replace_field fields k1 t1 k2 s newValue :
  fields !! k1 = Some (TTable t1) →
  t1 !! k2 = Some (TString s) →
  TOML.replaceTomlValue (Document fields) [k1; k2] newValue
  = Ok (Document (<[k1 := TTable (<[k2 := TString newValue]> t1)]> fields)).
Proof.
  intros H1 H2. unfold TOML.replaceTomlValue.
  rewrite replaceAt_table, H1. cbn [mbind option_bind].
  rewrite replaceAt_table, H2. reflexivity.
Qed.

Lemma replace_item fields k1 t1 k2 items i dep newValue :
  fields !! k1 = Some (TTable t1) →
  t1 !! k2 = Some (TArray items) →
  items !! i = Some (TString dep) →
  TOML.replaceTomlValue (Document fields) [k1; k2; TOML.indexKey i] newValue
  = Ok (Document (<[k1 := TTable (<[k2 := TArray (<[i := TString newValue]> items)]> t1)]>
                    fields)).
Proof.
  intros H1 H2 Hi. unfold TOML.replaceTomlValue.
  rewrite replaceAt_table, H1. cbn [mbind option_bind].
  rewrite replaceAt_table, H2. cbn [mbind option_bind].
  rewrite (replaceAt_array_index _ _ _ _ _ Hi). reflexivity.
Qed.

Lemma replace_item_array fields k1 groups i items j dep newValue :
  fields !! k1 = Some (TArray groups) →
  groups !! i = Some (TArray items) →
  items !! j = Some (TString dep) →
  TOML.replaceTomlValue (Document fields) [k1; TOML.indexKey i; TOML.indexKey j] newValue
  = Ok (Document
          (<[k1 := TArray (<[i := TArray (<[j := TString newValue]> items)]> groups)]> fields)).
Proof.
  intros H1 Hi Hj. unfold TOML.replaceTomlValue.
  rewrite replaceAt_table, H1. cbn [mbind option_bind].
  rewrite (replaceAt_array_index _ _ _ _ _ Hi).
  rewrite (replaceAt_array_index _ _ _ _ _ Hj). reflexivity.
Qed.

(** The loop over one dependency list, whatever holds the list: [within]
    gives the document as a function of the items of that list. *)
Lemma forEachDep_within versionsMap prefix onFailure
    (within : list Toml → gmap string Toml) rest :
  (∀ items i dep newValue,
     items !! i = Some (TString dep) →
     TOML.replaceTomlValue (Document (within items)) (prefix ++ [TOML.indexKey i]) newValue
     = Ok (Document (within (<[i := TString newValue]> items)))) →
  ∀ seen log,
    UvWorkspaceToml.forEachDep versionsMap prefix onFailure (length seen)
      (TString <$> rest) (Document (within (seen ++ (TString <$> rest))), log)
    = Ok (Document
            (within (seen ++ (ManifestSpec.rewriteItem versionsMap <$> (TString <$> rest)))),
          log).
Proof.
  intros Hreplace. induction rest as [|dep rest IH]; intros seen log; [done|].
  rewrite !fmap_cons. cbn [UvWorkspaceToml.forEachDep].
  assert (Hsplit : ∀ (x : Toml) l, seen ++ x :: l = (seen ++ [x]) ++ l)
    by (intros x l; by rewrite <-app_assoc).
  assert (Hlen : ∀ x : Toml, S (length seen) = length (seen ++ [x]))
    by (intros x; rewrite length_app; simpl; lia).
  unfold UvWorkspaceToml.updateOne. cbn [ManifestSpec.rewriteItem fst snd].
  case_decide as Hsame.
  - rewrite Hsame. cbn [mbind Result_bind].
    rewrite (Hsplit (TString dep)), (Hlen (TString dep)), IH. by rewrite <-Hsplit.
  - rewrite (Hreplace _ _ dep) by (by rewrite list_lookup_middle).
    cbn [mbind Result_bind]. rewrite insert_middle.
    set (updated := TString (UvWorkspaceToml.updateDependencyString (Some versionsMap) dep)).
    rewrite (Hsplit updated), (Hlen updated), IH. by rewrite <-Hsplit.
Qed.

Lemma forEach_typed versionsMap k1 k2 onFailure (fields t1 : gmap string Toml) deps log :
  fields !! k1 = Some (TTable t1) →
  t1 !! k2 = Some (TArray (TString <$> deps)) →
  UvWorkspaceToml.forEach versionsMap [k1; k2] onFailure (TArray (TString <$> deps))
    (Document fields, log)
  = Ok (Document
          (<[k1 := TTable (<[k2 := ManifestSpec.rewriteDeps versionsMap
                                      (TArray (TString <$> deps))]> t1)]> fields),
        log).
Proof.
  intros H1 H2. cbn [UvWorkspaceToml.forEach ManifestSpec.rewriteDeps].
  pose proof (forEachDep_within versionsMap [k1; k2] onFailure
                (λ items, <[k1 := TTable (<[k2 := TArray items]> t1)]> fields) deps)
    as Hloop.
  cbn beta in Hloop. specialize (Hloop) with (seen := []) (log := log).
  cbn [length app] in Hloop.
  rewrite (insert_id t1 k2 _ H2), (insert_id fields k1 _ H1) in Hloop.
  apply Hloop. intros items j dep newValue Hj.
  rewrite (replace_item _ k1 (<[k2 := TArray items]> t1) k2 items j dep);
    [| by rewrite lookup_insert_eq | by rewrite lookup_insert_eq | done].
  by rewrite !insert_insert_eq.
Qed.

Lemma forEach_typed_array versionsMap k1 onFailure (fields : gmap string Toml)
    groups i deps log :
  fields !! k1 = Some (TArray groups) →
  groups !! i = Some (TArray (TString <$> deps)) →
  UvWorkspaceToml.forEach versionsMap [k1; TOML.indexKey i] onFailure
    (TArray (TString <$> deps)) (Document fields, log)
  = Ok (Document
          (<[k1 := TArray (<[i := ManifestSpec.rewriteDeps versionsMap
                                     (TArray (TString <$> deps))]> groups)]> fields),
        log).
Proof.
  intros H1 Hi. cbn [UvWorkspaceToml.forEach ManifestSpec.rewriteDeps].
  pose proof (lookup_lt_Some _ _ _ Hi) as Hlt.
  pose proof (forEachDep_within versionsMap [k1; TOML.indexKey i] onFailure
                (λ items, <[k1 := TArray (<[i := TArray items]> groups)]> fields) deps)
    as Hloop.
  cbn beta in Hloop. specialize (Hloop) with (seen := []) (log := log).
  cbn [length app] in Hloop.
  rewrite (list_insert_id _ _ _ Hi), (insert_id fields k1 _ H1) in Hloop.
  apply Hloop. intros items j dep newValue Hj.
  rewrite (replace_item_array _ k1 (<[i := TArray items]> groups) i items j dep);
    [| by rewrite lookup_insert_eq | by rewrite list_lookup_insert_eq | done].
  by rewrite insert_insert_eq, list_insert_insert_eq.
Qed.

Lemma foldl_insert_union {A B} (f : A → B) (l : list (string * A)) :
  NoDup l.*1 →
  ∀ m : gmap string B,
    foldl (λ acc kv, <[kv.1 := f kv.2]> acc) m l
    = (f <$> (list_to_map l : gmap string A)) ∪ m.
Proof.
  induction l as [|[k x] l IH]; intros Hnodup m.
  - cbn. by rewrite fmap_empty, (left_id_L ∅ (∪)).
  - cbn in Hnodup. apply NoDup_cons in Hnodup as [Hk Hnodup].
    cbn [foldl fst snd]. rewrite (IH Hnodup).
    rewrite list_to_map_cons, fmap_insert, <-insert_union_l.
    symmetry. apply insert_union_r. rewrite lookup_fmap.
    by rewrite (not_elem_of_list_to_map_1 _ _ Hk).
Qed.

Lemma foldl_insert_fmap {A} (f : A → A) (m : gmap string A) :
  foldl (λ acc kv, <[kv.1 := f kv.2]> acc) m (map_to_list m) = f <$> m.
Proof.
  rewrite foldl_insert_union by apply NoDup_fst_map_to_list.
  rewrite list_to_map_to_list. apply map_eq. intros k.
  rewrite lookup_union, lookup_fmap. by destruct (m !! k).
Qed.

Lemma updateGroups_spec versionsMap (l : list (string * Toml)) :
  NoDup l.*1 →
  ∀ (groups fields : gmap string Toml) log,
    (∀ g t, (g, t) ∈ l → groups !! g = Some t ∧ ManifestSpec.typedDeps t) →
    fields !! "dependency-groups" = Some (TTable groups) →
    UvWorkspaceToml.updateGroups versionsMap l (Document fields, log)
    = Ok (Document
            (<["dependency-groups" :=
                 TTable (foldl (λ acc kv, <[kv.1 := ManifestSpec.rewriteDeps versionsMap kv.2]> acc)
                               groups l)]> fields),
          log).
Proof.
  induction l as [|[g t] l IH]; intros Hnodup groups fields log Hl Hgroups.
  - cbn. by rewrite insert_id.
  - cbn in Hnodup. apply NoDup_cons in Hnodup as [Hg Hnodup].
    destruct (Hl g t) as [Hgt [deps ->]]; [left|].
    cbn [UvWorkspaceToml.updateGroups foldl fst snd].
    rewrite (forEach_typed _ _ _ _ _ _ _ _ Hgroups Hgt). cbn [mbind Result_bind].
    rewrite (IH Hnodup (<[g := ManifestSpec.rewriteDeps versionsMap (TArray (TString <$> deps))]>
                          groups)).
    + by rewrite insert_insert_eq.
    + intros g' t' Hin. destruct (Hl g' t') as [Hg' Ht']; [by right|]. split; [|done].
      rewrite lookup_insert_ne; [done|]. intros <-. apply Hg.
      apply list_elem_of_fmap. by exists (g, t').
    + by rewrite lookup_insert_eq.
Qed.

Lemma insert_as_alter {A} (f : A → A) (m : gmap string A) k x :
  m !! k = Some x → <[k := f x]> m = alter f k m.
Proof.
  intros Hk. apply map_eq. intros j.
  rewrite lookup_insert, lookup_alter. case_decide; [|done]. subst j. by rewrite Hk.
Qed.

Lemma updateDependencyGroups_spec versionsMap (groups fields : gmap string Toml) log :
  (∀ g t, groups !! g = Some t → ManifestSpec.typedDeps t) →
  fields !! "dependency-groups" = Some (TTable groups) →
  UvWorkspaceToml.updateDependencyGroups versionsMap (TTable groups) (Document fields, log)
  = Ok (Document (alter (ManifestSpec.rewriteGroups versionsMap) "dependency-groups" fields),
        log).
Proof.
  intros Htyped Hgroups. unfold UvWorkspaceToml.updateDependencyGroups.
  cbn [TOML.entries]. rewrite (updateGroups_spec _ _ (NoDup_fst_map_to_list _) groups);
    [| |done].
  - rewrite foldl_insert_fmap.
    by rewrite <-(insert_as_alter (ManifestSpec.rewriteGroups versionsMap) _ _ _ Hgroups).
  - intros g t Hin. apply elem_of_map_to_list in Hin. eauto.
Qed.

Lemma updateGroups_array versionsMap rest :
  ∀ seen (fields : gmap string Toml) log,
    Forall ManifestSpec.typedDeps rest →
    fields !! "dependency-groups" = Some (TArray (seen ++ rest)) →
    UvWorkspaceToml.updateGroups versionsMap
      (imap (λ i v, (TOML.indexKey (length seen + i), v)) rest) (Document fields, log)
    = Ok (Document
            (<["dependency-groups" :=
                 TArray (seen ++ (ManifestSpec.rewriteDeps versionsMap <$> rest))]> fields),
          log).
Proof.
  induction rest as [|t rest IH]; intros seen fields log Htyped Hgroups.
  - cbn. by rewrite insert_id.
  - apply Forall_cons in Htyped as [[deps ->] Htyped].
    rewrite imap_cons. cbn [UvWorkspaceToml.updateGroups]. rewrite Nat.add_0_r.
    rewrite (forEach_typed_array _ _ _ _ _ _ _ _ Hgroups)
      by (by rewrite list_lookup_middle).
    cbn [mbind Result_bind]. rewrite insert_middle.
    set (t' := ManifestSpec.rewriteDeps versionsMap (TArray (TString <$> deps))).
    rewrite (imap_ext _ (λ i v, (TOML.indexKey (length (seen ++ [t']) + i), v)))
      by (intros j x _; cbn; rewrite length_app; cbn; do 2 f_equal; lia).
    rewrite (IH (seen ++ [t'])); [|done|].
    + rewrite insert_insert_eq, fmap_cons, <-app_assoc. reflexivity.
    + rewrite lookup_insert_eq, <-app_assoc. reflexivity.
Qed.

Lemma alter_noop {A} (f : A → A) (m : gmap string A) k :
  (∀ x, m !! k = Some x → f x = x) → alter f k m = m.
Proof.
  intros Hf. apply map_eq. intros j. rewrite lookup_alter.
  case_decide; [|done]. subst j. destruct (m !! k) eqn:Hk; [|done].
  cbn. by rewrite Hf.
Qed.

Lemma updateDependencyGroups_okGroups versionsMap w (fields : gmap string Toml) log :
  ManifestSpec.okGroups w →
  fields !! "dependency-groups" = Some w →
  UvWorkspaceToml.updateDependencyGroups versionsMap w (Document fields, log)
  = Ok (Document (alter (ManifestSpec.rewriteGroups versionsMap) "dependency-groups" fields),
        log).
Proof.
  intros Hok Hgroups.
  destruct w as [s|z|b|b text|items|groups]; cbn [ManifestSpec.okGroups] in Hok; try done.
  - cbn. rewrite alter_noop; [done|]. intros x Hx. rewrite Hgroups in Hx. by injection Hx as <-.
  - cbn. rewrite alter_noop; [done|]. intros x Hx. rewrite Hgroups in Hx. by injection Hx as <-.
  - cbn. rewrite alter_noop; [done|]. intros x Hx. rewrite Hgroups in Hx. by injection Hx as <-.
  - unfold UvWorkspaceToml.updateDependencyGroups. cbn [TOML.entries].
    pose proof (updateGroups_array versionsMap items [] fields log Hok Hgroups) as Hloop.
    cbn [app length Nat.add] in Hloop. rewrite Hloop.
    by rewrite <-(insert_as_alter (ManifestSpec.rewriteGroups versionsMap) _ _ _ Hgroups).
  - by apply updateDependencyGroups_spec.
Qed.

Lemma toString_nonempty version : toString version ≠ "".
Proof.
  unfold toString. intros H.
  destruct (pretty (major version)) as [|a s] eqn:Hmajor; [|discriminate H].
  change ("" +:+ "." +:+ ?rest) with (String "."%char rest) in H. discriminate H.
Qed.

Lemma whenTruthy_Some t v : TOML.whenTruthy t = Some v → t = Some v ∧ TOML.truthy v = true.
Proof.
  destruct t as [w|]; [|done]. cbn. destruct (TOML.truthy w) eqn:Hw; [|done].
  by intros [= <-].
Qed.

Lemma whenTruthy_None w : TOML.whenTruthy (Some w) = None → TOML.truthy w = false.
Proof. cbn. by destruct (TOML.truthy w). Qed.

Lemma rewriteVersion_falsy version w :
  TOML.truthy w = false → ManifestSpec.rewriteVersion version w = w.
Proof.
  destruct w as [s| | | | |]; try done. cbn. case_bool_decide; [|done].
  by rewrite decide_True.
Qed.

Lemma rewriteDeps_falsy versionsMap w :
  TOML.truthy w = false → ManifestSpec.rewriteDeps versionsMap w = w.
Proof. by destruct w. Qed.

Lemma rewriteGroups_falsy versionsMap w :
  TOML.truthy w = false → ManifestSpec.rewriteGroups versionsMap w = w.
Proof. by destruct w. Qed.

Lemma updateContent_version version (fields : gmap string Toml) :
  ManifestSpec.okShape fields →
  match TOML.whenTruthy
          (TOML.prop "version" (TOML.prop "project" (Some (TTable fields)))) with
  | Some _ => TOML.replaceTomlValue (Document fields) ["project"; "version"] (toString version)
  | None => Ok (Document fields)
  end
  = Ok (Document (alter (ManifestSpec.setVersionField version) "project" fields)).
Proof.
  intros (Hversion & _). cbn [TOML.prop] in *.
  destruct (TOML.whenTruthy (TOML.prop "version" (fields !! "project"))) as [v|] eqn:Hv.
  - destruct (Hversion v eq_refl) as [s ->]. apply whenTruthy_Some in Hv as [Hv Hs].
    destruct (fields !! "project") as [[| | | | |project]|] eqn:Hp; try done.
    cbn [TOML.prop] in Hv.
    rewrite (replace_field _ _ _ _ _ _ Hp Hv).
    rewrite <-(insert_as_alter (ManifestSpec.setVersionField version) _ _ _ Hp).
    cbn [ManifestSpec.setVersionField].
    rewrite <-(insert_as_alter (ManifestSpec.rewriteVersion version) _ _ _ Hv).
    cbn [ManifestSpec.rewriteVersion]. cbn in Hs.
    case_bool_decide; [done|]. by rewrite decide_False.
  - rewrite alter_noop; [done|]. intros x Hx. rewrite Hx in Hv.
    destruct x as [| | | | |project]; try done.
    cbn [ManifestSpec.setVersionField]. f_equal. apply alter_noop.
    intros y Hy. cbn [TOML.prop] in Hv. rewrite Hy in Hv.
    by apply rewriteVersion_falsy, whenTruthy_None.
Qed.

Lemma updateContent_groups versionsMap (fields processed : gmap string Toml) log :
  ManifestSpec.okShape fields →
  processed !! "dependency-groups" = fields !! "dependency-groups" →
  match TOML.whenTruthy (TOML.prop "dependency-groups" (Some (TTable fields))) with
  | Some groups =>
      UvWorkspaceToml.updateDependencyGroups versionsMap groups (Document processed, log)
  | None => Ok (Document processed, log)
  end
  = Ok (Document (alter (ManifestSpec.rewriteGroups versionsMap) "dependency-groups" processed),
        log).
Proof.
  intros (_ & Hgroups & _) Hsame. cbn [TOML.prop].
  destruct (TOML.whenTruthy (fields !! "dependency-groups")) as [v|] eqn:Hv.
  - specialize (Hgroups v eq_refl). apply whenTruthy_Some in Hv as [Hv _].
    apply updateDependencyGroups_okGroups; [done|]. by rewrite Hsame.
  - rewrite alter_noop; [done|]. intros x Hx. rewrite Hsame in Hx. rewrite Hx in Hv.
    by apply rewriteGroups_falsy, whenTruthy_None.
Qed.

Lemma updateContent_dependencies versionsMap (fields processed : gmap string Toml) log :
  ManifestSpec.okShape fields →
  TOML.prop "dependencies" (processed !! "project")
  = TOML.prop "dependencies" (fields !! "project") →
  match TOML.whenTruthy
          (TOML.prop "dependencies" (TOML.prop "project" (Some (TTable fields)))) with
  | Some dependencies =>
      UvWorkspaceToml.updateDependencies versionsMap dependencies (Document processed, log)
  | None => Ok (Document processed, log)
  end
  = Ok (Document (alter (ManifestSpec.setDependencies versionsMap) "project" processed), log).
Proof.
  intros (_ & _ & Hdeps) Hsame. cbn [TOML.prop]. rewrite <-Hsame in *.
  destruct (TOML.whenTruthy (TOML.prop "dependencies" (processed !! "project")))
    as [v|] eqn:Hv.
  - destruct (Hdeps v eq_refl) as [deps ->]. apply whenTruthy_Some in Hv as [Hv _].
    destruct (processed !! "project") as [[| | | | |project]|] eqn:Hp; try done.
    cbn [TOML.prop] in Hv. unfold UvWorkspaceToml.updateDependencies.
    rewrite (forEach_typed _ _ _ _ _ _ _ _ Hp Hv).
    rewrite <-(insert_as_alter (ManifestSpec.setDependencies versionsMap) _ _ _ Hp).
    cbn [ManifestSpec.setDependencies].
    by rewrite <-(insert_as_alter (ManifestSpec.rewriteDeps versionsMap) _ _ _ Hv).
  - rewrite alter_noop; [done|]. intros x Hx. rewrite Hx in Hv.
    destruct x as [| | | | |project]; try done.
    cbn [ManifestSpec.setDependencies]. f_equal. apply alter_noop.
    intros y Hy. cbn [TOML.prop] in Hv. rewrite Hy in Hv.
    by apply rewriteDeps_falsy, whenTruthy_None.
Qed.

(** On a manifest of such a shape the updater returns, logs nothing, and its
    result is the structural rewrite. *)
Lemma updateContent_rewrite version versionsMap (fields : gmap string Toml) :
  ManifestSpec.okShape fields →
  UvWorkspaceToml.updateContent version (Some versionsMap) (Document fields)
  = Ok (Document (ManifestSpec.rewrite version versionsMap fields), []).
Proof.
  intros Hok. unfold UvWorkspaceToml.updateContent, ManifestSpec.rewrite.
  cbn [TOML.parse mbind Result_bind].
  rewrite (updateContent_version version fields Hok). cbn [mbind Result_bind].
  rewrite (updateContent_groups versionsMap fields _ [] Hok)
    by (by rewrite lookup_alter_ne).
  cbn [mbind Result_bind].
  apply (updateContent_dependencies versionsMap fields _ [] Hok).
  rewrite lookup_alter_ne by done. rewrite lookup_alter_eq.
  destruct (fields !! "project") as [[| | | | |project]|]; try done.
  cbn. by rewrite lookup_alter_ne.
Qed.

(** ** What a run to the end tells about the manifest *)

Lemma forEachDep_Ok versionsMap prefix onFailure items :
  ∀ i st st',
    UvWorkspaceToml.forEachDep versionsMap prefix onFailure i items st = Ok st' →
    ∃ deps, items = TString <$> deps.
Proof.
  induction items as [|item items IH]; intros i st st' Hrun; [by exists []|].
  cbn [UvWorkspaceToml.forEachDep] in Hrun.
  destruct item as [dep| | | | |]; try discriminate Hrun.
  destruct (UvWorkspaceToml.updateOne _ _ _ _ _) as [st1|]; [|discriminate Hrun].
  cbn [mbind Result_bind] in Hrun. destruct (IH _ _ _ Hrun) as [deps ->].
  by exists (dep :: deps).
Qed.

Lemma forEach_Ok versionsMap prefix onFailure t st st' :
  UvWorkspaceToml.forEach versionsMap prefix onFailure t st = Ok st' →
  ManifestSpec.typedDeps t.
Proof.
  destruct t as [| | | |items|]; try discriminate. cbn [UvWorkspaceToml.forEach].
  intros Hrun. destruct (forEachDep_Ok _ _ _ _ _ _ _ Hrun) as [deps ->]. by exists deps.
Qed.

Lemma updateGroups_Ok versionsMap l :
  ∀ st st',
    UvWorkspaceToml.updateGroups versionsMap l st = Ok st' →
    Forall (λ kv, ManifestSpec.typedDeps kv.2) l.
Proof.
  induction l as [|[g t] l IH]; intros st st' Hrun; [done|].
  cbn [UvWorkspaceToml.updateGroups] in Hrun.
  destruct (UvWorkspaceToml.forEach _ _ _ _ _) as [st1|] eqn:Hfirst; [|discriminate Hrun].
  cbn [mbind Result_bind] in Hrun. apply Forall_cons. split.
  - by eapply forEach_Ok.
  - by eapply IH.
Qed.

Lemma Forall_imap_snd {A} (P : A → Prop) (l : list A) :
  ∀ f : nat → string,
    Forall (λ kv, P kv.2) (imap (λ i v, (f i, v)) l) → Forall P l.
Proof.
  induction l as [|x l IH]; intros f Hall; [done|].
  rewrite imap_cons in Hall. apply Forall_cons in Hall as [Hx Hall].
  apply Forall_cons. split; [done|]. by apply (IH (f ∘ S)).
Qed.

Lemma updateDependencyGroups_Ok versionsMap w st st' :
  TOML.truthy w = true →
  UvWorkspaceToml.updateDependencyGroups versionsMap w st = Ok st' →
  ManifestSpec.okGroups w.
Proof.
  intros Htruthy Hrun. unfold UvWorkspaceToml.updateDependencyGroups in Hrun.
  apply updateGroups_Ok in Hrun.
  destruct w as [s|z|b|b text|items|groups]; cbn [ManifestSpec.okGroups TOML.entries] in *;
    try done.
  - destruct s as [|a s]; [done|]. cbn in Hrun. apply Forall_cons in Hrun as [[deps Hdeps] _].
    discriminate Hdeps.
  - by eapply Forall_imap_snd.
  - intros g deps Hg. rewrite Forall_forall in Hrun.
    apply (Hrun (g, deps)). by apply elem_of_map_to_list.
Qed.

(** The updater returns only on the manifests of [okShape]. *)
Lemma updateContent_Ok version versionsMap (fields : gmap string Toml) out log :
  UvWorkspaceToml.updateContent version (Some versionsMap) (Document fields) = Ok (out, log) →
  ManifestSpec.okShape fields.
Proof.
  unfold UvWorkspaceToml.updateContent. cbn [TOML.parse mbind Result_bind TOML.prop].
  intros Hrun. split; [|split].
  - intros v Hv. rewrite Hv in Hrun. apply whenTruthy_Some in Hv as [Hv _].
    destruct (fields !! "project") as [[| | | | |project]|] eqn:Hp; try done.
    cbn [TOML.prop] in Hv. unfold TOML.replaceTomlValue in Hrun.
    rewrite replaceAt_table, Hp in Hrun. cbn [mbind option_bind] in Hrun.
    rewrite replaceAt_table, Hv in Hrun. cbn [mbind option_bind] in Hrun.
    destruct v as [s| | | | |]; try discriminate Hrun. by exists s.
  - intros v Hv. rewrite Hv in Hrun. apply whenTruthy_Some in Hv as [_ Hv].
    destruct (match TOML.whenTruthy (TOML.prop "version" _) with Some _ => _ | None => _ end)
      as [processed|]; [|discriminate Hrun].
    cbn [mbind Result_bind] in Hrun.
    destruct (UvWorkspaceToml.updateDependencyGroups _ _ _) as [st|] eqn:Hgroups;
      [|discriminate Hrun].
    by eapply updateDependencyGroups_Ok.
  - intros v Hv. rewrite Hv in Hrun.
    destruct (match TOML.whenTruthy (TOML.prop "version" _) with Some _ => _ | None => _ end)
      as [processed|]; [|discriminate Hrun].
    cbn [mbind Result_bind] in Hrun.
    destruct (match TOML.whenTruthy (fields !! "dependency-groups") with
              | Some _ => _ | None => _ end) as [st|]; [|discriminate Hrun].
    cbn [mbind Result_bind] in Hrun. by eapply forEach_Ok.
Qed.

(** The manifests of the declared interface are among them. *)
Lemma wellTyped_okShape fields : ManifestSpec.wellTyped fields → ManifestSpec.okShape fields.
Proof.
  intros (_ & Hversion & Hdeps & Hgroups). split; [|split].
  - intros v Hv. apply whenTruthy_Some in Hv as [Hv _]. eauto.
  - intros v Hv. apply whenTruthy_Some in Hv as [Hv _].
    by destruct (Hgroups v Hv) as (groups & -> & Htyped).
  - intros v Hv. apply whenTruthy_Some in Hv as [Hv _]. eauto.
Qed.

(** ** A manifest none of whose dependencies is released *)

Lemma updateDependencyString_no_key versionsMap dep :
  (∀ name versionSpec,
     UvWorkspaceToml.matchDependency dep = Some (name, versionSpec) →
     versionsMap !! name = None) →
  UvWorkspaceToml.updateDependencyString (Some versionsMap) dep = dep.
Proof.
  intros Hnone. unfold UvWorkspaceToml.updateDependencyString.
  destruct (UvWorkspaceToml.matchDependency dep) as [[name versionSpec]|]; [|done].
  by rewrite (Hnone name versionSpec eq_refl).
Qed.

Lemma rewriteDeps_no_key versionsMap t :
  ManifestSpec.typedDeps t →
  ManifestSpec.namesNoKey versionsMap t →
  ManifestSpec.rewriteDeps versionsMap t = t.
Proof.
  intros [deps ->] Hnone. cbn [ManifestSpec.rewriteDeps]. f_equal.
  rewrite <-list_fmap_compose. apply list_fmap_ext. intros i dep Hdep.
  cbn. f_equal. apply updateDependencyString_no_key.
  intros name versionSpec Hmatch.
  eapply (Hnone deps dep); [done| |done]. by eapply list_elem_of_lookup_2.
Qed.

Lemma rewrite_no_key version versionsMap (fields : gmap string Toml) :
  (∀ t, ManifestSpec.isDependencyList fields t → ManifestSpec.namesNoKey versionsMap t) →
  ManifestSpec.okShape fields →
  ManifestSpec.rewrite version versionsMap fields
  = alter (ManifestSpec.setVersionField version) "project" fields.
Proof.
  intros Hnone (_ & Hgroups & Hdeps). unfold ManifestSpec.rewrite.
  rewrite (alter_noop (ManifestSpec.rewriteGroups versionsMap)).
  - apply alter_noop. intros x Hx. rewrite lookup_alter_eq in Hx.
    destruct (fields !! "project") as [[| | | | |project]|] eqn:Hp; try done;
      cbn in Hx; injection Hx as <-; try done.
    cbn [ManifestSpec.setDependencies]. f_equal. apply alter_noop.
    intros y Hy. rewrite lookup_alter_ne in Hy by done.
    destruct (TOML.truthy y) eqn:Htruthy; [|by apply rewriteDeps_falsy].
    apply rewriteDeps_no_key.
    + apply Hdeps. cbn [TOML.prop]. rewrite Hy. unfold TOML.whenTruthy. by rewrite Htruthy.
    + apply Hnone. left. by rewrite Hp.
  - intros x Hx. rewrite lookup_alter_ne in Hx by done.
    destruct (TOML.truthy x) eqn:Htruthy; [|by apply rewriteGroups_falsy].
    assert (Hok : ManifestSpec.okGroups x) by (apply Hgroups; rewrite Hx; unfold TOML.whenTruthy; by rewrite Htruthy).
    destruct x as [| | | |items|groups]; try done; cbn in Hok |- *; f_equal.
    + apply list_eq. intros i. rewrite list_lookup_fmap.
      destruct (items !! i) as [t|] eqn:Hi; [|done]. cbn. f_equal.
      apply rewriteDeps_no_key.
      * rewrite Forall_forall in Hok. apply Hok. by eapply list_elem_of_lookup_2.
      * apply Hnone. right. right. eauto.
    + apply map_eq. intros g. rewrite lookup_fmap.
      destruct (groups !! g) as [t|] eqn:Hg; [|done]. cbn. f_equal.
      apply rewriteDeps_no_key; [by eapply Hok|]. apply Hnone. right. left. eauto.
Qed.

(** A manifest whose name is not a key and which depends on no key still
    has its version overwritten. *)
Lemma updateContent_overwrites_version :
  Sample.coreBumped !! "util" = None
  ∧ UvWorkspaceToml.updateDependencyString (Some Sample.coreBumped) "requests>=2.0"
    = "requests>=2.0"
  ∧ UvWorkspaceToml.updateContent (release 2 0 0) (Some Sample.coreBumped)
      (Sample.project "util" (TString "1.0.0") ["requests>=2.0"])
    = Ok (Sample.project "util" (TString "2.0.0") ["requests>=2.0"], [])
  ∧ Sample.project "util" (TString "2.0.0") ["requests>=2.0"]
    ≠ Sample.project "util" (TString "1.0.0") ["requests>=2.0"].
Proof.
  repeat split; try (vm_compute; reflexivity).
  intros H.
  apply (f_equal (λ c, match c with
                       | Document fields => TOML.prop "version" (fields !! "project")
                       | Malformed _ => None
                       end)) in H.
  vm_compute in H. discriminate H.
Qed.

(** C9 (amended).  For a manifest whose own name is not a key of the
    versions map and none of whose dependency specifiers names a key,
    whenever the update returns it has logged nothing and has left every
    dependency specifier and every other field as it was, except the
    package's own version field: a non-empty [project.version] is set to
    the version of the updater.  The update does return on every manifest
    of [okShape], so on every manifest of the declared interface. *)
Theorem updateContent_untouched_dependencies
    (version : Version) (versionsMap : VersionsMap) (fields : gmap string Toml) :
  (∀ name, TOML.prop "name" (fields !! "project") = Some (TString name) →
           versionsMap !! name = None) →
  (∀ t, ManifestSpec.isDependencyList fields t → ManifestSpec.namesNoKey versionsMap t) →
  (∀ out log,
     UvWorkspaceToml.updateContent version (Some versionsMap) (Document fields)
     = Ok (out, log) →
     log = []
     ∧ out = Document (alter (ManifestSpec.setVersionField version) "project" fields)
     ∧ ∃ fields',
         out = Document fields'
         ∧ (∀ k, k ≠ "project" → fields' !! k = fields !! k)
         ∧ (∀ k, k ≠ "version" →
                 TOML.prop k (fields' !! "project") = TOML.prop k (fields !! "project"))
         ∧ TOML.prop "version" (fields' !! "project")
           = ManifestSpec.rewriteVersion version
               <$> TOML.prop "version" (fields !! "project"))
  ∧ (ManifestSpec.okShape fields →
     ∃ out,
       UvWorkspaceToml.updateContent version (Some versionsMap) (Document fields)
       = Ok (out, [])).
Proof.
  intros _ Hnone. split.
  - intros out log Hrun. pose proof (updateContent_Ok _ _ _ _ _ Hrun) as Hok.
    rewrite (updateContent_rewrite _ _ _ Hok), (rewrite_no_key _ _ _ Hnone Hok) in Hrun.
    injection Hrun as <- <-. split; [done|]. split; [done|].
    eexists. split; [reflexivity|]. split; [|split].
    + intros k Hk. by rewrite lookup_alter_ne.
    + intros k Hk. rewrite lookup_alter_eq.
      destruct (fields !! "project") as [[]|]; try done.
      cbn. by rewrite lookup_alter_ne.
    + rewrite lookup_alter_eq.
      destruct (fields !! "project") as [[| | | | |project]|]; try done.
      cbn. by rewrite lookup_alter_eq.
  - intros Hok. eexists. by apply updateContent_rewrite.
Qed.

Lemma updateContent_untouched_dependencies_witness :
  UvWorkspaceToml.updateContent (release 2 0 0) (Some Sample.coreBumped)
    (Sample.project "util" (TString "1.0.0") ["requests>=2.0"])
  = Ok (Sample.project "util" (TString "2.0.0") ["requests>=2.0"], [])
  ∧ Sample.project "util" (TString "2.0.0") ["requests>=2.0"]
    = Document
        (alter (ManifestSpec.setVersionField (release 2 0 0)) "project"
           {[ "project" := TTable {[ "name" := TString "util";
                                     "version" := TString "1.0.0";
                                     "dependencies" :=
                                       TArray (TString <$> ["requests>=2.0"]) ]} ]}).
Proof.
  destruct (updateContent_untouched_dependencies (release 2 0 0) Sample.coreBumped
              {[ "project" := TTable {[ "name" := TString "util";
                                        "version" := TString "1.0.0";
                                        "dependencies" :=
                                          TArray (TString <$> ["requests>=2.0"]) ]} ]})
    as [Hreturned _].
  - intros name [= <-]. reflexivity.
  - intros t [Ht|[(groups & g & Hgroups & _)|(items & i & Hgroups & _)]];
      [|discriminate Hgroups..].
    injection Ht as <-. intros deps dep name versionSpec Heq Hdep Hmatch.
    injection Heq as Heq.
    destruct deps as [|d [|d' deps]]; try discriminate Heq. injection Heq as <-.
    apply list_elem_of_singleton in Hdep as ->.
    vm_compute in Hmatch. injection Hmatch as <- _. reflexivity.
  - destruct (Hreturned (Sample.project "util" (TString "2.0.0") ["requests>=2.0"]) [])
      as (_ & Hout & _); [vm_compute; reflexivity|].
    split; [vm_compute; reflexivity | exact Hout].
Defined.

(** ** Rewriting a specifier twice *)

Lemma append_nil s : "" +:+ s = s.
Proof. reflexivity. Qed.

Lemma every_append p s t : Js.every p (s +:+ t) = Js.every p s && Js.every p t.
Proof.
  induction s as [|a s IH]; [done|].
  rewrite append_cons. cbn [Js.every]. rewrite IH. by destruct (p a).
Qed.

Lemma every_impl (p q : ascii → bool) s :
  (∀ a, p a = true → q a = true) → Js.every p s → Js.every q s.
Proof.
  intros Hpq. induction s as [|a s IH]; [done|]. cbn [Js.every].
  intros [Ha Hs]%andb_prop_elim. apply andb_prop_intro. split; [|by apply IH].
  apply Is_true_true. apply Hpq. by apply Is_true_true.
Qed.

Lemma span_every p s : Js.every p (Js.span p s).1.
Proof.
  induction s as [|a s IH]; [done|]. cbn [Js.span].
  destruct (p a) eqn:Ha; [|done].
  destruct (Js.span p s) as [x y]. cbn [fst Js.every] in *. by rewrite Ha.
Qed.

Lemma span_all p s : Js.every p s → Js.span p s = (s, "").
Proof.
  induction s as [|a s IH]; [done|]. cbn [Js.every Js.span].
  intros [Ha Hs]%andb_prop_elim. apply Is_true_true in Ha. rewrite Ha.
  by rewrite (IH Hs).
Qed.

Lemma span_append p x c y :
  Js.every p x → p c = false → Js.span p (x +:+ String c y) = (x, String c y).
Proof.
  intros Hx Hc. induction x as [|a x IH].
  - rewrite append_nil. cbn [Js.span]. by rewrite Hc.
  - cbn [Js.every] in Hx. apply andb_prop_elim in Hx as [Ha Hx].
    apply Is_true_true in Ha. rewrite append_cons. cbn [Js.span].
    by rewrite Ha, (IH Hx).
Qed.

Lemma matchDependency_name dep name versionSpec :
  UvWorkspaceToml.matchDependency dep = Some (name, versionSpec) →
  Js.every UvWorkspaceToml.isNameChar name ∧ name ≠ "".
Proof.
  unfold UvWorkspaceToml.matchDependency.
  pose proof (span_every UvWorkspaceToml.isNameChar dep) as Hevery.
  destruct (Js.span UvWorkspaceToml.isNameChar dep) as [[|a x] rest]; [done|].
  intros [= <- _]. done.
Qed.

Lemma matchDependency_pinned name c operator text :
  Js.every UvWorkspaceToml.isNameChar name → name ≠ "" →
  UvWorkspaceToml.isNameChar c = false →
  Js.every (λ a, negb (Js.isLineTerminator a)) (String c operator +:+ text) →
  UvWorkspaceToml.matchDependency (name +:+ String c operator +:+ text)
  = Some (name, String c operator +:+ text).
Proof.
  intros Hname Hne Hc Hline. unfold UvWorkspaceToml.matchDependency.
  rewrite append_cons, (span_append _ _ _ _ Hname Hc).
  destruct name as [|a name]; [done|].
  rewrite <-append_cons. by rewrite (span_all _ _ Hline).
Qed.

Lemma startsWith_every p c needle s :
  Js.every p s → p c = false → Js.startsWith (String c needle) s = false.
Proof.
  intros Hs Hc. destruct s as [|b s]; [done|]. cbn [Js.startsWith Js.every] in *.
  apply andb_prop_elim in Hs as [Hb _]. case_decide; [|done].
  subst. by rewrite Hc in Hb.
Qed.

Lemma includes_step needle c s :
  Js.includes needle (String c s) = Js.startsWith needle (String c s) || Js.includes needle s.
Proof. reflexivity. Qed.

Lemma startsWith_step a needle b s :
  Js.startsWith (String a needle) (String b s)
  = if decide (a = b) then Js.startsWith needle s else false.
Proof. reflexivity. Qed.

Lemma plain_no_equals v :
  ManifestSpec.plain v → Js.every (λ a, negb (bool_decide (a = "="%char))) (toString v).
Proof.
  apply every_impl. intros a. unfold ManifestSpec.plainChar.
  by destruct (bool_decide (a = "="%char)).
Qed.

Lemma plain_no_caret v :
  ManifestSpec.plain v → Js.every (λ a, negb (bool_decide (a = "^"%char))) (toString v).
Proof.
  apply every_impl. intros a. unfold ManifestSpec.plainChar.
  destruct (bool_decide (a = "="%char)); [done|]. by destruct (bool_decide (a = "^"%char)).
Qed.

Lemma plain_no_line_terminator v :
  ManifestSpec.plain v → Js.every (λ a, negb (Js.isLineTerminator a)) (toString v).
Proof.
  apply every_impl. intros a. unfold ManifestSpec.plainChar.
  destruct (bool_decide (a = "="%char)); [done|].
  by destruct (bool_decide (a = "^"%char)).
Qed.

Lemma includes_second p a b needle s :
  Js.every p s → p b = false → Js.includes (String a (String b needle)) s = false.
Proof.
  intros Hs Hb. induction s as [|c s IH]; [done|].
  cbn [Js.every] in Hs. apply andb_prop_elim in Hs as [_ Hs].
  rewrite includes_step, startsWith_step, (IH Hs), (startsWith_every p b needle s Hs Hb).
  by case_decide.
Qed.

Lemma pinned_is_fixed versionsMap name newVersion operator :
  Js.every UvWorkspaceToml.isNameChar name → name ≠ "" →
  versionsMap !! name = Some newVersion →
  ManifestSpec.plain newVersion →
  operator ∈ ["=="; ">="; "^"; "~"] →
  UvWorkspaceToml.updateDependencyString (Some versionsMap)
    (name +:+ operator +:+ toString newVersion)
  = name +:+ operator +:+ toString newVersion.
Proof.
  intros Hname Hne Hversion Hplain Hoperator.
  pose proof (plain_no_equals _ Hplain) as Hequals.
  pose proof (plain_no_caret _ Hplain) as Hcaret.
  pose proof (plain_no_line_terminator _ Hplain) as Hline.
  assert (He1 : ∀ n, Js.startsWith (String "="%char n) (toString newVersion) = false)
    by (intros n; apply (startsWith_every _ _ _ _ Hequals); reflexivity).
  assert (He2 : ∀ n, Js.includes (String "="%char n) (toString newVersion) = false)
    by (intros n; apply (includes_every _ _ _ _ Hequals); reflexivity).
  assert (Hc2 : ∀ n, Js.includes (String "^"%char n) (toString newVersion) = false)
    by (intros n; apply (includes_every _ _ _ _ Hcaret); reflexivity).
  assert (Hg2 : Js.includes ">=" (toString newVersion) = false)
    by (apply (includes_second _ _ _ _ _ Hequals); reflexivity).
  unfold UvWorkspaceToml.updateDependencyString.
  repeat (apply elem_of_cons in Hoperator as [->|Hoperator]);
    [..|by apply elem_of_nil in Hoperator];
    (rewrite matchDependency_pinned;
     [| done | done | reflexivity
      | rewrite every_append; apply andb_prop_intro; split; [exact I | exact Hline] ]);
    rewrite Hversion, !append_cons, !append_nil, ?includes_step, ?startsWith_step;
    repeat (first [rewrite decide_True by done | rewrite decide_False by done]);
    rewrite ?He1, ?He2, ?Hc2, ?Hg2; cbn [orb Js.startsWith]; reflexivity.
Qed.

Lemma updateDependencyString_cases versionsMap dep :
  UvWorkspaceToml.updateDependencyString (Some versionsMap) dep = dep
  ∨ ∃ name newVersion operator,
      Js.every UvWorkspaceToml.isNameChar name ∧ name ≠ ""
      ∧ versionsMap !! name = Some newVersion
      ∧ operator ∈ ["=="; ">="; "^"; "~"]
      ∧ UvWorkspaceToml.updateDependencyString (Some versionsMap) dep
        = name +:+ operator +:+ toString newVersion.
Proof.
  unfold UvWorkspaceToml.updateDependencyString.
  destruct (UvWorkspaceToml.matchDependency dep) as [[name versionSpec]|] eqn:Hmatch;
    [|by left].
  destruct (versionsMap !! name) as [newVersion|] eqn:Hversion; [|by left].
  destruct (matchDependency_name _ _ _ Hmatch) as [Hname Hne].
  right. exists name, newVersion.
  repeat case_match; eexists; (split; [done|]); (split; [done|]); (split; [done|]);
    (split; [|reflexivity]); set_solver.
Qed.

Lemma updateDependencyString_idempotent versionsMap dep :
  (∀ name newVersion, versionsMap !! name = Some newVersion → ManifestSpec.plain newVersion) →
  UvWorkspaceToml.updateDependencyString (Some versionsMap)
    (UvWorkspaceToml.updateDependencyString (Some versionsMap) dep)
  = UvWorkspaceToml.updateDependencyString (Some versionsMap) dep.
Proof.
  intros Hplain.
  destruct (updateDependencyString_cases versionsMap dep)
    as [Hsame|(name & newVersion & operator & Hname & Hne & Hversion & Hoperator & Hout)].
  - by rewrite !Hsame.
  - rewrite Hout. apply pinned_is_fixed; eauto.
Qed.

Section idempotence.
Variables (version : Version) (versionsMap : VersionsMap).
Hypothesis Hplain :
  ∀ name newVersion, versionsMap !! name = Some newVersion → ManifestSpec.plain newVersion.

Abbreviation onProject := (ManifestSpec.onProject version versionsMap).

Lemma rewriteItem_idempotent item :
  ManifestSpec.rewriteItem versionsMap (ManifestSpec.rewriteItem versionsMap item)
  = ManifestSpec.rewriteItem versionsMap item.
Proof.
  destruct item; try done. cbn. f_equal. by apply updateDependencyString_idempotent.
Qed.

Lemma rewriteDeps_idempotent t :
  ManifestSpec.rewriteDeps versionsMap (ManifestSpec.rewriteDeps versionsMap t)
  = ManifestSpec.rewriteDeps versionsMap t.
Proof.
  destruct t; try done. cbn. f_equal. rewrite <-list_fmap_compose.
  apply list_fmap_ext. intros i item _. apply rewriteItem_idempotent.
Qed.

Lemma rewriteGroups_idempotent t :
  ManifestSpec.rewriteGroups versionsMap (ManifestSpec.rewriteGroups versionsMap t)
  = ManifestSpec.rewriteGroups versionsMap t.
Proof.
  destruct t as [| | | |items|groups]; try done; cbn; f_equal.
  - rewrite <-list_fmap_compose. apply list_fmap_ext.
    intros i t _. apply rewriteDeps_idempotent.
  - rewrite <-map_fmap_compose. apply map_fmap_ext.
    intros g t _. apply rewriteDeps_idempotent.
Qed.

Lemma rewriteVersion_idempotent t :
  ManifestSpec.rewriteVersion version (ManifestSpec.rewriteVersion version t)
  = ManifestSpec.rewriteVersion version t.
Proof.
  destruct t as [s| | | | |]; try done. cbn. case_decide as Hs.
  - cbn. by rewrite decide_True.
  - cbn. by rewrite decide_False by apply toString_nonempty.
Qed.

Lemma onProject_lookup (project : gmap string Toml) k :
  alter (ManifestSpec.rewriteDeps versionsMap) "dependencies"
    (alter (ManifestSpec.rewriteVersion version) "version" project) !! k
  = if decide (k = "dependencies")
    then ManifestSpec.rewriteDeps versionsMap <$> project !! k
    else if decide (k = "version")
         then ManifestSpec.rewriteVersion version <$> project !! k
         else project !! k.
Proof.
  rewrite !lookup_alter. repeat case_decide; subst; try done.
Qed.

Lemma onProject_idempotent t : onProject (onProject t) = onProject t.
Proof.
  destruct t as [| | | | |project]; try done. unfold ManifestSpec.onProject. cbn. f_equal.
  apply map_eq. intros k. rewrite !onProject_lookup.
  repeat case_decide; try done; destruct (project !! k); cbn; try done; f_equal.
  - apply rewriteDeps_idempotent.
  - apply rewriteVersion_idempotent.
Qed.

Lemma rewrite_lookup (fields : gmap string Toml) k :
  ManifestSpec.rewrite version versionsMap fields !! k
  = if decide (k = "project") then onProject <$> fields !! k
    else if decide (k = "dependency-groups")
         then ManifestSpec.rewriteGroups versionsMap <$> fields !! k
         else fields !! k.
Proof.
  unfold ManifestSpec.rewrite. rewrite !lookup_alter.
  repeat case_decide; subst; try done. by destruct (fields !! "project").
Qed.

Lemma rewrite_idempotent (fields : gmap string Toml) :
  ManifestSpec.rewrite version versionsMap (ManifestSpec.rewrite version versionsMap fields)
  = ManifestSpec.rewrite version versionsMap fields.
Proof.
  apply map_eq. intros k. rewrite !rewrite_lookup.
  repeat case_decide; try done; destruct (fields !! k); cbn; try done; f_equal.
  - apply onProject_idempotent.
  - apply rewriteGroups_idempotent.
Qed.

Lemma rewriteDeps_typed t :
  ManifestSpec.typedDeps t → ManifestSpec.typedDeps (ManifestSpec.rewriteDeps versionsMap t).
Proof.
  intros [deps ->].
  exists (UvWorkspaceToml.updateDependencyString (Some versionsMap) <$> deps).
  cbn. f_equal. by rewrite <-!list_fmap_compose.
Qed.

End idempotence.

(** ** The shape of a rewritten manifest *)

Lemma truthy_rewriteVersion version w :
  TOML.truthy (ManifestSpec.rewriteVersion version w) = TOML.truthy w.
Proof.
  destruct w as [s| | | | |]; try done. cbn. case_decide as Hs; [done|]. cbn.
  rewrite !bool_decide_eq_false_2; [done..|]. apply toString_nonempty.
Qed.

Lemma truthy_rewriteDeps versionsMap w :
  TOML.truthy (ManifestSpec.rewriteDeps versionsMap w) = TOML.truthy w.
Proof. by destruct w. Qed.

Lemma truthy_rewriteGroups versionsMap w :
  TOML.truthy (ManifestSpec.rewriteGroups versionsMap w) = TOML.truthy w.
Proof. by destruct w. Qed.

Lemma whenTruthy_fmap (f : Toml → Toml) t v :
  (∀ w, TOML.truthy (f w) = TOML.truthy w) →
  TOML.whenTruthy (f <$> t) = Some v →
  ∃ w, TOML.whenTruthy t = Some w ∧ v = f w.
Proof.
  intros Hf Hv. destruct t as [w|]; [|done]. cbn in *. rewrite Hf in Hv.
  destruct (TOML.truthy w); [|done]. injection Hv as <-. eauto.
Qed.

Lemma rewriteGroups_okGroups versionsMap w :
  ManifestSpec.okGroups w → ManifestSpec.okGroups (ManifestSpec.rewriteGroups versionsMap w).
Proof.
  destruct w as [| | | |items|groups]; try done; cbn.
  - intros Hall. apply Forall_fmap. eapply Forall_impl; [exact Hall|].
    intros t. apply rewriteDeps_typed.
  - intros Hall g deps. rewrite lookup_fmap.
    destruct (groups !! g) as [t|] eqn:Hg; [|done]. intros [= <-].
    apply rewriteDeps_typed. by eapply Hall.
Qed.

Lemma prop_rewrite version versionsMap (fields : gmap string Toml) k :
  TOML.prop k (ManifestSpec.rewrite version versionsMap fields !! "project")
  = if decide (k = "dependencies")
    then ManifestSpec.rewriteDeps versionsMap <$> TOML.prop k (fields !! "project")
    else if decide (k = "version")
         then ManifestSpec.rewriteVersion version <$> TOML.prop k (fields !! "project")
         else TOML.prop k (fields !! "project").
Proof.
  rewrite rewrite_lookup, decide_True by done.
  destruct (fields !! "project") as [[| | | | |project]|]; try by repeat case_decide.
  unfold ManifestSpec.onProject. cbn. apply onProject_lookup.
Qed.

Lemma rewrite_okShape version versionsMap (fields : gmap string Toml) :
  ManifestSpec.okShape fields →
  ManifestSpec.okShape (ManifestSpec.rewrite version versionsMap fields).
Proof.
  intros (Hversion & Hgroups & Hdeps). split; [|split].
  - intros v. rewrite prop_rewrite, decide_False, decide_True by done. intros Hv.
    apply whenTruthy_fmap in Hv as (w & Hw & ->); [|apply truthy_rewriteVersion].
    destruct (Hversion w Hw) as [s ->]. cbn. case_decide; eauto.
  - intros v. rewrite rewrite_lookup, decide_False, decide_True by done. intros Hv.
    apply whenTruthy_fmap in Hv as (w & Hw & ->); [|apply truthy_rewriteGroups].
    apply rewriteGroups_okGroups. by apply Hgroups.
  - intros v. rewrite prop_rewrite, decide_True by done. intros Hv.
    apply whenTruthy_fmap in Hv as (w & Hw & ->); [|apply truthy_rewriteDeps].
    apply rewriteDeps_typed. by apply Hdeps.
Qed.

(** ** Running the manifest updater twice *)

Example updateContent_cli :
  UvWorkspaceToml.updateContent (release 1 0 1) (Some Sample.coreBumped)
    (Document Sample.cliFields)
  = Ok (Document Sample.cliUpdated, []).
Proof. vm_compute. reflexivity. Qed.

Example updateContent_groupsArray :
  UvWorkspaceToml.updateContent (release 1 0 1) (Some Sample.coreBumped)
    (Document Sample.groupsArray)
  = Ok (Document
          {[ "project" := TTable {[ "name" := TString "cli"; "version" := TInteger 0 ]};
             "dependency-groups" := TArray [TArray [TString "core==1.1.0"; TString "pytest"]] ]},
        []).
Proof. vm_compute. reflexivity. Qed.

(** C7.  With versions whose text is that of a semantic version, whenever
    the update of a content returns, it has logged nothing and has returned
    a content on which the update changes nothing more: the second run
    returns the same content and logs nothing, and every dependency list of
    that content is already what the rewriting makes of it, so that no
    dependency edit is asked for (the version field is written again, with
    the value it has).  The update does return on every manifest of
    [okShape], so on every manifest of the declared interface. *)
Theorem updateContent_idempotent
    (version : Version) (versionsMap : VersionsMap) (content : Content) :
  (∀ name newVersion, versionsMap !! name = Some newVersion → ManifestSpec.plain newVersion) →
  (∀ out log,
     UvWorkspaceToml.updateContent version (Some versionsMap) content = Ok (out, log) →
     log = []
     ∧ UvWorkspaceToml.updateContent version (Some versionsMap) out = Ok (out, [])
     ∧ ∃ fields,
         out = Document fields
         ∧ ∀ t, ManifestSpec.isDependencyList fields t →
                ManifestSpec.rewriteDeps versionsMap t = t)
  ∧ (∀ fields,
       content = Document fields →
       ManifestSpec.okShape fields →
       ∃ out, UvWorkspaceToml.updateContent version (Some versionsMap) content = Ok (out, [])).
Proof.
  intros Hplain. split.
  - intros out log Hrun. destruct content as [raw|fields]; [discriminate Hrun|].
    pose proof (updateContent_Ok _ _ _ _ _ Hrun) as Hok.
    rewrite (updateContent_rewrite _ _ _ Hok) in Hrun. injection Hrun as <- <-.
    split; [done|]. split.
    + rewrite updateContent_rewrite by (by apply rewrite_okShape).
      by rewrite rewrite_idempotent.
    + eexists. split; [reflexivity|].
      intros t [Ht|[(groups & g & Hgroups & Ht)|(items & i & Hgroups & Ht)]].
      * rewrite prop_rewrite, decide_True in Ht by done.
        destruct (TOML.prop "dependencies" (fields !! "project")); [|done].
        injection Ht as <-. by apply rewriteDeps_idempotent.
      * rewrite rewrite_lookup, decide_False, decide_True in Hgroups by done.
        destruct (fields !! "dependency-groups") as [[| | | | |groups0]|]; try done.
        injection Hgroups as <-. rewrite lookup_fmap in Ht.
        destruct (groups0 !! g); [|done].
        injection Ht as <-. by apply rewriteDeps_idempotent.
      * rewrite rewrite_lookup, decide_False, decide_True in Hgroups by done.
        destruct (fields !! "dependency-groups") as [[| | | |items0|]|]; try done.
        injection Hgroups as <-. rewrite list_lookup_fmap in Ht.
        destruct (items0 !! i); [|done].
        injection Ht as <-. by apply rewriteDeps_idempotent.
  - intros fields -> Hok. eexists. by apply updateContent_rewrite.
Qed.

Lemma cliFields_wellTyped : ManifestSpec.wellTyped Sample.cliFields.
Proof.
  split; [|split; [|split]].
  - intros v [= <-]. eauto.
  - intros v [= <-]. eauto.
  - intros v [= <-]. by eexists.
  - intros v [= <-]. eexists. split; [reflexivity|].
    intros g t Hg. apply lookup_singleton_Some in Hg as [_ <-]. by eexists.
Qed.

Lemma updateContent_idempotent_witness :
  UvWorkspaceToml.updateContent (release 1 0 1) (Some Sample.coreBumped)
    (Document Sample.cliFields) = Ok (Document Sample.cliUpdated, [])
  ∧ UvWorkspaceToml.updateContent (release 1 0 1) (Some Sample.coreBumped)
      (Document Sample.cliUpdated) = Ok (Document Sample.cliUpdated, []).
Proof.
  destruct (updateContent_idempotent (release 1 0 1) Sample.coreBumped
              (Document Sample.cliFields)) as [Hreturned _].
  - intros name newVersion Hname. unfold Sample.coreBumped in Hname.
    apply lookup_singleton_Some in Hname as [_ <-]. vm_compute. exact I.
  - destruct (Hreturned (Document Sample.cliUpdated) []) as (_ & Hsecond & _);
      [vm_compute; reflexivity|].
    split; [vm_compute; reflexivity | exact Hsecond].
Defined.

(** ** The version that the plugin gives a package *)

(** [bumpVersion] of the plugin is the default policy on the parsed
    version of the package. *)
Lemma bumpVersion_patch env pkg bumped :
  Plugin.bumpVersion env pkg = Ok bumped
  ↔ ∃ v, Plugin.parseVersion env (Plugin.version pkg) = Ok v ∧ bumped = patchBump v.
Proof.
  unfold Plugin.bumpVersion.
  destruct (Plugin.parseVersion env (Plugin.version pkg)) as [v|e]; cbn.
  - split; [intros [= <-]; eauto | by intros (v' & [= <-] & ->)].
  - split; [done | by intros (v' & [=] & _)].
Qed.

Example patchBump_release : toString (patchBump (release 1 0 0)) = "1.0.1".
Proof. vm_compute. reflexivity. Qed.

(** ** Cycles *)






(** ** The versions map of the strategy *)

Lemma collectVersions_kept version memberManifests :
  ∀ (versionsMap : VersionsMap) name,
    versionsMap !! name = Some version →
    Strategy.collectVersions version memberManifests versionsMap !! name = Some version.
Proof.
  induction memberManifests as [|member memberManifests IH]; intros versionsMap name Hname;
    [done|].
  cbn [Strategy.collectVersions foldl]. apply IH.
  destruct (Strategy.projectName member.2) as [name'|]; [|done].
  rewrite lookup_insert. by case_decide.
Qed.

(** The strategy releases every member at the new version: each member
    manifest with a name is a key of the versions map, whether or not it
    depends on another package. *)
Lemma collectVersions_member version memberManifests member name :
  member ∈ memberManifests →
  Strategy.projectName member.2 = Some name →
  ∀ versionsMap : VersionsMap,
    Strategy.collectVersions version memberManifests versionsMap !! name = Some version.
Proof.
  induction memberManifests as [|m memberManifests IH]; intros Hin Hname versionsMap;
    [by apply elem_of_nil in Hin|].
  cbn [Strategy.collectVersions foldl].
  apply elem_of_cons in Hin as [<-|Hin]; [|by apply IH].
  rewrite Hname. apply collectVersions_kept. by rewrite lookup_insert_eq.
Qed.

Example buildUpdates_independent_members :
  Strategy.buildUpdates Sample.independentMembers (release 1 1 0)
  = Ok (let versionsMap : VersionsMap :=
          {[ "root" := release 1 1 0; "core" := release 1 1 0; "util" := release 1 1 0 ]} in
        [Strategy.mkUpdate "CHANGELOG.md" true (Strategy.Changelog (release 1 1 0));
         Strategy.mkUpdate "pyproject.toml" false
           (Strategy.UvWorkspaceToml (release 1 1 0) versionsMap);
         Strategy.mkUpdate "packages/core/pyproject.toml" false
           (Strategy.PyProjectToml (release 1 1 0));
         Strategy.mkUpdate "packages/util/pyproject.toml" false
           (Strategy.PyProjectToml (release 1 1 0));
         Strategy.mkUpdate "uv.lock" false (Strategy.UvLock versionsMap)]).
Proof. vm_compute. reflexivity. Qed.

Lemma collectVersions_values version memberManifests :
  ∀ versionsMap : VersionsMap,
    (∀ name v, versionsMap !! name = Some v → v = version) →
    ∀ name v,
      Strategy.collectVersions version memberManifests versionsMap !! name = Some v →
      v = version.
Proof.
  induction memberManifests as [|member memberManifests IH]; intros versionsMap Hall; [done|].
  cbn [Strategy.collectVersions foldl]. apply IH.
  destruct (Strategy.projectName member.2) as [name'|]; [|done].
  intros name v. rewrite lookup_insert. case_decide; [by intros [= <-]|apply Hall].
Qed.

Lemma collectVersions_origin version memberManifests :
  ∀ (versionsMap : VersionsMap) name v,
    Strategy.collectVersions version memberManifests versionsMap !! name = Some v →
    versionsMap !! name = Some v
    ∨ ∃ member, member ∈ memberManifests ∧ Strategy.projectName member.2 = Some name.
Proof.
  induction memberManifests as [|m memberManifests IH]; intros versionsMap name v Hv;
    [by left|].
  cbn [Strategy.collectVersions foldl] in Hv.
  apply IH in Hv as [Hv|(member & Hin & Hname)].
  - destruct (Strategy.projectName m.2) as [name'|] eqn:Hm; [|by left].
    apply lookup_insert_Some in Hv as [[<- <-]|[_ Hv]]; [|by left].
    right. exists m. split; [left|done].
  - right. exists member. split; [by right|done].
Qed.

(** A member that depends on nothing is released with the others, at the
    release version and not at the patch bump of its own version. *)
Lemma buildUpdates_releases_independent_member :
  ∃ before versionsMap,
    Strategy.buildUpdates Sample.independentMembers (release 1 1 0)
    = Ok (before ++ [Strategy.mkUpdate "uv.lock" false (Strategy.UvLock versionsMap)])
    ∧ Strategy.getManifest Sample.independentMembers "packages/util/pyproject.toml"
      = Ok (Some (TTable {[ "project" :=
                              TTable {[ "name" := TString "util";
                                        "version" := TString "1.0.0";
                                        "dependencies" := TArray [] ]} ]}))
    ∧ versionsMap !! "util" = Some (release 1 1 0)
    ∧ release 1 1 0 ≠ patchBump (release 1 0 0).
Proof.
  eexists [_; _; _; _], _. split; [vm_compute; reflexivity|].
  split; [vm_compute; reflexivity|]. split; [vm_compute; reflexivity|]. done.
Qed.

(** C1 (amended).  The strategy computes no closure: when [buildUpdates]
    returns, the versions map that its updaters share has as keys the name of
    the root package, when it declares one, and the names that the member
    manifests declare, whatever their dependencies, and every one of them is
    mapped to the release version.  In the plugin, the version that
    [bumpVersion] gives a package is the patch bump of the package's own
    parsed version. *)
Theorem buildUpdates_versions (env : Strategy.Env) (newVersion : Version) :
  (∀ updates,
     Strategy.buildUpdates env newVersion = Ok updates →
     ∃ root members patterns memberManifests versionsMap before,
       Strategy.getManifest env "pyproject.toml" = Ok (Some root)
       ∧ TOML.whenTruthy
           (TOML.prop "members"
              (TOML.prop "workspace" (TOML.prop "uv" (TOML.prop "tool" (Some root)))))
         = Some members
       ∧ Strategy.iterate members = Ok patterns
       ∧ Strategy.parseMemberManifests env patterns [] = Ok memberManifests
       ∧ updates
         = before ++ [Strategy.mkUpdate (Strategy.addPath env "uv.lock") false
                        (Strategy.UvLock versionsMap)]
       ∧ ∀ name v,
           versionsMap !! name = Some v
           ↔ v = newVersion
             ∧ (Strategy.projectName root = Some name
                ∨ ∃ member,
                    member ∈ memberManifests ∧ Strategy.projectName member.2 = Some name))
  ∧ (∀ (pluginEnv : Plugin.Env) pkg bumped,
       Plugin.bumpVersion pluginEnv pkg = Ok bumped
       ↔ ∃ v, Plugin.parseVersion pluginEnv (Plugin.version pkg) = Ok v
              ∧ bumped = patchBump v).
Proof.
  split; [|intros pluginEnv pkg bumped; apply bumpVersion_patch].
  unfold Strategy.buildUpdates. intros updates Hrun.
  destruct (Strategy.getManifest env "pyproject.toml") as [workspaceManifest|];
    [|discriminate Hrun].
  cbn [mbind Result_bind] in Hrun.
  destruct workspaceManifest as [root|];
    [|destruct (TOML.whenTruthy _); discriminate Hrun].
  destruct (TOML.whenTruthy _) as [members|] eqn:Hmembers; [|discriminate Hrun].
  destruct (Strategy.iterate members) as [patterns|] eqn:Hpatterns; [|discriminate Hrun].
  cbn [mbind Result_bind] in Hrun.
  destruct (Strategy.parseMemberManifests env patterns []) as [memberManifests|] eqn:Hparse;
    [|discriminate Hrun].
  cbn [mbind Result_bind] in Hrun. injection Hrun as <-.
  set (initial := match Strategy.projectName root with
                  | Some name => {[ name := newVersion ]}
                  | None => ∅
                  end : VersionsMap).
  exists root, members, patterns, memberManifests,
    (Strategy.collectVersions newVersion memberManifests initial).
  exists ((if Strategy.skipChangelog env then []
           else [Strategy.mkUpdate (Strategy.addPath env (Strategy.changelogPath env)) true
                   (Strategy.Changelog newVersion)])
          ++ Strategy.mkUpdate (Strategy.addPath env "pyproject.toml") false
               (Strategy.UvWorkspaceToml newVersion
                  (Strategy.collectVersions newVersion memberManifests initial))
             :: (Strategy.memberUpdate env newVersion
                   (Strategy.collectVersions newVersion memberManifests initial)
                 <$> memberManifests)).
  split; [done|]. split; [done|]. split; [done|]. split; [done|].
  split; [by rewrite <-app_assoc|].
  assert (Hinitial : ∀ name v, initial !! name = Some v
                               ↔ v = newVersion ∧ Strategy.projectName root = Some name).
  { intros name v. unfold initial.
    destruct (Strategy.projectName root) as [rootName|].
    - rewrite lookup_singleton_Some. split; [by intros [<- <-]|by intros [-> [= <-]]].
    - rewrite lookup_empty. split; [done|by intros [_ [=]]]. }
  intros name v. split.
  - intros Hv. split.
    + eapply collectVersions_values; [|exact Hv].
      intros n x Hx. apply Hinitial in Hx. by destruct Hx.
    + apply collectVersions_origin in Hv as [Hv|Hmember]; [|by right].
      left. apply Hinitial in Hv. by destruct Hv.
  - intros [-> [Hroot|(member & Hin & Hname)]].
    + apply collectVersions_kept. by apply Hinitial.
    + by eapply collectVersions_member.
Qed.

Lemma buildUpdates_versions_witness :
  ∃ versionsMap before,
    Strategy.buildUpdates Sample.independentMembers (release 1 1 0)
    = Ok (before ++ [Strategy.mkUpdate "uv.lock" false (Strategy.UvLock versionsMap)])
    ∧ (∀ v, versionsMap !! "util" = Some v → v = release 1 1 0).
Proof.
  destruct (proj1 (buildUpdates_versions Sample.independentMembers (release 1 1 0))
              [Strategy.mkUpdate "CHANGELOG.md" true (Strategy.Changelog (release 1 1 0));
               Strategy.mkUpdate "pyproject.toml" false
                 (Strategy.UvWorkspaceToml (release 1 1 0)
                    {[ "root" := release 1 1 0; "core" := release 1 1 0;
                       "util" := release 1 1 0 ]});
               Strategy.mkUpdate "packages/core/pyproject.toml" false
                 (Strategy.PyProjectToml (release 1 1 0));
               Strategy.mkUpdate "packages/util/pyproject.toml" false
                 (Strategy.PyProjectToml (release 1 1 0));
               Strategy.mkUpdate "uv.lock" false
                 (Strategy.UvLock {[ "root" := release 1 1 0; "core" := release 1 1 0;
                                     "util" := release 1 1 0 ]})])
    as (root & members & patterns & memberManifests & versionsMap & before
        & _ & _ & _ & _ & Hupdates & Hkeys); [vm_compute; reflexivity|].
  exists versionsMap, before. split.
  - change (Strategy.addPath Sample.independentMembers "uv.lock") with "uv.lock" in Hupdates.
    rewrite <-Hupdates. vm_compute. reflexivity.
  - intros v Hv. by apply Hkeys in Hv as [-> _].
Defined.

(** ** The earlier version of the strategy on a missing manifest *)

Example legacy_missing_manifest_skipped :
  LegacyStrategy.parseMemberManifests Sample.legacyMissing ["packages/a"] ([], [])
  = Ok ([], [LegacyStrategy.WarnNoManifest "packages/a"]).
Proof. vm_compute. reflexivity. Qed.

(** ** The text of release versions *)

Lemma pretty_N_go_every (p : ascii → bool) :
  (∀ d, p (pretty_N_char d) = true) →
  ∀ x s, Js.every p s → Js.every p (pretty_N_go x s).
Proof.
  intros Hdigit x. induction (N.lt_wf_0 x) as [x _ IH]. intros s Hs.
  destruct (decide (x = 0%N)) as [->|Hx]; [by rewrite pretty_N_go_0|].
  rewrite pretty_N_go_step by lia. apply IH.
  - apply N.div_lt; lia.
  - cbn [Js.every]. by rewrite Hdigit.
Qed.

Lemma pretty_N_every (p : ascii → bool) (x : N) :
  (∀ d, p (pretty_N_char d) = true) → Js.every p (pretty x).
Proof.
  intros Hdigit. unfold pretty, pretty_N. case_decide.
  - pose proof (Hdigit 0%N) as Hzero. cbn in Hzero. cbn [Js.every]. by rewrite Hzero.
  - by apply pretty_N_go_every.
Qed.

(** The text of a version without pre-release and build parts has digits
    and dots only. *)
Lemma release_plain a b c : ManifestSpec.plain (release a b c).
Proof.
  assert (Hdigit : ∀ d, ManifestSpec.plainChar (pretty_N_char d) = true)
    by (intros d; unfold pretty_N_char; by repeat case_match).
  unfold ManifestSpec.plain, toString. cbn [release major minor patch preRelease build].
  rewrite !every_append.
  repeat (apply andb_prop_intro; split); try exact I; by apply pretty_N_every.
Qed.

(** So has the text of every version whose pre-release and build parts are
    free of [=], [^] and line breaks, as the identifiers of a semantic
    version are. *)
Lemma toString_plain v :
  (∀ p, preRelease v = Some p → Js.every ManifestSpec.plainChar p) →
  (∀ b, build v = Some b → Js.every ManifestSpec.plainChar b) →
  ManifestSpec.plain v.
Proof.
  intros Hpre Hbuild.
  assert (Hdigit : ∀ d, ManifestSpec.plainChar (pretty_N_char d) = true)
    by (intros d; unfold pretty_N_char; by repeat case_match).
  unfold ManifestSpec.plain, toString. rewrite !every_append.
  repeat (apply andb_prop_intro; split); try exact I; try by apply pretty_N_every.
  - destruct (preRelease v) as [p|]; [|exact I].
    rewrite every_append. apply andb_prop_intro. split; [exact I|]. by apply Hpre.
  - destruct (build v) as [b|]; [|exact I].
    rewrite every_append. apply andb_prop_intro. split; [exact I|]. by apply Hbuild.
Qed.

(** * Further properties of the sources *)

(** ** Rewriting keeps the names that the graph is built from *)

Lemma matchDependency_extract dep name versionSpec :
  UvWorkspaceToml.matchDependency dep = Some (name, versionSpec) →
  Plugin.extractPackageName dep = name.
Proof.
  unfold UvWorkspaceToml.matchDependency, Plugin.extractPackageName.
  destruct (Js.span UvWorkspaceToml.isNameChar dep) as [[|a x] rest]; [done|].
  by intros [= <- _].
Qed.

Lemma matchDependency_none dep :
  UvWorkspaceToml.matchDependency dep = None → Plugin.extractPackageName dep = dep.
Proof.
  unfold UvWorkspaceToml.matchDependency, Plugin.extractPackageName.
  by destruct (Js.span UvWorkspaceToml.isNameChar dep) as [[|a x] rest].
Qed.

Lemma extract_pinned name c rest :
  Js.every UvWorkspaceToml.isNameChar name → name ≠ "" →
  UvWorkspaceToml.isNameChar c = false →
  Plugin.extractPackageName (name +:+ String c rest) = name.
Proof.
  intros Hname Hne Hc. unfold Plugin.extractPackageName.
  rewrite (span_append _ _ _ _ Hname Hc). by destruct name.
Qed.

Lemma rewritten_name (versionsMap : VersionsMap) (dependency : string) :
  Plugin.extractPackageName
    (UvWorkspaceToml.updateDependencyString (Some versionsMap) dependency)
  = Plugin.extractPackageName dependency
  ∧ (UvWorkspaceToml.updateDependencyString (Some versionsMap) dependency ≠ dependency →
     is_Some (versionsMap !! Plugin.extractPackageName dependency)).
Proof.
  unfold UvWorkspaceToml.updateDependencyString.
  destruct (UvWorkspaceToml.matchDependency dependency) as [[name versionSpec]|] eqn:Hmatch;
    [|done].
  rewrite (matchDependency_extract _ _ _ Hmatch).
  destruct (matchDependency_name _ _ _ Hmatch) as [Hname Hne].
  destruct (versionsMap !! name) as [newVersion|] eqn:Hversion.
  - split; [|eauto].
    repeat case_match; rewrite !append_cons; by apply extract_pinned.
  - split; [|done]. by apply matchDependency_extract in Hmatch.
Qed.

(** X1.  Rewriting a specifier keeps the package it names: the plugin extracts the
    same name from the rewritten specifier as from the original one, and a
    specifier is rewritten only when that name is a key of the versions
    map. *)
Theorem updateDependencyString_keeps_name
    (versionsMap : VersionsMap) (dependency : string) :
  Plugin.extractPackageName
    (UvWorkspaceToml.updateDependencyString (Some versionsMap) dependency)
  = Plugin.extractPackageName dependency
  ∧ (UvWorkspaceToml.updateDependencyString (Some versionsMap) dependency ≠ dependency →
     is_Some (versionsMap !! Plugin.extractPackageName dependency)).
Proof. apply rewritten_name. Qed.

(** X2.  The edges of a package in the dependency graph are the same before and
    after its dependency specifiers are rewritten by the updater. *)
Theorem workspaceDeps_after_rewrite
    (versionsMap : VersionsMap) (workspacePackageNames : gset string)
    (original updated : Plugin.Manifest) :
  Plugin.allDeps updated
  = UvWorkspaceToml.updateDependencyString (Some versionsMap) <$> Plugin.allDeps original →
  Plugin.workspaceDeps workspacePackageNames updated
  = Plugin.workspaceDeps workspacePackageNames original.
Proof.
  intros Hdeps. unfold Plugin.workspaceDeps. rewrite Hdeps, <-list_fmap_compose.
  f_equal. apply list_fmap_ext. intros i dep _. apply rewritten_name.
Qed.

Lemma workspaceDeps_after_rewrite_witness :
  Plugin.workspaceDeps {[ "core"; "cli" ]}
    (Sample.cliManifest ["core>=1.1.0"; "requests"] ["core~1.1.0"; "pytest"])
  = Plugin.workspaceDeps {[ "core"; "cli" ]}
      (Sample.cliManifest ["core>=1.0.0"; "requests"] ["core[x]~=1.0"; "pytest"]).
Proof.
  apply (workspaceDeps_after_rewrite Sample.coreBumped). vm_compute. reflexivity.
Defined.

(** ** The manifest updater without and with a versions map *)

Lemma version_stage version (fields : gmap string Toml) :
  let stage :=
    match TOML.whenTruthy (TOML.prop "version" (fields !! "project")) with
    | Some _ =>
        TOML.replaceTomlValue (Document fields) ["project"; "version"] (toString version)
    | None => Ok (Document fields)
    end in
  ((∀ v, TOML.whenTruthy (TOML.prop "version" (fields !! "project")) = Some v →
         ∃ s, v = TString s)
   ∧ stage = Ok (Document (alter (ManifestSpec.setVersionField version) "project" fields)))
  ∨ ((∃ v, TOML.whenTruthy (TOML.prop "version" (fields !! "project")) = Some v
           ∧ ∀ s, v ≠ TString s)
     ∧ ∃ e, stage = Throw e).
Proof.
  cbn zeta.
  destruct (TOML.whenTruthy (TOML.prop "version" (fields !! "project"))) as [v|] eqn:Hv.
  - pose proof Hv as Hv'. apply whenTruthy_Some in Hv as [Hv Htruthy].
    destruct (fields !! "project") as [[| | | | |project]|] eqn:Hp; try done.
    cbn [TOML.prop] in Hv. unfold TOML.replaceTomlValue.
    rewrite replaceAt_table, Hp. cbn [mbind option_bind].
    rewrite replaceAt_table, Hv. cbn [mbind option_bind].
    destruct v as [s| | | | |];
      try (right; split; [eexists; split; [reflexivity|done] | eexists; reflexivity]).
    left. split; [intros v [= <-]; eauto|]. cbn.
    rewrite <-(insert_as_alter (ManifestSpec.setVersionField version) _ _ _ Hp).
    cbn [ManifestSpec.setVersionField].
    rewrite <-(insert_as_alter (ManifestSpec.rewriteVersion version) _ _ _ Hv).
    cbn [ManifestSpec.rewriteVersion]. cbn in Htruthy.
    case_bool_decide; [done|]. by rewrite decide_False.
  - left. split; [done|]. rewrite alter_noop; [done|]. intros x Hx. rewrite Hx in Hv.
    destruct x as [| | | | |project]; try done.
    cbn [ManifestSpec.setVersionField]. f_equal. apply alter_noop.
    intros y Hy. cbn [TOML.prop] in Hv. rewrite Hy in Hv.
    by apply rewriteVersion_falsy, whenTruthy_None.
Qed.

Example updateContent_unread_dependencies :
  UvWorkspaceToml.updateContent (release 1 0 1) None
    (Document {[ "project" := TTable {[ "version" := TString "1.0.0";
                                         "dependencies" := TString "core" ]} ]})
  = Ok (Document {[ "project" := TTable {[ "version" := TString "1.0.1";
                                            "dependencies" := TString "core" ]} ]}, [])
  ∧ UvWorkspaceToml.updateContent (release 1 0 1) (Some Sample.coreBumped)
      (Document {[ "project" := TTable {[ "version" := TString "1.0.0";
                                           "dependencies" := TString "core" ]} ]})
    = Throw (TypeError "dependencies.forEach is not a function").
Proof. split; vm_compute; reflexivity. Qed.

(** X3.  An updater constructed without a versions map does not look at the
    dependency lists: whatever they hold, it returns when the truthy
    [project.version], if there is one, is a string; and whenever it
    returns it has logged nothing, a truthy version has become the text of
    the new version, and every other key of the document and every other
    field of [project] is as before (without a truthy version the document
    comes back as it is). *)
Theorem updateContent_without_versionsMap
    (version : Version) (fields : gmap string Toml) :
  ((∀ v, TOML.whenTruthy (TOML.prop "version" (fields !! "project")) = Some v →
         ∃ s, v = TString s) →
   ∃ out, UvWorkspaceToml.updateContent version None (Document fields) = Ok (out, []))
  ∧ (∀ out log,
       UvWorkspaceToml.updateContent version None (Document fields) = Ok (out, log) →
       log = []
       ∧ ∃ fields',
           out = Document fields'
           ∧ (∀ k, k ≠ "project" → fields' !! k = fields !! k)
           ∧ (∀ k, k ≠ "version" →
                   TOML.prop k (fields' !! "project") = TOML.prop k (fields !! "project"))
           ∧ match TOML.whenTruthy (TOML.prop "version" (fields !! "project")) with
             | Some _ =>
                 TOML.prop "version" (fields' !! "project")
                 = Some (TString (toString version))
             | None => fields' = fields
             end).
Proof.
  assert (Hrun : UvWorkspaceToml.updateContent version None (Document fields)
                 = (processedContent ←
                      match TOML.whenTruthy (TOML.prop "version" (fields !! "project")) with
                      | Some _ =>
                          TOML.replaceTomlValue (Document fields) ["project"; "version"]
                            (toString version)
                      | None => Ok (Document fields)
                      end;
                    Ok (processedContent, []))).
  { unfold UvWorkspaceToml.updateContent. cbn [TOML.parse mbind Result_bind TOML.prop].
    destruct (match TOML.whenTruthy (TOML.prop "version" (fields !! "project")) with
              | Some _ => _ | None => _ end) as [processed|]; [|done].
    cbn [mbind Result_bind].
    destruct (TOML.whenTruthy (fields !! "dependency-groups")); cbn [mbind Result_bind];
      by destruct (TOML.whenTruthy (TOML.prop "dependencies" (fields !! "project"))). }
  rewrite Hrun. clear Hrun.
  pose proof (version_stage version fields) as Hstage. cbn zeta in Hstage.
  destruct (TOML.whenTruthy (TOML.prop "version" (fields !! "project"))) as [v|] eqn:Hv.
  - destruct Hstage as [[Hok ->]|[(v' & Hv' & Hbad) [e ->]]]; cbn [mbind Result_bind].
    + split; [eauto|]. intros out log [= <- <-]. split; [done|].
      eexists. split; [reflexivity|].
      split; [intros k Hk; by rewrite lookup_alter_ne|].
      destruct (Hok v eq_refl) as [s ->].
      apply whenTruthy_Some in Hv as [Hv Htruthy].
      rewrite lookup_alter_eq.
      destruct (fields !! "project") as [[| | | | |project]|] eqn:Hp; try done.
      cbn [TOML.prop] in Hv. cbn. split.
      * intros k Hk. by rewrite lookup_alter_ne.
      * rewrite lookup_alter_eq, Hv. cbn. cbn in Htruthy.
        case_bool_decide; [done|]. by rewrite decide_False.
    + split; [|done].
      intros Hok. injection Hv' as <-. destruct (Hok v eq_refl) as [s ->].
      by destruct (Hbad s).
  - cbn [mbind Result_bind]. split; [eauto|].
    intros out log [= <- <-]. split; [done|]. by exists fields.
Qed.

Lemma updateContent_without_versionsMap_witness :
  ∃ out,
    UvWorkspaceToml.updateContent (release 1 0 1) None
      (Document {[ "project" := TTable {[ "version" := TString "1.0.0";
                                           "dependencies" := TString "core" ]} ]})
    = Ok (out, []).
Proof.
  apply (updateContent_without_versionsMap (release 1 0 1)).
  intros v Hv. vm_compute in Hv. injection Hv as <-. eauto.
Defined.

Lemma rewriteDeps_strings versionsMap deps :
  ManifestSpec.rewriteDeps versionsMap (TArray (TString <$> deps))
  = TArray (TString <$> (UvWorkspaceToml.updateDependencyString (Some versionsMap) <$> deps)).
Proof. cbn. f_equal. by rewrite <-!list_fmap_compose. Qed.

(** X4.  Whenever the updater with a versions map returns, the document has the
    same keys as before, every key other than [project] and
    [dependency-groups] has its value, [project] has the same keys, and its
    fields other than [version] and [dependencies] are as before. *)
Theorem updateContent_frame
    (version : Version) (versionsMap : VersionsMap) (fields : gmap string Toml)
    (out : Content) (log : list LogEntry) :
  UvWorkspaceToml.updateContent version (Some versionsMap) (Document fields) = Ok (out, log) →
  ∃ fields',
    out = Document fields'
    ∧ dom fields' = dom fields
    ∧ (∀ k, k ≠ "project" → k ≠ "dependency-groups" → fields' !! k = fields !! k)
    ∧ (∀ k, k ≠ "version" → k ≠ "dependencies" →
            TOML.prop k (fields' !! "project") = TOML.prop k (fields !! "project"))
    ∧ (∀ project, fields !! "project" = Some (TTable project) →
         ∃ project', fields' !! "project" = Some (TTable project')
                     ∧ dom project' = dom project).
Proof.
  intros Hrun. pose proof (updateContent_Ok _ _ _ _ _ Hrun) as Hok.
  rewrite (updateContent_rewrite _ _ _ Hok) in Hrun. injection Hrun as <- <-.
  eexists. split; [reflexivity|]. split; [|split; [|split]].
  - unfold ManifestSpec.rewrite. by rewrite !dom_alter_L.
  - intros k Hp Hg. by rewrite rewrite_lookup, !decide_False.
  - intros k Hv Hd. by rewrite prop_rewrite, !decide_False.
  - intros project Hp. rewrite rewrite_lookup, decide_True, Hp by done.
    unfold ManifestSpec.onProject. cbn. eexists. split; [reflexivity|].
    by rewrite !dom_alter_L.
Qed.

Lemma updateContent_frame_witness :
  ∃ fields',
    Document Sample.cliUpdated = Document fields'
    ∧ dom fields' = dom Sample.cliFields.
Proof.
  destruct (updateContent_frame (release 1 0 1) Sample.coreBumped Sample.cliFields
              (Document Sample.cliUpdated) [])
    as (fields' & Hout & Hdom & _); [vm_compute; reflexivity|].
  exists fields'. split; [exact Hout | exact Hdom].
Defined.

(** X5.  Whenever the updater with a versions map returns, every dependency list
    was a list of strings, and each list of [project.dependencies] and of
    the dependency groups is rewritten in place: same groups, same length,
    and at each index the rewriting of the specifier that was there. *)
Theorem updateContent_in_place
    (version : Version) (versionsMap : VersionsMap) (fields fields' : gmap string Toml)
    (log : list LogEntry) :
  UvWorkspaceToml.updateContent version (Some versionsMap) (Document fields)
  = Ok (Document fields', log) →
  (∀ items,
     TOML.prop "dependencies" (fields !! "project") = Some (TArray items) →
     ∃ deps,
       items = TString <$> deps
       ∧ TOML.prop "dependencies" (fields' !! "project")
         = Some (TArray (TString <$> (UvWorkspaceToml.updateDependencyString
                                         (Some versionsMap) <$> deps))))
  ∧ (∀ groups,
       fields !! "dependency-groups" = Some (TTable groups) →
       ∃ groups',
         fields' !! "dependency-groups" = Some (TTable groups')
         ∧ dom groups' = dom groups
         ∧ ∀ g t, groups !! g = Some t →
             ∃ deps,
               t = TArray (TString <$> deps)
               ∧ groups' !! g
                 = Some (TArray (TString <$> (UvWorkspaceToml.updateDependencyString
                                                 (Some versionsMap) <$> deps)))).
Proof.
  intros Hrun. pose proof (updateContent_Ok _ _ _ _ _ Hrun) as (_ & Hgroups & Hdeps).
  rewrite (updateContent_rewrite _ _ _ (updateContent_Ok _ _ _ _ _ Hrun)) in Hrun.
  injection Hrun as <- <-. split.
  - intros items Hitems. rewrite Hitems in Hdeps.
    destruct (Hdeps (TArray items) eq_refl) as [deps [= ->]]. exists deps. split; [done|].
    rewrite prop_rewrite, decide_True, Hitems by done. cbn [fmap option_fmap option_map].
    by rewrite rewriteDeps_strings.
  - intros groups Hg. rewrite Hg in Hgroups. specialize (Hgroups (TTable groups) eq_refl).
    cbn in Hgroups. rewrite rewrite_lookup, decide_False, decide_True, Hg by done.
    cbn. eexists. split; [reflexivity|]. split; [by rewrite dom_fmap_L|].
    intros g t Ht. destruct (Hgroups g t Ht) as [deps ->]. exists deps. split; [done|].
    rewrite lookup_fmap, Ht. cbn [fmap option_fmap option_map].
    by rewrite rewriteDeps_strings.
Qed.

Lemma updateContent_in_place_witness :
  ∃ deps,
    TString <$> ["core>=1.0.0"; "requests"] = TString <$> deps
    ∧ TOML.prop "dependencies" (Sample.cliUpdated !! "project")
      = Some (TArray (TString <$> (UvWorkspaceToml.updateDependencyString
                                      (Some Sample.coreBumped) <$> deps))).
Proof.
  destruct (updateContent_in_place (release 1 0 1) Sample.coreBumped Sample.cliFields
              Sample.cliUpdated []) as [Hdeps _]; [vm_compute; reflexivity|].
  apply Hdeps. reflexivity.
Defined.

(** ** The lock updater run again, and what it keeps *)

Lemma setVersion_table newVersion pkg pkg' :
  LockSpec.setVersion newVersion pkg = Some pkg' →
  (∀ entry, pkg ≠ TTable entry)
  ∨ ∃ entry s,
      pkg = TTable entry ∧ entry !! "version" = Some (TString s)
      ∧ pkg' = TTable (<["version" := TString newVersion]> entry).
Proof.
  destruct pkg as [| | | | |entry]; try by left.
  unfold LockSpec.setVersion. rewrite replaceAt_table. intros Hset. right.
  destruct (entry !! "version") as [[s| | | | |]|] eqn:Hversion; try discriminate Hset.
  cbn in Hset. injection Hset as <-. eauto.
Qed.

Lemma updateEntry_facts versionsMap pkg :
  UvLock.lookupVersion versionsMap (LockSpec.updateEntry versionsMap pkg)
  = UvLock.lookupVersion versionsMap pkg
  ∧ UvLock.pkgName (LockSpec.updateEntry versionsMap pkg) = UvLock.pkgName pkg
  ∧ LockSpec.updateEntry versionsMap (LockSpec.updateEntry versionsMap pkg)
    = LockSpec.updateEntry versionsMap pkg
  ∧ LockSpec.entryChanged versionsMap (LockSpec.updateEntry versionsMap pkg)
    = LockSpec.entryChanged versionsMap pkg
  ∧ (∀ k, k ≠ "version" →
          TOML.prop k (Some (LockSpec.updateEntry versionsMap pkg)) = TOML.prop k (Some pkg)).
Proof.
  destruct (UvLock.lookupVersion versionsMap pkg) as [newVersion|] eqn:Hlookup.
  2: { assert (LockSpec.updateEntry versionsMap pkg = pkg) as Hsame
         by (unfold LockSpec.updateEntry; by rewrite Hlookup).
       by rewrite !Hsame, ?Hlookup. }
  destruct (LockSpec.setVersion (toString newVersion) pkg) as [pkg'|] eqn:Hset.
  2: { assert (LockSpec.updateEntry versionsMap pkg = pkg) as Hsame
         by (unfold LockSpec.updateEntry; by rewrite Hlookup, Hset).
       by rewrite !Hsame, ?Hlookup. }
  assert (LockSpec.updateEntry versionsMap pkg = pkg') as ->
    by (unfold LockSpec.updateEntry; by rewrite Hlookup, Hset).
  destruct (setVersion_table _ _ _ Hset) as [Hother|(entry & s & -> & Hversion & ->)].
  { exfalso. unfold UvLock.lookupVersion in Hlookup.
    destruct pkg as [| | | | |entry]; try done. by destruct (Hother entry). }
  assert (Hname : TOML.prop "name" (Some (TTable (<["version" := TString (toString newVersion)]> entry)))
                  = TOML.prop "name" (Some (TTable entry)))
    by (cbn [TOML.prop]; by rewrite lookup_insert_ne).
  assert (Hsame : UvLock.lookupVersion versionsMap
                    (TTable (<["version" := TString (toString newVersion)]> entry))
                  = Some newVersion)
    by (unfold UvLock.lookupVersion in *; by rewrite Hname).
  assert (Hagain : LockSpec.setVersion (toString newVersion)
                     (TTable (<["version" := TString (toString newVersion)]> entry))
                   = Some (TTable (<["version" := TString (toString newVersion)]> entry))).
  { rewrite (setVersion_entry _ _ (toString newVersion)) by (by rewrite lookup_insert_eq).
    by rewrite insert_insert_eq. }
  split; [done|]. split; [unfold UvLock.pkgName; by rewrite Hname|].
  split; [unfold LockSpec.updateEntry; by rewrite Hsame, Hagain|].
  split.
  - unfold LockSpec.entryChanged. rewrite Hsame, Hlookup, Hagain, Hset.
    rewrite !bool_decide_eq_true_2; eauto.
  - intros k Hk. cbn [TOML.prop]. by rewrite lookup_insert_ne.
Qed.

Lemma updateEntry_version versionsMap pkg :
  TOML.prop "version" (Some (LockSpec.updateEntry versionsMap pkg))
  = TOML.prop "version" (Some pkg)
  ∨ ∃ newVersion,
      UvLock.lookupVersion versionsMap pkg = Some newVersion
      ∧ TOML.prop "version" (Some (LockSpec.updateEntry versionsMap pkg))
        = Some (TString (toString newVersion)).
Proof.
  unfold LockSpec.updateEntry.
  destruct (UvLock.lookupVersion versionsMap pkg) as [newVersion|] eqn:Hlookup; [|by left].
  destruct (LockSpec.setVersion (toString newVersion) pkg) as [pkg'|] eqn:Hset; [|by left].
  cbn [default from_option id].
  destruct (setVersion_table _ _ _ Hset) as [Hother|(entry & s & -> & Hversion & ->)].
  - exfalso. unfold UvLock.lookupVersion in Hlookup.
    destruct pkg as [| | | | |entry]; try done. by destruct (Hother entry).
  - right. exists newVersion. split; [done|]. cbn [TOML.prop]. by rewrite lookup_insert_eq.
Qed.


Lemma sameLine_refl e : LockSpec.sameLine e e.
Proof. by destruct e. Qed.






(** The second run names the version that the first one wrote. *)
Example UvLock_updateContent_second_log :
  UvLock.updateContent Sample.coreBumped
    (Document {[ "package" := TArray [Sample.lockEntry "core" "1.1.0"] ]})
  = Ok (Document {[ "package" := TArray [Sample.lockEntry "core" "1.1.0"] ]},
        [InfoUpdating "core" "1.1.0" "1.1.0"]).
Proof. vm_compute. reflexivity. Qed.

(** X7.  Whenever the lock updater returns on a document, it has kept the keys
    of the document and the value of every key but [package]; without a
    [package] array the document is returned as it is with the one warning;
    with one, the array keeps its length and every entry keeps all fields
    but [version], an entry whose name is no key is untouched, and a
    [version] that changed is the text of the version mapped to the name. *)
Theorem UvLock_updateContent_frame
    (versionsMap : VersionsMap) (fields : gmap string Toml) (out : Content)
    (log : list LogEntry) :
  UvLock.updateContent versionsMap (Document fields) = Ok (out, log) →
  ∃ fields',
    out = Document fields'
    ∧ dom fields' = dom fields
    ∧ (∀ k, k ≠ "package" → fields' !! k = fields !! k)
    ∧ ((∀ packages, fields !! "package" ≠ Some (TArray packages)) →
       fields' = fields ∧ log = [WarnNoPackages])
    ∧ (∀ packages,
         fields !! "package" = Some (TArray packages) →
         ∃ packages',
           fields' !! "package" = Some (TArray packages')
           ∧ length packages' = length packages
           ∧ ∀ i pkg, packages !! i = Some pkg →
               ∃ pkg',
                 packages' !! i = Some pkg'
                 ∧ (∀ k, k ≠ "version" → TOML.prop k (Some pkg') = TOML.prop k (Some pkg))
                 ∧ (UvLock.lookupVersion versionsMap pkg = None → pkg' = pkg)
                 ∧ (TOML.prop "version" (Some pkg') = TOML.prop "version" (Some pkg)
                    ∨ ∃ newVersion,
                        UvLock.lookupVersion versionsMap pkg = Some newVersion
                        ∧ TOML.prop "version" (Some pkg')
                          = Some (TString (toString newVersion)))).
Proof.
  destruct (updateContent_cases versionsMap (Document fields))
    as [(raw & [=] & _)
       |[(fields0 & [= <-] & Hnone & Hrun)
        |[(fields0 & packages & [= <-] & Hpackage & _ & Hrun)
         |(fields0 & packages & [= <-] & _ & _ & Hrun)]]];
    rewrite Hrun; [| |done]; intros [= <- <-].
  - exists fields. split; [done|]. split; [done|]. split; [done|]. split; [done|].
    intros packages Hpackage. by destruct (Hnone packages).
  - eexists. split; [reflexivity|].
    split; [by apply dom_insert_lookup_L|].
    split; [intros k Hk; by rewrite lookup_insert_ne|].
    split; [intros Hnone; by destruct (Hnone packages)|].
    intros packages' Hpackage'. rewrite Hpackage in Hpackage'. injection Hpackage' as <-.
    eexists. split; [by rewrite lookup_insert_eq|].
    split; [by rewrite length_fmap|].
    intros i pkg Hi. eexists. split; [by rewrite list_lookup_fmap, Hi|].
    split; [apply updateEntry_facts|]. split; [|apply updateEntry_version].
    intros Hnone. unfold LockSpec.updateEntry. by rewrite Hnone.
Qed.

Lemma UvLock_updateContent_frame_witness :
  ∃ fields',
    Document {[ "version" := TInteger 1;
                "package" := TArray [Sample.lockEntry "core" "1.1.0";
                                     Sample.lockEntry "cli" "1.0.0";
                                     Sample.lockEntry "util" "1.0.0"] ]}
    = Document fields'
    ∧ dom fields' = dom Sample.lockFields.
Proof.
  destruct (UvLock_updateContent_frame Sample.coreBumped Sample.lockFields
              (Document {[ "version" := TInteger 1;
                           "package" := TArray [Sample.lockEntry "core" "1.1.0";
                                                Sample.lockEntry "cli" "1.0.0";
                                                Sample.lockEntry "util" "1.0.0"] ]})
              [InfoUpdating "core" "1.0.0" "1.1.0"])
    as (fields' & Hout & Hdom & _); [vm_compute; reflexivity|].
  exists fields'. split; [exact Hout | exact Hdom].
Defined.

(** ** The package list of the plugin *)

Lemma truthyString_Some a s : Plugin.truthyString a = Some s → a = Some s ∧ s ≠ "".
Proof.
  destruct a as [x|]; [|done]. cbn. case_decide; [done|]. by intros [= <-].
Qed.

Lemma declaredName_nonempty manifest name :
  Plugin.declaredName manifest = Some name → name ≠ "".
Proof.
  unfold Plugin.declaredName.
  destruct (Plugin.truthyString (Plugin.projectName manifest)) as [n|] eqn:Hn.
  - intros [= <-]. by apply truthyString_Some in Hn as [_ ?].
  - intros Hp. by apply truthyString_Some in Hp as [_ ?].
Qed.

Lemma declaredVersion_nonempty manifest version :
  Plugin.declaredVersion manifest = Some (TString version) → version ≠ "".
Proof.
  unfold Plugin.declaredVersion.
  assert (Htruthy : ∀ t, TOML.whenTruthy t = Some (TString version) → version ≠ "").
  { intros t Ht. apply whenTruthy_Some in Ht as [_ Ht]. cbn in Ht. by case_bool_decide. }
  destruct (TOML.whenTruthy (Plugin.projectVersion manifest)) as [v|] eqn:Hv.
  - intros [= ->]. by eapply Htruthy.
  - apply Htruthy.
Qed.

Lemma assign_spec key c r :
  NoDup r.*1 →
  NoDup (Plugin.assign key c r).*1
  ∧ ∀ n c', (n, c') ∈ Plugin.assign key c r →
      (n = key ∧ c' = c) ∨ (n ≠ key ∧ (n, c') ∈ r).
Proof.
  induction r as [|[k c0] r IH]; cbn [Plugin.assign]; intros Hnodup.
  - split; [apply NoDup_singleton|].
    intros n c' Hin. apply list_elem_of_singleton in Hin as [= -> ->]. by left.
  - cbn in Hnodup. apply NoDup_cons in Hnodup as [Hk Hnodup].
    destruct (IH Hnodup) as [IHnodup IHin]. case_decide as Hkey.
    + subst k. split; [cbn; by apply NoDup_cons|].
      intros n c' Hin. apply elem_of_cons in Hin as [[= -> ->]|Hin]; [by left|].
      right. split; [|by right]. intros ->. apply Hk.
      apply list_elem_of_fmap. by exists (key, c').
    + split.
      * cbn. apply NoDup_cons. split; [|done]. intros Hin.
        apply list_elem_of_fmap in Hin as ([n c'] & -> & Hin). cbn in *.
        destruct (IHin _ _ Hin) as [[-> _]|[_ Hr]]; [done|].
        apply Hk. apply list_elem_of_fmap. by exists (n, c').
      * intros n c' Hin. apply elem_of_cons in Hin as [[= -> ->]|Hin].
        -- right. split; [done|]. left.
        -- destruct (IHin _ _ Hin) as [?|[? ?]]; [by left|]. right. split; [done|]. by right.
Qed.

Lemma visitMembers_listed env candidates members :
  ∀ acc r,
    Plugin.visitMembers env candidates members acc = Ok r →
    Forall (PackageSpec.listed env candidates) (Plugin.allPackages acc) →
    PackageSpec.recorded candidates acc →
    Forall (PackageSpec.listed env candidates) (Plugin.allPackages r)
    ∧ PackageSpec.recorded candidates r.
Proof.
  induction members as [|path members IH]; intros acc r Hrun Hlisted Hrecorded.
  { cbn in Hrun. by injection Hrun as <-. }
  cbn [Plugin.visitMembers] in Hrun.
  destruct (Plugin.loadManifest env candidates path) as [[content manifest]|e] eqn:Hload;
    [|discriminate Hrun].
  cbn [mbind Result_bind] in Hrun.
  destruct (Plugin.declaredName manifest) as [packageName|] eqn:Hname.
  2: { apply IH in Hrun; [done| done |]. exact Hrecorded. }
  destruct (Plugin.declaredVersion manifest) as [[version| | | | |]|] eqn:Hversion;
    try discriminate Hrun.
  apply IH in Hrun; [done| |]; cbn [Plugin.allPackages Plugin.candidatesByPackage].
  - apply Forall_app. split; [done|]. apply Forall_singleton.
    unfold PackageSpec.listed. cbn.
    split; [by eapply declaredName_nonempty|].
    split; [by eapply declaredVersion_nonempty|]. done.
  - destruct Hrecorded as [Hnodup Hin].
    assert (Hold : ∀ n c, (n, c) ∈ Plugin.candidatesByPackage acc →
              c ∈ candidates
              ∧ ∃ p, p ∈ Plugin.allPackages acc
                          ++ [Plugin.mkPackage path packageName version
                                (Plugin.addPath env path "pyproject.toml") content manifest]
                     ∧ Plugin.name p = n ∧ Plugin.path p = Plugin.candidatePath c).
    { intros n c Hnc. destruct (Hin n c Hnc) as (Hc & p & Hp & Hpn & Hpp).
      split; [done|]. exists p. split; [|done]. apply elem_of_app. by left. }
    destruct (List.find _ candidates) as [c|] eqn:Hfind; [|by split].
    apply find_some in Hfind as [Hc Hpath]. apply bool_decide_eq_true_1 in Hpath.
    destruct (assign_spec packageName c _ Hnodup) as [Hnodup' Hin'].
    split; [done|]. intros n c' Hnc.
    destruct (Hin' _ _ Hnc) as [[-> ->]|[_ Hr]]; [|by apply Hold].
    split; [by apply list_elem_of_In|]. eexists. split; [apply elem_of_app; right; left|].
    done.
Qed.

(** X8.  Every package listed by [buildAllPackages] has a non-empty name and a
    non-empty version, which are those its manifest declares, the manifest
    path built from its path, and the content and manifest loaded at that
    path. *)
Theorem buildAllPackages_listed
    (env : Plugin.Env) (candidates : list Plugin.Candidate) (r : Plugin.Packages) :
  Plugin.buildAllPackages env candidates = Ok r →
  Forall (PackageSpec.listed env candidates) (Plugin.allPackages r).
Proof.
  unfold Plugin.buildAllPackages. intros Hrun.
  destruct (Plugin.getFileContentsOnBranch env "pyproject.toml") as [content|];
    [|discriminate Hrun].
  cbn [mbind Result_bind] in Hrun.
  destruct (TOML.parse content) as [manifest|]; [|discriminate Hrun].
  cbn [mbind Result_bind] in Hrun.
  destruct (TOML.whenTruthy _) as [members|]; [|by injection Hrun as <-].
  destruct (Plugin.memberPatterns members) as [patterns|]; [|discriminate Hrun].
  cbn [mbind Result_bind] in Hrun.
  destruct (Plugin.expandAll env patterns) as [found|]; [|discriminate Hrun].
  cbn [mbind Result_bind] in Hrun.
  apply visitMembers_listed in Hrun; [by destruct Hrun|done|].
  split; [apply NoDup_nil_2|]. intros n c Hin. by apply elem_of_nil in Hin.
Qed.

Lemma buildAllPackages_listed_witness :
  ∃ r,
    Plugin.buildAllPackages Sample.sameName [] = Ok r
    ∧ Forall (PackageSpec.listed Sample.sameName []) (Plugin.allPackages r).
Proof.
  eexists. split; [vm_compute; reflexivity|].
  apply (buildAllPackages_listed Sample.sameName []). vm_compute. reflexivity.
Defined.

(** X9.  The candidates that [buildAllPackages] records by package name have
    distinct names, and each is one of the candidates given, recorded under
    the name of a listed package whose path is the candidate's. *)
Theorem buildAllPackages_recorded
    (env : Plugin.Env) (candidates : list Plugin.Candidate) (r : Plugin.Packages) :
  Plugin.buildAllPackages env candidates = Ok r →
  PackageSpec.recorded candidates r.
Proof.
  unfold Plugin.buildAllPackages. intros Hrun.
  assert (Hempty : PackageSpec.recorded candidates (Plugin.mkPackages [] [] []))
    by (split; [apply NoDup_nil_2|]; intros n c Hin; by apply elem_of_nil in Hin).
  destruct (Plugin.getFileContentsOnBranch env "pyproject.toml") as [content|];
    [|discriminate Hrun].
  cbn [mbind Result_bind] in Hrun.
  destruct (TOML.parse content) as [manifest|]; [|discriminate Hrun].
  cbn [mbind Result_bind] in Hrun.
  destruct (TOML.whenTruthy _) as [members|].
  2: { injection Hrun as <-. split; [apply NoDup_nil_2|].
       intros n c Hin. by apply elem_of_nil in Hin. }
  destruct (Plugin.memberPatterns members) as [patterns|]; [|discriminate Hrun].
  cbn [mbind Result_bind] in Hrun.
  destruct (Plugin.expandAll env patterns) as [found|]; [|discriminate Hrun].
  cbn [mbind Result_bind] in Hrun.
  apply visitMembers_listed in Hrun; [by destruct Hrun|done|done].
Qed.

Lemma buildAllPackages_recorded_witness :
  ∃ r,
    Plugin.buildAllPackages Sample.sameName [Sample.candidateA] = Ok r
    ∧ Plugin.candidatesByPackage r = [("shared", Sample.candidateA)]
    ∧ PackageSpec.recorded [Sample.candidateA] r.
Proof.
  eexists. split; [vm_compute; reflexivity|]. split; [reflexivity|].
  apply (buildAllPackages_recorded Sample.sameName [Sample.candidateA]).
  vm_compute. reflexivity.
Defined.

(** ** The nodes of the graph *)

Lemma buildGraph_step_other (names : gset string) pkgs :
  ∀ (graph : gmap string Plugin.DependencyNode) n,
    n ∉ Plugin.name <$> pkgs →
    foldl (λ graph packageInfo,
             <[Plugin.name packageInfo :=
                 Plugin.mkNode (Plugin.workspaceDeps names (Plugin.manifest packageInfo))
                   packageInfo]> graph)
          graph pkgs !! n
    = graph !! n.
Proof.
  induction pkgs as [|p pkgs IH]; intros graph n Hn; [done|].
  cbn [foldl]. rewrite fmap_cons in Hn. apply not_elem_of_cons in Hn as [Hp Hn].
  rewrite (IH _ _ Hn). by rewrite lookup_insert_ne.
Qed.

Lemma buildGraph_step_names (names : gset string) pkgs :
  ∀ graph : gmap string Plugin.DependencyNode,
    dom (foldl (λ graph packageInfo,
                  <[Plugin.name packageInfo :=
                      Plugin.mkNode (Plugin.workspaceDeps names (Plugin.manifest packageInfo))
                        packageInfo]> graph)
               graph pkgs)
    = dom graph ∪ list_to_set (Plugin.name <$> pkgs).
Proof.
  induction pkgs as [|p pkgs IH]; intros graph.
  - cbn. by rewrite (right_id_L ∅ (∪)).
  - cbn [foldl]. rewrite IH, dom_insert_L, fmap_cons, list_to_set_cons.
    by rewrite (assoc_L (∪)), (comm_L (∪) _ (dom graph)).
Qed.

(** X10.  The nodes of the graph are the names of the packages; of several
    packages with one name the last one is the value of the node; and when
    the names are distinct there are as many nodes as packages. *)
Theorem buildGraph_nodes (allPackages : list Plugin.UvPackageInfo) :
  dom (Plugin.buildGraph allPackages) = list_to_set (Plugin.name <$> allPackages)
  ∧ (∀ before p after,
       allPackages = before ++ p :: after →
       Plugin.name p ∉ Plugin.name <$> after →
       ∃ node, Plugin.buildGraph allPackages !! Plugin.name p = Some node
               ∧ Plugin.value node = p)
  ∧ (NoDup (Plugin.name <$> allPackages) →
     size (Plugin.buildGraph allPackages) = length allPackages).
Proof.
  split; [|split].
  - unfold Plugin.buildGraph. by rewrite buildGraph_step_names, dom_empty_L, (left_id_L ∅ (∪)).
  - intros before p after -> Hlast. unfold Plugin.buildGraph.
    rewrite foldl_app. cbn [foldl]. rewrite buildGraph_step_other by done.
    rewrite lookup_insert_eq. by eexists.
  - intros Hnodup. rewrite <-size_dom.
    unfold Plugin.buildGraph. rewrite buildGraph_step_names, dom_empty_L, (left_id_L ∅ (∪)).
    rewrite size_list_to_set by done. by rewrite length_fmap.
Qed.

(** ** The member manifests and the updates of the strategy *)

Lemma mapSet_spec key v (m : list (string * Toml)) :
  NoDup m.*1 →
  NoDup (Strategy.mapSet key v m).*1
  ∧ (key, v) ∈ Strategy.mapSet key v m
  ∧ (∀ k, k ∈ m.*1 → k ∈ (Strategy.mapSet key v m).*1)
  ∧ ∀ k x, (k, x) ∈ Strategy.mapSet key v m →
      (k = key ∧ x = v) ∨ (k ≠ key ∧ (k, x) ∈ m).
Proof.
  induction m as [|[k0 v0] m IH]; cbn [Strategy.mapSet]; intros Hnodup.
  - split; [apply NoDup_singleton|]. split; [left|].
    split; [intros k Hin; by apply elem_of_nil in Hin|].
    intros k x Hin. apply list_elem_of_singleton in Hin as [= -> ->]. by left.
  - cbn in Hnodup. apply NoDup_cons in Hnodup as [Hk Hnodup].
    destruct (IH Hnodup) as (IHnodup & IHkey & IHkeys & IHin). case_decide as Hkey.
    + subst k0. split; [cbn; by apply NoDup_cons|]. split; [left|]. split.
      * intros k Hin. cbn in *. done.
      * intros k x Hin. apply elem_of_cons in Hin as [[= -> ->]|Hin]; [by left|].
        right. split; [|by right]. intros ->. apply Hk.
        apply list_elem_of_fmap. by exists (key, x).
    + split; [|split; [by right|split]].
      * cbn. apply NoDup_cons. split; [|done]. intros Hin.
        apply list_elem_of_fmap in Hin as ([k x] & -> & Hin). cbn in *.
        destruct (IHin _ _ Hin) as [[-> _]|[_ Hr]]; [done|].
        apply Hk. apply list_elem_of_fmap. by exists (k, x).
      * intros k Hin. cbn in *. apply elem_of_cons in Hin as [->|Hin]; [left|].
        right. by apply IHkeys.
      * intros k x Hin. apply elem_of_cons in Hin as [[= -> ->]|Hin].
        -- right. split; [done|]. left.
        -- destruct (IHin _ _ Hin) as [?|[? ?]]; [by left|]. right. split; [done|]. by right.
Qed.

Lemma parsePaths_read env paths :
  ∀ manifests manifests',
    Strategy.parsePaths env paths manifests = Ok manifests' →
    MemberSpec.read env manifests →
    MemberSpec.read env manifests'
    ∧ (∀ k, k ∈ manifests.*1 → k ∈ manifests'.*1)
    ∧ ∀ path, path ∈ paths → path ∈ manifests'.*1.
Proof.
  induction paths as [|path paths IH]; intros manifests manifests' Hrun Hread.
  { cbn in Hrun. injection Hrun as <-. split; [done|]. split; [done|].
    intros path Hin. by apply elem_of_nil in Hin. }
  cbn [Strategy.parsePaths] in Hrun.
  destruct (Strategy.getContent env (path +:+ "/pyproject.toml")) as [content|] eqn:Hcontent;
    [|discriminate Hrun].
  destruct (TOML.parse content) as [manifest|] eqn:Hparse; [|discriminate Hrun].
  cbn [mbind Result_bind] in Hrun. destruct Hread as [Hnodup Hfetched].
  destruct (mapSet_spec path manifest manifests Hnodup) as (Hnodup' & Hkey & Hkeys & Hin).
  apply IH in Hrun as (Hread' & Hkeys' & Hpaths).
  - split; [done|]. split; [auto|].
    intros p Hp. apply elem_of_cons in Hp as [->|Hp]; [|by apply Hpaths].
    apply Hkeys'. apply list_elem_of_fmap. by exists (path, manifest).
  - split; [done|]. intros p m Hpm.
    destruct (Hin _ _ Hpm) as [[-> ->]|[_ Hold]]; [eauto|by apply Hfetched].
Qed.

Lemma parseMemberManifests_read env members :
  ∀ manifests manifests',
    Strategy.parseMemberManifests env members manifests = Ok manifests' →
    MemberSpec.read env manifests →
    MemberSpec.read env manifests'
    ∧ (∀ k, k ∈ manifests.*1 → k ∈ manifests'.*1)
    ∧ ∀ member paths path,
        member ∈ members →
        Strategy.expandWorkspaceMember env member = Ok paths →
        path ∈ paths → path ∈ manifests'.*1.
Proof.
  induction members as [|member members IH]; intros manifests manifests' Hrun Hread.
  { cbn in Hrun. injection Hrun as <-. split; [done|]. split; [done|].
    intros member paths path Hin. by apply elem_of_nil in Hin. }
  cbn [Strategy.parseMemberManifests] in Hrun.
  destruct (Strategy.expandWorkspaceMember env member) as [paths|] eqn:Hexpand;
    [|discriminate Hrun].
  cbn [mbind Result_bind] in Hrun.
  destruct (Strategy.parsePaths env paths manifests) as [manifests1|] eqn:Hpaths;
    [|discriminate Hrun].
  cbn [mbind Result_bind] in Hrun.
  destruct (parsePaths_read _ _ _ _ Hpaths Hread) as (Hread1 & Hkeys1 & Hin1).
  destruct (IH _ _ Hrun Hread1) as (Hread' & Hkeys' & Hin').
  split; [done|]. split; [auto|].
  intros m ps p Hm Hps Hp. apply elem_of_cons in Hm as [->|Hm]; [|by eapply Hin'].
  rewrite Hexpand in Hps. injection Hps as <-. auto.
Qed.

(** X11.  When the strategy has read its member manifests, the map holds each
    member path once, every entry is the parse of the content fetched at
    its path, and every path a member pattern expands to has an entry. *)
Theorem parseMemberManifests_members
    (env : Strategy.Env) (members : list string) (manifests : list (string * Toml)) :
  Strategy.parseMemberManifests env members [] = Ok manifests →
  MemberSpec.read env manifests
  ∧ ∀ member paths path,
      member ∈ members →
      Strategy.expandWorkspaceMember env member = Ok paths →
      path ∈ paths → path ∈ manifests.*1.
Proof.
  intros Hrun. apply parseMemberManifests_read in Hrun as (Hread & _ & Hin); [done|].
  split; [apply NoDup_nil_2|]. intros path manifest Hnil. by apply elem_of_nil in Hnil.
Qed.

Lemma parseMemberManifests_members_witness :
  ∃ manifests,
    Strategy.parseMemberManifests Sample.independentMembers
      ["packages/core"; "packages/util"; "packages/core"] [] = Ok manifests
    ∧ manifests.*1 = ["packages/core"; "packages/util"]
    ∧ MemberSpec.read Sample.independentMembers manifests.
Proof.
  eexists. split; [vm_compute; reflexivity|]. split; [reflexivity|].
  apply (parseMemberManifests_members Sample.independentMembers
           ["packages/core"; "packages/util"; "packages/core"]).
  vm_compute. reflexivity.
Defined.

(** X12.  Every updater that [buildUpdates] constructs releases the one new
    version: it is the version of each updater and of every entry of each
    versions map; the last update is the lock file, and the manifest
    updaters before it carry the same versions map as the lock updater. *)
Theorem buildUpdates_single_version
    (env : Strategy.Env) (newVersion : Version) (updates : list Strategy.Update) :
  Strategy.buildUpdates env newVersion = Ok updates →
  Forall (UpdateSpec.releases newVersion) updates
  ∧ ∃ versionsMap before,
      updates = before ++ [Strategy.mkUpdate (Strategy.addPath env "uv.lock") false
                             (Strategy.UvLock versionsMap)]
      ∧ Forall (λ u, ∀ v vm, Strategy.updater u = Strategy.UvWorkspaceToml v vm →
                             vm = versionsMap) before.
Proof.
  unfold Strategy.buildUpdates. intros Hrun.
  destruct (Strategy.getManifest env "pyproject.toml") as [workspaceManifest|];
    [|discriminate Hrun].
  cbn [mbind Result_bind] in Hrun.
  destruct (TOML.whenTruthy _) as [members|]; [|discriminate Hrun].
  destruct workspaceManifest as [root|]; [|discriminate Hrun].
  destruct (Strategy.iterate members) as [patterns|]; [|discriminate Hrun].
  cbn [mbind Result_bind] in Hrun.
  destruct (Strategy.parseMemberManifests env patterns []) as [memberManifests|];
    [|discriminate Hrun].
  cbn [mbind Result_bind] in Hrun. injection Hrun as <-.
  set (versionsMap := Strategy.collectVersions newVersion memberManifests _).
  assert (Hall : ∀ name x, versionsMap !! name = Some x → x = newVersion).
  { apply collectVersions_values. intros name v.
    destruct (Strategy.projectName root) as [rootName|]; [|done].
    intros Hname. by apply lookup_singleton_Some in Hname as [_ <-]. }
  split.
  - apply Forall_app. split; [by case_match; repeat constructor|].
    apply Forall_cons. split; [by split|]. apply Forall_app. split.
    + apply Forall_fmap, Forall_forall. intros member _.
      unfold UpdateSpec.releases, Strategy.memberUpdate. cbn.
      destruct (TOML.whenTruthy _); [by split|done].
    + by apply Forall_singleton.
  - exists versionsMap.
    exists ((if Strategy.skipChangelog env then []
             else [Strategy.mkUpdate (Strategy.addPath env (Strategy.changelogPath env)) true
                     (Strategy.Changelog newVersion)])
            ++ Strategy.mkUpdate (Strategy.addPath env "pyproject.toml") false
                 (Strategy.UvWorkspaceToml newVersion versionsMap)
               :: (Strategy.memberUpdate env newVersion versionsMap <$> memberManifests)).
    split; [by rewrite <-app_assoc|]. apply Forall_app. split.
    + case_match; repeat constructor. intros v vm [=].
    + apply Forall_cons. split; [by intros v vm [= _ <-]|].
      apply Forall_fmap, Forall_forall. intros member _ v vm.
      unfold Strategy.memberUpdate. cbn.
      destruct (TOML.whenTruthy _); [by intros [= _ <-]|done].
Qed.

Lemma buildUpdates_single_version_witness :
  ∃ updates,
    Strategy.buildUpdates Sample.independentMembers (release 1 1 0) = Ok updates
    ∧ Forall (UpdateSpec.releases (release 1 1 0)) updates.
Proof.
  eexists. split; [vm_compute; reflexivity|].
  apply (buildUpdates_single_version Sample.independentMembers (release 1 1 0)).
  vm_compute. reflexivity.
Defined.

Lemma startsWith_manifest_suffix s :
  Js.startsWith "/pyproject.toml" (s +:+ "/pyproject.toml") = true →
  s = "" ∨ Js.startsWith "/pyproject.toml" s = true.
Proof.
  intros H.
  do 15 (destruct s as [|? s]; [first [by left | by vm_compute in H] |];
         rewrite append_cons in H; cbn [Js.startsWith] in H |- *;
         (case_decide; [subst|done])).
  by right.
Qed.

Lemma removeFirst_manifest dir :
  Js.includes "/pyproject.toml" dir = false →
  Strategy.removeFirst "/pyproject.toml" (dir +:+ "/pyproject.toml") = dir.
Proof.
  induction dir as [|a dir IH]; intros Hdir; [by vm_compute|].
  rewrite includes_step in Hdir. apply orb_false_iff in Hdir as [Hstart Hrest].
  rewrite append_cons. cbn [Strategy.removeFirst].
  destruct (Js.startsWith "/pyproject.toml" (String a (dir +:+ "/pyproject.toml")))
    eqn:Hprefix.
  - rewrite <-append_cons in Hprefix.
    apply startsWith_manifest_suffix in Hprefix as [?|Hprefix]; [done|congruence].
  - by rewrite (IH Hrest).
Qed.

(** X13.  For a glob pattern, the member paths are the directories of the
    manifests found: a file [dir/pyproject.toml] (with no earlier
    [/pyproject.toml] in [dir]) gives back [dir], so that the manifest path
    built from the member path is the file that was found. *)
Theorem expandWorkspaceMember_directories
    (env : Strategy.Env) (pattern : string) (dirs : list string) :
  Js.includes "*" pattern = true →
  Strategy.findFilesByGlobAndRef env (pattern +:+ "/pyproject.toml")
  = Ok ((λ dir, dir +:+ "/pyproject.toml") <$> dirs) →
  Forall (λ dir, Js.includes "/pyproject.toml" dir = false) dirs →
  Strategy.expandWorkspaceMember env pattern = Ok dirs.
Proof.
  intros Hglob Hfiles Hdirs. unfold Strategy.expandWorkspaceMember.
  rewrite Hglob, Hfiles. cbn [negb]. f_equal. rewrite <-list_fmap_compose.
  rewrite <-(list_fmap_id dirs) at 2. apply Forall_fmap_ext_1.
  eapply Forall_impl; [exact Hdirs|]. intros dir Hdir. by apply removeFirst_manifest.
Qed.

Lemma expandWorkspaceMember_directories_witness :
  Strategy.expandWorkspaceMember Sample.globMembers "packages/*"
  = Ok ["packages/a"; "packages/b"].
Proof.
  apply expandWorkspaceMember_directories.
  - reflexivity.
  - reflexivity.
  - repeat constructor.
Defined.

(** ** The earlier version of the strategy on fetches *)

Lemma legacy_parsePaths_total env paths :
  (∀ path content,
     LegacyStrategy.getContent env path = Some content → ∃ fields, content = Document fields) →
  ∀ state,
    ∃ manifests notes,
      LegacyStrategy.parsePaths env paths state = Ok (manifests, notes)
      ∧ state.2 `prefix_of` notes
      ∧ ∀ path manifest, (path, manifest) ∈ manifests →
          (path, manifest) ∈ state.1
          ∨ ∃ content,
              LegacyStrategy.getContent env (path +:+ "/pyproject.toml") = Some content
              ∧ TOML.parse content = Ok manifest.
Proof.
  intros Hparse. induction paths as [|path paths IH]; intros [manifests notes].
  { exists manifests, notes. split; [done|]. split; [done|]. by left. }
  cbn [LegacyStrategy.parsePaths fst snd].
  destruct (LegacyStrategy.getContent env (path +:+ "/pyproject.toml")) as [content|]
    eqn:Hcontent.
  - destruct (Hparse _ _ Hcontent) as [fields ->]. cbn [TOML.parse mbind Result_bind].
    destruct (IH (Strategy.mapSet path (TTable fields) manifests, notes))
      as (manifests' & notes' & Hrun & Hprefix & Hin).
    exists manifests', notes'. split; [done|]. split; [done|].
    intros p m Hpm. destruct (Hin _ _ Hpm) as [Hset|?]; [|by right]. cbn [fst] in Hset.
    clear -Hset Hcontent. induction manifests as [|[k v] manifests IHm].
    + cbn in Hset. apply list_elem_of_singleton in Hset as [= -> ->]. right. eauto.
    + cbn [Strategy.mapSet] in Hset. case_decide.
      * subst k. apply elem_of_cons in Hset as [[= -> ->]|Hset]; [right; eauto|].
        left. by right.
      * apply elem_of_cons in Hset as [[= -> ->]|Hset]; [left; left|].
        destruct (IHm Hset) as [?|?]; [left; by right|by right].
  - destruct (IH (manifests, notes ++ [LegacyStrategy.WarnNoManifest path]))
      as (manifests' & notes' & Hrun & Hprefix & Hin).
    exists manifests', notes'. split; [done|]. split; [|done].
    cbn [snd] in Hprefix. etrans; [|exact Hprefix]. by apply prefix_app_r.
Qed.

(** X14.  The earlier version of the strategy never fails on a fetch or on an
    expansion: when the contents that are fetched parse, it returns, keeps
    the notes logged so far, and every manifest it holds was there before
    or is the parse of the content fetched at its path. *)
Theorem legacy_parseMemberManifests_total
    (env : LegacyStrategy.Env) (members : list string)
    (state : list (string * Toml) * list LegacyStrategy.Note) :
  (∀ path content,
     LegacyStrategy.getContent env path = Some content → ∃ fields, content = Document fields) →
  ∃ manifests notes,
    LegacyStrategy.parseMemberManifests env members state = Ok (manifests, notes)
    ∧ state.2 `prefix_of` notes
    ∧ ∀ path manifest, (path, manifest) ∈ manifests →
        (path, manifest) ∈ state.1
        ∨ ∃ content,
            LegacyStrategy.getContent env (path +:+ "/pyproject.toml") = Some content
            ∧ TOML.parse content = Ok manifest.
Proof.
  intros Hparse. revert state.
  induction members as [|member members IH]; intros [manifests notes].
  { exists manifests, notes. split; [done|]. split; [done|]. by left. }
  cbn [LegacyStrategy.parseMemberManifests fst snd].
  destruct (LegacyStrategy.expandWorkspaceMember env member) as [paths found].
  destruct (legacy_parsePaths_total env paths Hparse (manifests, notes ++ found))
    as (manifests1 & notes1 & -> & Hprefix1 & Hin1).
  cbn [mbind Result_bind].
  destruct (IH (manifests1, notes1)) as (manifests' & notes' & Hrun & Hprefix & Hin).
  exists manifests', notes'. split; [done|]. split.
  - cbn [snd] in *. etrans; [|exact Hprefix]. etrans; [|exact Hprefix1].
    by apply prefix_app_r.
  - intros p m Hpm. destruct (Hin _ _ Hpm) as [Hold|?]; [|by right]. by apply Hin1.
Qed.

Lemma legacy_parseMemberManifests_total_witness :
  ∃ manifests notes,
    LegacyStrategy.parseMemberManifests Sample.legacyMissing ["packages/a"] ([], [])
    = Ok (manifests, notes).
Proof.
  destruct (legacy_parseMemberManifests_total Sample.legacyMissing ["packages/a"] ([], []))
    as (manifests & notes & Hrun & _).
  - intros path content Hcontent. vm_compute in Hcontent. discriminate Hcontent.
  - exists manifests, notes. exact Hrun.
Defined.

(** ** The dependency notes *)

Example getChangelogDepsNotes_scenario :
  DepsNotes.getChangelogDepsNotes
    (Sample.cliManifest ["core>=1.0.0"; "requests"] ["core==1.0.0"; "pytest"])
    (Sample.cliManifest ["core>=1.1.0"; "requests"] ["core==1.1.0"; "pytest"])
    Sample.coreBumped
  = DepsNotes.heading
    +:+ DepsNotes.newline +:+ "  * dependencies"
    +:+ DepsNotes.newline +:+ "    * core bumped to 1.1.0"
    +:+ DepsNotes.newline +:+ "  * dependency-groups.dev"
    +:+ DepsNotes.newline +:+ "    * core bumped to 1.1.0".
Proof. vm_compute. reflexivity. Qed.

(** A list that names a package twice gives a note even when nothing has
    changed: the second specifier is compared with the first. *)
Example getChangelogDepsNotes_repeated_name :
  DepsNotes.getChangelogDepsNotes
    (Sample.cliManifest ["core>=1.0.0"; "core<2"] [])
    (Sample.cliManifest ["core>=1.0.0"; "core<2"] [])
    Sample.coreBumped
  = DepsNotes.heading
    +:+ DepsNotes.newline +:+ "  * dependencies"
    +:+ DepsNotes.newline +:+ "    * core bumped to 1.1.0".
Proof. vm_compute. reflexivity. Qed.

Lemma compareDepLists_step originalDeps updatedVersions updatedDeps :
  ∀ depUpdates,
    (∀ updatedDep newVersion originalDep,
       updatedDep ∈ updatedDeps →
       updatedVersions !! Plugin.extractPackageName updatedDep = Some newVersion →
       DepsNotes.findOriginal originalDeps (Plugin.extractPackageName updatedDep)
       = Some originalDep →
       originalDep = "" ∨ originalDep = updatedDep) →
    foldl (DepsNotes.compare originalDeps updatedVersions) depUpdates updatedDeps
    = depUpdates.
Proof.
  induction updatedDeps as [|updatedDep updatedDeps IH]; intros depUpdates Hquiet; [done|].
  cbn [foldl]. unfold DepsNotes.compare at 2.
  assert (Hrest : ∀ updatedDep newVersion originalDep,
            updatedDep ∈ updatedDeps →
            updatedVersions !! Plugin.extractPackageName updatedDep = Some newVersion →
            DepsNotes.findOriginal originalDeps (Plugin.extractPackageName updatedDep)
            = Some originalDep →
            originalDep = "" ∨ originalDep = updatedDep)
    by (intros d v o Hd; apply Hquiet; by right).
  destruct (updatedVersions !! Plugin.extractPackageName updatedDep) as [newVersion|]
    eqn:Hversion; [|by apply IH].
  destruct (DepsNotes.findOriginal originalDeps (Plugin.extractPackageName updatedDep))
    as [originalDep|] eqn:Horiginal; [|by apply IH].
  destruct (Hquiet updatedDep newVersion originalDep) as [->| ->]; [left|done..| |].
  - rewrite bool_decide_eq_true_2 by done. by apply IH.
  - rewrite (bool_decide_eq_true_2 (updatedDep = updatedDep)) by done.
    rewrite andb_false_r. by apply IH.
Qed.

Lemma compareDepLists_quiet originalDeps updatedDeps updatedVersions :
  (∀ updatedDep newVersion originalDep,
     updatedDep ∈ updatedDeps →
     updatedVersions !! Plugin.extractPackageName updatedDep = Some newVersion →
     DepsNotes.findOriginal originalDeps (Plugin.extractPackageName updatedDep)
     = Some originalDep →
     originalDep = "" ∨ originalDep = updatedDep) →
  DepsNotes.compareDepLists originalDeps updatedDeps updatedVersions = [].
Proof. apply compareDepLists_step. Qed.

Lemma compareGroups_step prefix original updatedVersions updated :
  ∀ updates,
    Forall (λ entry,
              DepsNotes.compareDepLists (DepsNotes.groupDeps entry.1 original) entry.2
                updatedVersions = []) updated →
    DepsNotes.compareGroups prefix original updated updatedVersions updates = updates.
Proof.
  unfold DepsNotes.compareGroups.
  induction updated as [|entry updated IH]; intros updates Hquiet; [done|].
  apply Forall_cons in Hquiet as [Hentry Hquiet]. cbn [foldl]. rewrite Hentry.
  cbn [DepsNotes.record]. by apply IH.
Qed.

(** X15.  When no dependency specifier of the updated manifest names a key of the
    versions map, there are no dependency notes. *)
Theorem getChangelogDepsNotes_no_key
    (originalManifest updatedManifest : Plugin.Manifest) (updatedVersions : VersionsMap) :
  (∀ dep, dep ∈ Plugin.allDeps updatedManifest →
          updatedVersions !! Plugin.extractPackageName dep = None) →
  DepsNotes.getChangelogDepsNotes originalManifest updatedManifest updatedVersions = "".
Proof.
  intros Hnone. unfold Plugin.allDeps in Hnone.
  assert (Hlist : ∀ original deps,
            (∀ dep, dep ∈ deps → dep ∈ Plugin.allDeps updatedManifest) →
            DepsNotes.compareDepLists original deps updatedVersions = []).
  { intros original deps Hsub. apply compareDepLists_quiet.
    intros updatedDep newVersion originalDep Hin Hversion _.
    unfold Plugin.allDeps in Hsub. by rewrite (Hnone _ (Hsub _ Hin)) in Hversion. }
  assert (Hsection : ∀ prefix original section updates,
            (∀ dep, dep ∈ Plugin.sectionDeps (Some section) →
                    dep ∈ Plugin.allDeps updatedManifest) →
            DepsNotes.compareGroups prefix original section updatedVersions updates = updates).
  { intros prefix original section updates Hsub. apply compareGroups_step.
    apply Forall_forall. intros [group deps] Hin. cbn [fst snd]. apply Hlist.
    intros dep Hdep. apply Hsub. cbn [Plugin.sectionDeps].
    apply list_elem_of_In, in_concat. exists deps. split; [|by apply list_elem_of_In].
    apply list_elem_of_In, list_elem_of_fmap. by exists (group, deps). }
  unfold DepsNotes.getChangelogDepsNotes, DepsNotes.collect.
  assert (Hfirst :
    match Plugin.dependencies originalManifest, Plugin.dependencies updatedManifest with
    | Some original, Some updated =>
        DepsNotes.record "dependencies"
          (DepsNotes.compareDepLists original updated updatedVersions) []
    | _, _ => []
    end = []).
  { destruct (Plugin.dependencies originalManifest) as [original|]; [|done].
    destruct (Plugin.dependencies updatedManifest) as [updated|] eqn:Hupdated; [|done].
    rewrite Hlist; [done|]. intros dep Hdep. unfold Plugin.allDeps. rewrite Hupdated.
    apply elem_of_app. by left. }
  rewrite Hfirst.
  assert (Hoptional :
    match Plugin.optionalDependencies originalManifest,
          Plugin.optionalDependencies updatedManifest with
    | Some original, Some updated =>
        DepsNotes.compareGroups "optional-dependencies." original updated updatedVersions []
    | _, _ => []
    end = []).
  { destruct (Plugin.optionalDependencies originalManifest) as [original|]; [|done].
    destruct (Plugin.optionalDependencies updatedManifest) as [updated|] eqn:Hupdated;
      [|done].
    apply Hsection. intros dep Hdep. unfold Plugin.allDeps. rewrite Hupdated.
    apply elem_of_app. right. apply elem_of_app. by left. }
  rewrite Hoptional.
  destruct (Plugin.dependencyGroups originalManifest) as [original|]; [|done].
  destruct (Plugin.dependencyGroups updatedManifest) as [updated|] eqn:Hupdated; [|done].
  rewrite Hsection; [done|]. intros dep Hdep. unfold Plugin.allDeps. rewrite Hupdated.
  apply elem_of_app. right. apply elem_of_app. by right.
Qed.

Lemma getChangelogDepsNotes_no_key_witness :
  DepsNotes.getChangelogDepsNotes
    (Sample.cliManifest ["requests>=2.0"] ["pytest"])
    (Sample.cliManifest ["requests>=2.1"] ["pytest"])
    Sample.coreBumped = "".
Proof.
  apply getChangelogDepsNotes_no_key. intros dep Hdep. vm_compute in Hdep.
  repeat (apply elem_of_cons in Hdep as [->|Hdep]; [reflexivity|]).
  by apply elem_of_nil in Hdep.
Defined.

Lemma findOriginal_distinct deps dep :
  NotesSpec.distinctNames deps → dep ∈ deps →
  DepsNotes.findOriginal deps (Plugin.extractPackageName dep) = Some dep.
Proof.
  unfold NotesSpec.distinctNames, DepsNotes.findOriginal.
  induction deps as [|d deps IH]; intros Hnodup Hdep; [by apply elem_of_nil in Hdep|].
  rewrite fmap_cons in Hnodup. apply NoDup_cons in Hnodup as [Hd Hnodup].
  cbn [List.find]. apply elem_of_cons in Hdep as [->|Hdep].
  - by rewrite bool_decide_eq_true_2.
  - rewrite bool_decide_eq_false_2; [by apply IH|].
    intros Heq. apply Hd. rewrite Heq. by apply list_elem_of_fmap_2.
Qed.

Lemma compareDepLists_same deps updatedVersions :
  NotesSpec.distinctNames deps →
  DepsNotes.compareDepLists deps deps updatedVersions = [].
Proof.
  intros Hdistinct. apply compareDepLists_quiet.
  intros updatedDep newVersion originalDep Hin _ Hfind.
  rewrite (findOriginal_distinct _ _ Hdistinct Hin) in Hfind. injection Hfind as <-. by right.
Qed.

Lemma groupDeps_distinct section group deps :
  NoDup section.*1 → (group, deps) ∈ section → DepsNotes.groupDeps group section = deps.
Proof.
  unfold DepsNotes.groupDeps, DepsNotes.mapGet.
  induction section as [|[g d] section IH]; intros Hnodup Hin; [by apply elem_of_nil in Hin|].
  cbn in Hnodup. apply NoDup_cons in Hnodup as [Hg Hnodup]. cbn [List.find fst].
  apply elem_of_cons in Hin as [[= -> ->]|Hin].
  - by rewrite bool_decide_eq_true_2.
  - rewrite bool_decide_eq_false_2; [by apply IH|].
    intros ->. apply Hg. apply list_elem_of_fmap. by exists (group, deps).
Qed.

Lemma compareGroups_same prefix section updatedVersions updates :
  NotesSpec.distinctGroups section →
  DepsNotes.compareGroups prefix section section updatedVersions updates = updates.
Proof.
  intros [Hnodup Hlists]. apply compareGroups_step.
  rewrite Forall_forall in Hlists. apply Forall_forall. intros [group deps] Hin.
  cbn [fst snd]. rewrite (groupDeps_distinct _ _ _ Hnodup Hin).
  apply compareDepLists_same. by apply (Hlists (group, deps)).
Qed.

Lemma notes_unchanged
    (originalManifest updatedManifest : Plugin.Manifest) (updatedVersions : VersionsMap) :
  NotesSpec.distinct originalManifest →
  Plugin.dependencies updatedManifest = Plugin.dependencies originalManifest →
  Plugin.optionalDependencies updatedManifest = Plugin.optionalDependencies originalManifest →
  Plugin.dependencyGroups updatedManifest = Plugin.dependencyGroups originalManifest →
  DepsNotes.getChangelogDepsNotes originalManifest updatedManifest updatedVersions = "".
Proof.
  intros (Hdeps & Hoptional & Hgroups) Hsame1 Hsame2 Hsame3.
  unfold DepsNotes.getChangelogDepsNotes, DepsNotes.collect.
  rewrite Hsame1, Hsame2, Hsame3.
  assert (Hfirst :
    match Plugin.dependencies originalManifest, Plugin.dependencies originalManifest with
    | Some original, Some updated =>
        DepsNotes.record "dependencies"
          (DepsNotes.compareDepLists original updated updatedVersions) []
    | _, _ => []
    end = []).
  { destruct (Plugin.dependencies originalManifest) as [deps|]; [|done].
    by rewrite compareDepLists_same by auto. }
  rewrite Hfirst.
  destruct (Plugin.optionalDependencies originalManifest) as [optional|];
    destruct (Plugin.dependencyGroups originalManifest) as [groups|];
    rewrite ?compareGroups_same by auto; done.
Qed.

(** X16.  When the dependency sections of the updated manifest are those of the
    original one, and no list names a package twice, there are no
    dependency notes. *)
Theorem getChangelogDepsNotes_unchanged
    (originalManifest updatedManifest : Plugin.Manifest) (updatedVersions : VersionsMap) :
  NotesSpec.distinct originalManifest →
  Plugin.dependencies updatedManifest = Plugin.dependencies originalManifest →
  Plugin.optionalDependencies updatedManifest = Plugin.optionalDependencies originalManifest →
  Plugin.dependencyGroups updatedManifest = Plugin.dependencyGroups originalManifest →
  DepsNotes.getChangelogDepsNotes originalManifest updatedManifest updatedVersions = "".
Proof. apply notes_unchanged. Qed.

Lemma getChangelogDepsNotes_unchanged_witness :
  DepsNotes.getChangelogDepsNotes
    (Sample.cliManifest ["core>=1.0.0"; "requests"] ["core==1.0.0"; "pytest"])
    (Sample.cliManifest ["core>=1.0.0"; "requests"] ["core==1.0.0"; "pytest"])
    Sample.coreBumped = "".
Proof.
  apply getChangelogDepsNotes_unchanged; try reflexivity.
  split; [|split].
  - intros deps [= <-]. apply (bool_decide_unpack _). vm_compute. exact I.
  - intros section [=].
  - intros section [= <-]. split.
    + apply (bool_decide_unpack _). vm_compute. exact I.
    + apply Forall_singleton. apply (bool_decide_unpack _). vm_compute. exact I.
Defined.

Lemma compare_keeps originalDeps updatedVersions updatedDeps :
  ∀ depUpdates x,
    x ∈ depUpdates →
    x ∈ foldl (DepsNotes.compare originalDeps updatedVersions) depUpdates updatedDeps.
Proof.
  induction updatedDeps as [|updatedDep updatedDeps IH]; intros depUpdates x Hx; [done|].
  cbn [foldl]. apply IH. unfold DepsNotes.compare.
  repeat case_match; try done. apply elem_of_app. by left.
Qed.

Lemma compareDepLists_reports originalDeps updatedDeps updatedVersions
    updatedDep originalDep newVersion :
  updatedDep ∈ updatedDeps →
  updatedVersions !! Plugin.extractPackageName updatedDep = Some newVersion →
  DepsNotes.findOriginal originalDeps (Plugin.extractPackageName updatedDep)
  = Some originalDep →
  originalDep ≠ "" → originalDep ≠ updatedDep →
  DepsNotes.note (Plugin.extractPackageName updatedDep) newVersion
  ∈ DepsNotes.compareDepLists originalDeps updatedDeps updatedVersions.
Proof.
  intros Hin Hversion Hfind Hne Hchanged. unfold DepsNotes.compareDepLists.
  generalize (@nil string).
  induction updatedDeps as [|d updatedDeps IH]; intros depUpdates;
    [by apply elem_of_nil in Hin|].
  cbn [foldl]. apply elem_of_cons in Hin as [<-|Hin]; [|by apply IH].
  apply compare_keeps. unfold DepsNotes.compare. rewrite Hversion, Hfind.
  rewrite !bool_decide_eq_false_2 by done. cbn [negb andb].
  apply elem_of_app. right. left.
Qed.

Lemma setAdd_keeps l :
  ∀ s x, x ∈ s ∨ x ∈ l → x ∈ foldl (λ s update, DepsNotes.setAdd update s) s l.
Proof.
  induction l as [|y l IH]; intros s x Hx.
  - destruct Hx as [?|Hx]; [done|by apply elem_of_nil in Hx].
  - cbn [foldl]. apply IH. unfold DepsNotes.setAdd.
    destruct Hx as [Hx|Hx].
    + left. case_decide; [done|]. apply elem_of_app. by left.
    + apply elem_of_cons in Hx as [->|Hx]; [|by right].
      left. case_decide; [done|]. apply elem_of_app. right. left.
Qed.

Lemma mapGet_mapSet key v m k :
  DepsNotes.mapGet k (DepsNotes.mapSet key v m)
  = if decide (k = key) then Some v else DepsNotes.mapGet k m.
Proof.
  unfold DepsNotes.mapGet. induction m as [|[k0 v0] m IH]; cbn [DepsNotes.mapSet].
  - cbn. case_bool_decide; by case_decide.
  - destruct (decide (k0 = key)) as [->|Hk0]; cbn [List.find fst].
    + case_bool_decide; case_decide; try done; congruence.
    + case_bool_decide as Hk; [|exact IH]. subst k0. by rewrite decide_False.
Qed.

(** A note kept for a section stays there through the comparisons that
    follow. *)
Lemma record_keeps key depUpdates updates k n :
  (∃ s, DepsNotes.mapGet k updates = Some s ∧ n ∈ s) →
  ∃ s, DepsNotes.mapGet k (DepsNotes.record key depUpdates updates) = Some s ∧ n ∈ s.
Proof.
  intros (s & Hs & Hn). unfold DepsNotes.record.
  destruct depUpdates as [|u depUpdates]; [eauto|].
  rewrite mapGet_mapSet. case_decide as Hk; [|eauto]. subst k.
  eexists. split; [reflexivity|]. apply setAdd_keeps. left. by rewrite Hs.
Qed.

Lemma compareGroups_keeps prefix original updatedVersions updated k n :
  ∀ updates,
    (∃ s, DepsNotes.mapGet k updates = Some s ∧ n ∈ s) →
    ∃ s, DepsNotes.mapGet k
           (DepsNotes.compareGroups prefix original updated updatedVersions updates)
         = Some s ∧ n ∈ s.
Proof.
  unfold DepsNotes.compareGroups.
  induction updated as [|entry updated IH]; intros updates Hkept; [done|].
  cbn [foldl]. apply IH. by apply record_keeps.
Qed.

Lemma startsWith_app_l needle s t :
  Js.startsWith needle s = true → Js.startsWith needle (s +:+ t) = true.
Proof.
  revert s. induction needle as [|a needle IH]; intros s Hs; [done|].
  destruct s as [|b s]; [done|]. rewrite append_cons. cbn [Js.startsWith] in *.
  case_decide; [by apply IH|done].
Qed.

Lemma includes_app_l needle s t :
  Js.includes needle s = true → Js.includes needle (s +:+ t) = true.
Proof.
  induction s as [|a s IH]; intros Hs.
  - cbn in Hs. rewrite orb_false_r in Hs. destruct needle; [|done].
    by destruct t.
  - rewrite includes_step in Hs. rewrite append_cons, includes_step.
    apply orb_true_iff in Hs as [Hs|Hs].
    + rewrite <-append_cons, (startsWith_app_l _ _ _ Hs). done.
    + by rewrite (IH Hs), orb_true_r.
Qed.

Lemma notes_include notes n :
  ∀ acc,
    Js.includes n acc = true ∨ n ∈ notes →
    Js.includes n (foldl (λ s note, s +:+ note) acc notes) = true.
Proof.
  induction notes as [|x notes IH]; intros acc Hn.
  - destruct Hn as [?|Hn]; [done|by apply elem_of_nil in Hn].
  - cbn [foldl]. apply IH. destruct Hn as [Hn|Hn].
    + left. by apply includes_app_l.
    + apply elem_of_cons in Hn as [->|Hn]; [|by right].
      left. apply includes_skip, includes_refl.
Qed.

Lemma render_includes updates n :
  ∀ acc,
    Js.includes n acc = true ∨ (∃ entry, entry ∈ updates ∧ n ∈ entry.2) →
    Js.includes n
      (foldl (λ depUpdateNotes entry,
                foldl (λ s note, s +:+ note)
                  (depUpdateNotes +:+ DepsNotes.newline +:+ "  * " +:+ entry.1) entry.2)
             acc updates) = true.
Proof.
  induction updates as [|entry updates IH]; intros acc Hn.
  - destruct Hn as [?|(e & He & _)]; [done|by apply elem_of_nil in He].
  - cbn [foldl]. apply IH. destruct Hn as [Hn|(e & He & Hn)].
    + left. apply notes_include. left. by apply includes_app_l.
    + apply elem_of_cons in He as [->|He]; [|right; eauto].
      left. apply notes_include. by right.
Qed.

Lemma mapGet_elem k updates s :
  DepsNotes.mapGet k updates = Some s → (k, s) ∈ updates.
Proof.
  unfold DepsNotes.mapGet.
  destruct (List.find _ updates) as [[k' s']|] eqn:Hfind; [|done].
  intros [= <-]. apply find_some in Hfind as [Hin Hk].
  apply bool_decide_eq_true_1 in Hk. cbn in Hk. subst k'. by apply list_elem_of_In.
Qed.

(** X17.  A dependency of [project.dependencies] whose name is a key of the
    versions map and whose specifier differs from the first original
    specifier of that name is reported: the notes are the heading followed
    by a text that includes the note for it. *)
Theorem getChangelogDepsNotes_reports
    (originalManifest updatedManifest : Plugin.Manifest) (updatedVersions : VersionsMap)
    (originalDeps updatedDeps : list string) (updatedDep originalDep : string)
    (newVersion : Version) :
  Plugin.dependencies originalManifest = Some originalDeps →
  Plugin.dependencies updatedManifest = Some updatedDeps →
  updatedDep ∈ updatedDeps →
  updatedVersions !! Plugin.extractPackageName updatedDep = Some newVersion →
  DepsNotes.findOriginal originalDeps (Plugin.extractPackageName updatedDep)
  = Some originalDep →
  originalDep ≠ "" → originalDep ≠ updatedDep →
  ∃ body,
    DepsNotes.getChangelogDepsNotes originalManifest updatedManifest updatedVersions
    = DepsNotes.heading +:+ body
    ∧ Js.includes (DepsNotes.note (Plugin.extractPackageName updatedDep) newVersion) body
      = true.
Proof.
  intros Horiginal Hupdated Hin Hversion Hfind Hne Hchanged.
  set (n := DepsNotes.note (Plugin.extractPackageName updatedDep) newVersion).
  assert (Hnote : n ∈ DepsNotes.compareDepLists originalDeps updatedDeps updatedVersions)
    by (by eapply compareDepLists_reports).
  assert (Hkept : ∃ s, DepsNotes.mapGet "dependencies"
                         (DepsNotes.collect originalManifest updatedManifest updatedVersions)
                       = Some s ∧ n ∈ s).
  { unfold DepsNotes.collect. rewrite Horiginal, Hupdated.
    assert (Hfirst : ∃ s, DepsNotes.mapGet "dependencies"
                            (DepsNotes.record "dependencies"
                               (DepsNotes.compareDepLists originalDeps updatedDeps
                                  updatedVersions) [])
                          = Some s ∧ n ∈ s).
    { unfold DepsNotes.record.
      destruct (DepsNotes.compareDepLists originalDeps updatedDeps updatedVersions)
        as [|u depUpdates] eqn:Hlist; [by apply elem_of_nil in Hnote|].
      eexists. split; [reflexivity|]. apply setAdd_keeps. by right. }
    destruct (Plugin.optionalDependencies originalManifest);
      destruct (Plugin.optionalDependencies updatedManifest);
      destruct (Plugin.dependencyGroups originalManifest);
      destruct (Plugin.dependencyGroups updatedManifest);
      repeat apply compareGroups_keeps; exact Hfirst. }
  destruct Hkept as (s & Hs & Hn). apply mapGet_elem in Hs.
  assert (Hbody : Js.includes n
            (DepsNotes.render
               (DepsNotes.collect originalManifest updatedManifest updatedVersions)) = true).
  { apply render_includes. right. by exists ("dependencies", s). }
  unfold DepsNotes.getChangelogDepsNotes. case_decide as Hempty.
  - rewrite Hempty in Hbody. done.
  - eauto.
Qed.

Lemma getChangelogDepsNotes_reports_witness :
  ∃ body,
    DepsNotes.getChangelogDepsNotes
      (Sample.cliManifest ["core>=1.0.0"; "requests"] ["pytest"])
      (Sample.cliManifest ["core>=1.1.0"; "requests"] ["pytest"])
      Sample.coreBumped
    = DepsNotes.heading +:+ body
    ∧ Js.includes (DepsNotes.note "core" (release 1 1 0)) body = true.
Proof.
  apply (getChangelogDepsNotes_reports _ _ Sample.coreBumped
           ["core>=1.0.0"; "requests"] ["core>=1.1.0"; "requests"]
           "core>=1.1.0" "core>=1.0.0" (release 1 1 0)); try reflexivity; try done.
  left.
Defined.

(** ** Candidate pull requests *)

Lemma mutateFirst_spec p f candidates :
  (Forall (λ c, p c = false) candidates ∧ Candidates.mutateFirst p f candidates = candidates)
  ∨ ∃ before c after,
      candidates = before ++ c :: after
      ∧ Forall (λ c, p c = false) before ∧ p c = true
      ∧ Candidates.mutateFirst p f candidates = before ++ f c :: after.
Proof.
  induction candidates as [|c candidates IH]; [by left|].
  cbn [Candidates.mutateFirst]. destruct (p c) eqn:Hc.
  - right. by exists [], c, candidates.
  - destruct IH as [[Hnone ->]|(before & c' & after & -> & Hbefore & Hc' & ->)].
    + left. split; [by apply Forall_cons|done].
    + right. exists (c :: before), c', after. split; [done|].
      split; [by apply Forall_cons|]. done.
Qed.

Lemma find_none_Forall {A} (p : A → bool) l :
  List.find p l = None → Forall (λ x, p x = false) l.
Proof.
  intros Hnone. apply Forall_forall. intros x Hx.
  by apply (find_none _ _ Hnone), list_elem_of_In.
Qed.

Example postProcessCandidates_prefers_root :
  (Candidates.postProcessCandidates Sample.candidatesEnv
     [Sample.cliCandidate;
      Candidates.mkCandidate "." "simple" [] [] None;
      Candidates.mkCandidate "." "python" [] [] None]
     Sample.coreBumped).1
  = [Sample.cliCandidate;
     Candidates.mkCandidate "." "simple"
       [Candidates.mkUpdate "uv.lock" false (Candidates.UvLock Sample.coreBumped)] [] None;
     Candidates.mkCandidate "." "python" [] [] None].
Proof. vm_compute. reflexivity. Qed.

(** X18.  [postProcessCandidates] changes at most one candidate, by appending the
    update of the root [uv.lock]: the first candidate at the root path, or
    without one the first python candidate (with a warning); without either
    the candidates are returned as they are, with both warnings. *)
Theorem postProcessCandidates_one_candidate
    (env : Candidates.Env) (candidates : list Candidates.Candidate)
    (updatedVersions : VersionsMap) :
  let out := (Candidates.postProcessCandidates env candidates updatedVersions).1 in
  let logged := (Candidates.postProcessCandidates env candidates updatedVersions).2 in
  (out = candidates
   ∧ Forall (λ c, Candidates.isRoot env c = false) candidates
   ∧ Forall (λ c, Candidates.isPython c = false) candidates
   ∧ logged = [Candidates.WarnNoRootCandidate; Candidates.WarnNoPythonCandidate])
  ∨ ∃ before c after,
      candidates = before ++ c :: after
      ∧ out = before ++ Candidates.pushLock updatedVersions c :: after
      ∧ ((Candidates.isRoot env c = true
          ∧ Forall (λ c, Candidates.isRoot env c = false) before
          ∧ logged = [])
         ∨ (Forall (λ c, Candidates.isRoot env c = false) candidates
            ∧ Candidates.isPython c = true
            ∧ Forall (λ c, Candidates.isPython c = false) before
            ∧ logged = [Candidates.WarnNoRootCandidate])).
Proof.
  cbn zeta. unfold Candidates.postProcessCandidates.
  destruct (List.find (Candidates.isRoot env) candidates) as [root|] eqn:Hroot.
  - cbn [fst snd]. right.
    destruct (mutateFirst_spec (Candidates.isRoot env)
                (Candidates.pushLock updatedVersions) candidates)
      as [[Hnone _]|(before & c & after & -> & Hbefore & Hc & ->)].
    + apply find_some in Hroot as [Hin Hr]. rewrite Forall_forall in Hnone.
      apply list_elem_of_In, Hnone in Hin. congruence.
    + exists before, c, after. split; [done|]. split; [done|]. by left.
  - apply find_none_Forall in Hroot.
    destruct (List.find Candidates.isPython candidates) as [python|] eqn:Hpython.
    + cbn [fst snd]. right.
      destruct (mutateFirst_spec Candidates.isPython
                  (Candidates.pushLock updatedVersions) candidates)
        as [[Hnone _]|(before & c & after & Heq & Hbefore & Hc & ->)].
      * apply find_some in Hpython as [Hin Hp]. rewrite Forall_forall in Hnone.
        apply list_elem_of_In, Hnone in Hin. congruence.
      * exists before, c, after. split; [done|]. split; [done|]. by right.
    + apply find_none_Forall in Hpython. cbn [fst snd]. by left.
Qed.

(** X19.  [updateCandidate] fails when the versions map has no version for the
    package; when it returns, the candidate has its path, its updates have
    the paths and [createIfMissing] flags they had, in the same order, and
    every update at the manifest path of the candidate holds the content
    that the manifest updater made of the package's manifest. *)
Theorem updateCandidate_updates
    (env : Candidates.Env) (existingCandidate : Candidates.Candidate)
    (pkg : Plugin.UvPackageInfo) (updatedVersions : VersionsMap) :
  (updatedVersions !! Plugin.name pkg = None →
   Candidates.updateCandidate env existingCandidate pkg updatedVersions
   = Throw (Candidates.noVersion (Plugin.name pkg)))
  ∧ ∀ updated,
      Candidates.updateCandidate env existingCandidate pkg updatedVersions = Ok updated →
      Candidates.candidatePath updated = Candidates.candidatePath existingCandidate
      ∧ Candidates.path <$> Candidates.updates updated
        = Candidates.path <$> Candidates.updates existingCandidate
      ∧ Candidates.createIfMissing <$> Candidates.updates updated
        = Candidates.createIfMissing <$> Candidates.updates existingCandidate
      ∧ ∃ version updatedContent,
          updatedVersions !! Plugin.name pkg = Some version
          ∧ Candidates.pyProjectToml env version (Plugin.manifestContent pkg)
            = Ok updatedContent
          ∧ ∀ i update,
              Candidates.updates updated !! i = Some update →
              Candidates.path update
              = Plugin.addPath (Candidates.plugin env)
                  (Candidates.candidatePath existingCandidate) "pyproject.toml" →
              Candidates.updater update = Candidates.RawContent updatedContent.
Proof.
  unfold Candidates.updateCandidate. split; [by intros ->|].
  intros updated Hrun.
  destruct (updatedVersions !! Plugin.name pkg) as [version|] eqn:Hversion;
    [|discriminate Hrun].
  destruct (Candidates.pyProjectToml env version (Plugin.manifestContent pkg))
    as [updatedContent|] eqn:Hcontent; [|discriminate Hrun].
  cbn [mbind Result_bind] in Hrun.
  destruct (Plugin.parsePyProject _ (Plugin.manifestContent pkg)) as [originalManifest|];
    [|discriminate Hrun].
  cbn [mbind Result_bind] in Hrun.
  destruct (Plugin.parsePyProject _ updatedContent) as [updatedManifest|];
    [|discriminate Hrun].
  cbn [mbind Result_bind] in Hrun. injection Hrun as <-. cbn.
  assert (Hkept : ∀ notes update,
            Candidates.path
              (Candidates.replaceUpdater env existingCandidate updatedContent notes
                 updatedVersions update) = Candidates.path update
            ∧ Candidates.createIfMissing
                (Candidates.replaceUpdater env existingCandidate updatedContent notes
                   updatedVersions update) = Candidates.createIfMissing update).
  { intros notes update. unfold Candidates.replaceUpdater. by repeat case_match. }
  split; [done|]. split; [|split].
  - rewrite <-list_fmap_compose. apply list_fmap_ext. intros i u _. apply Hkept.
  - rewrite <-list_fmap_compose. apply list_fmap_ext. intros i u _. apply Hkept.
  - exists version, updatedContent. split; [done|]. split; [done|].
    intros i update Hi Hpath. rewrite list_lookup_fmap in Hi.
    destruct (Candidates.updates existingCandidate !! i) as [u|]; [|done].
    injection Hi as <-. rewrite (proj1 (Hkept _ u)) in Hpath.
    unfold Candidates.replaceUpdater. by rewrite decide_True.
Qed.

(** X20.  When the manifest updater leaves the dependency sections as they are
    (and no list names a package twice), [updateCandidate] returns, leaves
    the release notes of the body untouched, and leaves every update other
    than those at the manifest path and at the lock path as it was,
    changelog updaters included. *)
Theorem updateCandidate_quiet
    (env : Candidates.Env) (existingCandidate : Candidates.Candidate)
    (pkg : Plugin.UvPackageInfo) (updatedVersions : VersionsMap)
    (version : Version) (updatedContent : Content)
    (originalManifest updatedManifest : Plugin.Manifest) :
  updatedVersions !! Plugin.name pkg = Some version →
  Candidates.pyProjectToml env version (Plugin.manifestContent pkg) = Ok updatedContent →
  Plugin.parsePyProject (Candidates.plugin env) (Plugin.manifestContent pkg)
  = Ok originalManifest →
  Plugin.parsePyProject (Candidates.plugin env) updatedContent = Ok updatedManifest →
  NotesSpec.distinct originalManifest →
  Plugin.dependencies updatedManifest = Plugin.dependencies originalManifest →
  Plugin.optionalDependencies updatedManifest = Plugin.optionalDependencies originalManifest →
  Plugin.dependencyGroups updatedManifest = Plugin.dependencyGroups originalManifest →
  ∃ updated,
    Candidates.updateCandidate env existingCandidate pkg updatedVersions = Ok updated
    ∧ Candidates.releaseData updated = Candidates.releaseData existingCandidate
    ∧ ∀ i update,
        Candidates.updates existingCandidate !! i = Some update →
        Candidates.path update
        ≠ Plugin.addPath (Candidates.plugin env)
            (Candidates.candidatePath existingCandidate) "pyproject.toml" →
        Candidates.path update
        ≠ Plugin.addPath (Candidates.plugin env)
            (Candidates.candidatePath existingCandidate) "uv.lock" →
        Candidates.updates updated !! i = Some update.
Proof.
  intros Hversion Hcontent Horiginal Hupdated Hdistinct Hdeps Hoptional Hgroups.
  unfold Candidates.updateCandidate. rewrite Hversion, Hcontent.
  cbn [mbind Result_bind]. rewrite Horiginal. cbn [mbind Result_bind].
  rewrite Hupdated. cbn [mbind Result_bind].
  rewrite (notes_unchanged _ _ _ Hdistinct Hdeps Hoptional Hgroups).
  eexists. split; [reflexivity|]. cbn. split; [done|].
  intros i update Hi Hmanifest Hlock. rewrite list_lookup_fmap, Hi. cbn. f_equal.
  unfold Candidates.replaceUpdater. rewrite !decide_False by done.
  by destruct (Candidates.updater update).
Qed.

Lemma updateCandidate_quiet_witness :
  ∃ updated,
    Candidates.updateCandidate Sample.candidatesEnv Sample.cliCandidate Sample.cliPackage
      {[ "cli" := release 1 0 1 ]} = Ok updated
    ∧ Candidates.releaseData updated = Candidates.releaseData Sample.cliCandidate.
Proof.
  destruct (updateCandidate_quiet Sample.candidatesEnv Sample.cliCandidate
              Sample.cliPackage {[ "cli" := release 1 0 1 ]} (release 1 0 1)
              (Sample.project "cli" (TString "1.0.0") ["core>=1.0.0"])
              (Plugin.manifest Sample.cliPackage) (Plugin.manifest Sample.cliPackage))
    as (updated & Hrun & Hdata & _); try reflexivity.
  - split; [|split].
    + intros deps [= <-]. apply (bool_decide_unpack _). vm_compute. exact I.
    + intros section [=].
    + intros section [=].
  - exists updated. split; [exact Hrun | exact Hdata].
Defined.
